(** * Schema manager and replace-loader of the supply-chain database

    A shallow embedding of [src/data/database-prep/create_database.py]
    (class [SupplyChainDB] and [main]) and of the functions of
    [src/data/database-prep/prepare_data.py] that make the extracts,
    together with the parts of pandas and of the sqlite3 session that they
    drive, and the properties of the loader stated in the specification.

    Layout:
    - values, dates and data frames (the pandas side);
    - the relational store: table declarations, constraints, DELETE with
      cascading foreign keys, INSERT with constraint checking (the SQLite side);
    - sessions: connections, transactions, the statement journal and the
      console, as a state-and-exception monad;
    - the methods of [SupplyChainDB] and [main];
    - the functions of [prepare_data.py];
    - the properties. *)

From Stdlib Require Import Ascii String QArith Qcanon.
From stdpp Require Import gmap strings list fin_maps pretty sorting.

Close Scope Q_scope.
Close Scope Qc_scope.
Open Scope string_scope.
Open Scope list_scope.
Open Scope nat_scope.

(** ** Values *)

(** A calendar date, a time of day, and a point in time. *)
Record date := mkDate { year : nat; month : nat; day : nat }.
Record time := mkTime { hour : nat; minute : nat; second : nat }.
Record datetime := mkDatetime { dt_date : date; dt_time : time }.

(** What a cell of a data frame or of a table row holds. [NA] stands for
    Python's [None], pandas' [NaN] and [NaT] and SQL's [NULL]; numbers are
    exact rationals in canonical form, so that equal numbers are equal terms. *)
Inductive value :=
| NA
| Num (q : Qc)
| Str (s : string)
| Date (d : date).

#[global] Instance date_eq_dec : EqDecision date.
Proof. solve_decision. Defined.
#[global] Instance time_eq_dec : EqDecision time.
Proof. solve_decision. Defined.
#[global] Instance datetime_eq_dec : EqDecision datetime.
Proof. solve_decision. Defined.
#[global] Instance value_eq_dec : EqDecision value.
Proof. solve_decision. Defined.

Definition num (z : Z) : value := Num (Q2Qc (inject_Z z)).
Definition dec (n : Z) (d : positive) : value := Num (Q2Qc (Qmake n d)).

(** [date.isoformat()]: YYYY-MM-DD, zero padded. *)
Fixpoint zeros (n : nat) : string :=
  match n with O => "" | S k => "0" +:+ zeros k end.
Definition zfill (w n : nat) : string :=
  let s := pretty n in zeros (w - String.length s) +:+ s.
Definition isoformat (d : date) : string :=
  zfill 4 (year d) +:+ "-" +:+ zfill 2 (month d) +:+ "-" +:+ zfill 2 (day d).

(** ** Data frames (pandas) *)

(** A row maps column names to values; a frame is its column index and its
    rows in order. A column a row does not bind reads as [NA]. *)
Record DataFrame := mkDF {
  columns : list string;
  rows : list (gmap string value)
}.

Definition cell (c : string) (r : gmap string value) : value := default NA (r !! c).

(** [df[c]] *)
Definition series (c : string) (df : DataFrame) : list value :=
  map (cell c) (rows df).

(** The values of a row on a column subset. *)
Definition key_of (subset : list string) (r : gmap string value) : list value :=
  map (fun c => cell c r) subset.

(** [df[mask]]: boolean indexing. *)
Fixpoint boolean_index {A} (mask : list bool) (l : list A) : list A :=
  match mask, l with
  | b :: mask', x :: l' =>
      if b then x :: boolean_index mask' l' else boolean_index mask' l'
  | _, _ => []
  end.

(** [duplicated(keep="first")] on a list of keys: an entry is marked when an
    earlier entry carries the same key. *)
Fixpoint duplicated_from (seen : list (list value)) (ks : list (list value)) : list bool :=
  match ks with
  | [] => []
  | k :: ks' => bool_decide (k ∈ seen) :: duplicated_from (k :: seen) ks'
  end.

Inductive exn :=
| EmptyDataError
| KeyError (c : list string)
| DateParseError (c : string)
| ProgrammingError
| OperationalError (what : string)
| IntegrityError (what : string).

Inductive result (A : Type) :=
| Ok (a : A)
| Raise (e : exn).
Arguments Ok {A} a.
Arguments Raise {A} e.

(** [df.duplicated(subset=subset)]; [subset=None] compares whole rows, and a
    subset column the frame lacks is a [KeyError]. *)
Definition duplicated (subset : option (list string)) (df : DataFrame) : result (list bool) :=
  let cs := default (columns df) subset in
  match filter (fun c => c ∉ columns df) cs with
  | [] => Ok (duplicated_from [] (map (key_of cs) (rows df)))
  | missing => Raise (KeyError missing)
  end.

(** [df.drop_duplicates(subset=subset, keep="first")] is
    [df[~df.duplicated(subset)]]. *)
Definition drop_duplicates (subset : list string) (df : DataFrame) : result DataFrame :=
  match duplicated (Some subset) df with
  | Ok mask => Ok (mkDF (columns df) (boolean_index (map negb mask) (rows df)))
  | Raise e => Raise e
  end.

(** [df[c] = s]: the series is aligned on the row positions; a position the
    series lacks becomes [NA]. A new name extends the column index. *)
Definition assign (c : string) (s : list value) (df : DataFrame) : DataFrame :=
  mkDF (if bool_decide (c ∈ columns df) then columns df else columns df ++ [c])
       (imap (fun i r => <[c := default NA (s !! i)]> r) (rows df)).

(** [.dt.date]: the time of day is dropped; [NaT] stays missing. *)
Definition dt_date_of (t : option datetime) : value :=
  match t with Some t => Date (dt_date t) | None => NA end.

(** [df[df[c].isin(allowed)]], for values [allowed] read from the store. A
    missing cell of the frame is a [NaN] or a [NaT], a [NULL] of the store
    comes back as [None], and [isin] does not match the one with the other:
    a row whose cell is missing is not kept. *)
Definition isin_filter (c : string) (allowed : list value) (df : DataFrame) : DataFrame :=
  mkDF (columns df) (filter (fun r => cell c r ≠ NA ∧ cell c r ∈ allowed) (rows df)).

(** ** The relational store (SQLite) *)

(** Python's sqlite3 adapter hands a [date] to the store as its ISO text;
    every other value goes through as it is. Column type affinity is not
    modelled: a value is stored in the storage class it arrives in. *)
Definition adapt (v : value) : value :=
  match v with Date d => Str (isoformat d) | _ => v end.

(** Comparison of two stored values: [NULL] compares with nothing, numbers
    sort before text, text is compared bytewise. *)
Definition sql_compare (a b : value) : option comparison :=
  match adapt a, adapt b with
  | Num p, Num q => Some (Qccompare p q)
  | Num _, Str _ => Some Lt
  | Str _, Num _ => Some Gt
  | Str s, Str t => Some (String.compare s t)
  | _, _ => None
  end.

(** The expressions of the CHECK constraints of the schema. *)
Inductive scalar :=
| Col (c : string)
| Lit (v : value).

Inductive cond :=
| Geq (a b : scalar)
| Gtr (a b : scalar)
| Between (e lo hi : scalar)
| IsIn (e : scalar) (vs : list string)
| IsNull (e : scalar)
| Either (a b : cond).

Definition eval_scalar (r : gmap string value) (e : scalar) : value :=
  match e with Col c => cell c r | Lit v => v end.

(** Three-valued logic: [None] is SQL's unknown. *)
Definition sql_and (a b : option bool) : option bool :=
  match a, b with
  | Some false, _ | _, Some false => Some false
  | Some true, Some true => Some true
  | _, _ => None
  end.

Definition sql_or (a b : option bool) : option bool :=
  match a, b with
  | Some true, _ | _, Some true => Some true
  | Some false, Some false => Some false
  | _, _ => None
  end.

Definition sql_ge (a b : value) : option bool :=
  match sql_compare a b with
  | Some Lt => Some false
  | Some _ => Some true
  | None => None
  end.

Definition sql_gt (a b : value) : option bool :=
  match sql_compare a b with
  | Some Gt => Some true
  | Some _ => Some false
  | None => None
  end.

Fixpoint eval_cond (r : gmap string value) (c : cond) : option bool :=
  match c with
  | Geq a b => sql_ge (eval_scalar r a) (eval_scalar r b)
  | Gtr a b => sql_gt (eval_scalar r a) (eval_scalar r b)
  | Between e lo hi =>
      sql_and (sql_ge (eval_scalar r e) (eval_scalar r lo))
              (sql_ge (eval_scalar r hi) (eval_scalar r e))
  | IsIn e vs =>
      match eval_scalar r e with
      | NA => None
      | v => Some (bool_decide (adapt v ∈ map Str vs))
      end
  | IsNull e => Some (bool_decide (eval_scalar r e = NA))
  | Either a b => sql_or (eval_cond r a) (eval_cond r b)
  end.

(** A CHECK constraint rejects a row only when it evaluates to false. *)
Definition check_holds (r : gmap string value) (c : cond) : bool :=
  match eval_cond r c with Some false => false | _ => true end.

Inductive sqltype := TEXT | REAL | INTEGER | DATE | DATETIME | TIMESTAMP.

Inductive default_value :=
| NoDefault
| Default (v : value)
| CURRENT_TIMESTAMP.

Record Column := mkColumn {
  col_name : string;
  col_type : sqltype;
  col_not_null : bool;
  col_default : default_value;
  col_check : option cond
}.

(** [FOREIGN KEY (fk_column) REFERENCES fk_table(fk_key) ON DELETE CASCADE];
    every foreign key of the schema cascades. *)
Record ForeignKey := mkFK {
  fk_column : string;
  fk_table : string;
  fk_key : string
}.

Record TableSpec := mkSpec {
  t_columns : list Column;
  t_primary_key : list string;
  t_foreign_keys : list ForeignKey;
  t_checks : list cond
}.

Record Table := mkTable {
  t_spec : TableSpec;
  t_rows : list (gmap string value)
}.

(** The database file: its tables by name, and its indexes (index name to
    the table it is on). *)
Record Store := mkStore {
  tables : gmap string Table;
  indexes : gmap string string
}.

Definition column_names (spec : TableSpec) : list string :=
  map col_name (t_columns spec).

Definition rows_of (t : string) (st : Store) : option (list (gmap string value)) :=
  t_rows <$> tables st !! t.

(** *** DELETE, with cascading foreign keys *)

(** The foreign keys that point at [parent], each with the table declaring it. *)
Definition child_links (parent : string) (ts : gmap string Table) : list (string * ForeignKey) :=
  flat_map (fun '(name, tb) =>
              map (fun fk => (name, fk))
                  (filter (fun fk => fk_table fk = parent) (t_foreign_keys (t_spec tb))))
           (map_to_list ts).

(** The rows [gone] have left [parent]: every row of a child table that
    references one of them through a non-null foreign key leaves too, and so
    on down the references. Each round that goes on removes a row, so the
    number of rows bounds the depth. *)
Fixpoint cascade (fuel : nat) (parent : string) (gone : list (gmap string value))
    (ts : gmap string Table) : gmap string Table :=
  match fuel with
  | O => ts
  | S fuel' =>
      foldl (fun ts '(child, fk) =>
               match ts !! child with
               | None => ts
               | Some tb =>
                   let hit (r : gmap string value) :=
                     cell (fk_column fk) r ≠ NA
                     ∧ cell (fk_column fk) r ∈ map (cell (fk_key fk)) gone in
                   match filter hit (t_rows tb) with
                   | [] => ts
                   | dead =>
                       cascade fuel' child dead
                         (<[child := mkTable (t_spec tb) (filter (fun r => ¬ hit r) (t_rows tb))]> ts)
                   end
               end)
            ts (child_links parent ts)
  end.

Definition total_rows (ts : gmap string Table) : nat :=
  map_fold (fun _ tb n => length (t_rows tb) + n) 0 ts.

(** Every row of [t] is removed; with enforcement on, the removal cascades. *)
Definition clear_table (fk : bool) (t : string) (tb : Table) (ts : gmap string Table)
    : gmap string Table :=
  let ts' := <[t := mkTable (t_spec tb) []]> ts in
  if fk then cascade (S (total_rows ts')) t (t_rows tb) ts' else ts'.

(** [DELETE FROM t;] *)
Definition exec_delete (fk : bool) (t : string) (st : Store) : result Store :=
  match tables st !! t with
  | None => Raise (OperationalError ("no such table: " +:+ t))
  | Some tb => Ok (mkStore (clear_table fk t tb (tables st)) (indexes st))
  end.

(** [DROP TABLE IF EXISTS t;]: with enforcement on, the rows are deleted
    first (and the deletion cascades); the indexes of the table go with it. *)
Definition exec_drop (fk : bool) (t : string) (st : Store) : Store :=
  match tables st !! t with
  | None => st
  | Some tb =>
      mkStore (delete t (clear_table fk t tb (tables st)))
              (filter (fun '(_, on) => on ≠ t) (indexes st))
  end.

(** *** INSERT *)

Definition default_of (now : string) (d : default_value) : value :=
  match d with
  | NoDefault => NA
  | Default v => v
  | CURRENT_TIMESTAMP => Str now
  end.

(** The row an INSERT naming the columns [cols] builds from the frame row [r]:
    a named column takes the adapted value, any other its default. *)
Definition new_row (spec : TableSpec) (now : string) (cols : list string)
    (r : gmap string value) : gmap string value :=
  list_to_map
    (map (fun c => (col_name c,
                    if bool_decide (col_name c ∈ cols) then adapt (cell (col_name c) r)
                    else default_of now (col_default c)))
         (t_columns spec)).

Definition not_null_ok (spec : TableSpec) (r : gmap string value) : bool :=
  forallb (fun c => negb (col_not_null c) || bool_decide (cell (col_name c) r ≠ NA))
          (t_columns spec).

Definition checks_ok (spec : TableSpec) (r : gmap string value) : bool :=
  forallb (check_holds r) (omap col_check (t_columns spec) ++ t_checks spec).

(** Uniqueness of the primary key; a key with a [NULL] in it is distinct
    from every other. *)
Definition primary_key_ok (spec : TableSpec) (old : list (gmap string value))
    (r : gmap string value) : bool :=
  let k := key_of (t_primary_key spec) r in
  bool_decide (t_primary_key spec = [] ∨ NA ∈ k ∨ k ∉ map (key_of (t_primary_key spec)) old).

(** A non-null foreign key must find its parent row. *)
Definition foreign_keys_ok (spec : TableSpec) (ts : gmap string Table)
    (r : gmap string value) : bool :=
  forallb (fun fk =>
             bool_decide (cell (fk_column fk) r = NA) ||
             match ts !! fk_table fk with
             | Some parent =>
                 bool_decide (cell (fk_column fk) r ∈ map (cell (fk_key fk)) (t_rows parent))
             | None => false
             end)
          (t_foreign_keys spec).

(** [INSERT INTO t (cols) VALUES (r);] *)
Definition exec_insert (fk : bool) (now : string) (t : string) (cols : list string)
    (r : gmap string value) (st : Store) : result Store :=
  match tables st !! t with
  | None => Raise (OperationalError ("no such table: " +:+ t))
  | Some tb =>
      match filter (fun c => c ∉ column_names (t_spec tb)) cols with
      | c :: _ => Raise (OperationalError ("table " +:+ t +:+ " has no column named " +:+ c))
      | [] =>
          let nr := new_row (t_spec tb) now cols r in
          let ts := <[t := mkTable (t_spec tb) (t_rows tb ++ [nr])]> (tables st) in
          if negb (not_null_ok (t_spec tb) nr) then
            Raise (IntegrityError "NOT NULL constraint failed")
          else if negb (checks_ok (t_spec tb) nr) then
            Raise (IntegrityError "CHECK constraint failed")
          else if negb (primary_key_ok (t_spec tb) (t_rows tb) nr) then
            Raise (IntegrityError "UNIQUE constraint failed")
          else if fk && negb (foreign_keys_ok (t_spec tb) ts nr) then
            Raise (IntegrityError "FOREIGN KEY constraint failed")
          else Ok (mkStore ts (indexes st))
      end
  end.

(** *** The statements the program issues *)

Inductive Statement :=
| PRAGMA_foreign_keys (on : bool)
| CREATE_TABLE (name : string) (spec : TableSpec)                (* IF NOT EXISTS *)
| CREATE_INDEX (name table : string) (cols : list string)        (* IF NOT EXISTS *)
| SELECT_user_tables (ordered : bool)
| DROP_TABLE (name : string)                                     (* IF EXISTS *)
| DELETE_FROM (table : string)
| SELECT_column (col table : string)
| SELECT_count (table : string)
| SELECT_exists (table : string)
| INSERT (table : string) (cols : list string) (r : gmap string value).

Definition lower (a : ascii) : ascii :=
  let n := nat_of_ascii a in
  if (65 <=? n) && (n <=? 90) then ascii_of_nat (n + 32) else a.

Fixpoint lowercase (s : string) : string :=
  match s with
  | EmptyString => EmptyString
  | String a s' => String (lower a) (lowercase s')
  end.

(** The program writes the name of the table into the text of its DELETE,
    DROP TABLE and SELECT COUNT statements as it is, without quotes. The
    text is the statement on the table of that name when the name can stand
    bare in SQL: a letter or an underscore, then letters, digits and
    underscores, and not a keyword. The statements below stand for the text
    on such names, and the properties that depend on what a statement built
    this way does are stated for them. *)
Definition keywords : list string :=
  ["abort"; "action"; "add"; "after"; "all"; "alter"; "always"; "analyze";
   "and"; "as"; "asc"; "attach"; "autoincrement"; "before"; "begin";
   "between"; "by"; "cascade"; "case"; "cast"; "check"; "collate"; "column";
   "commit"; "conflict"; "constraint"; "create"; "cross"; "current";
   "current_date"; "current_time"; "current_timestamp"; "database";
   "default"; "deferrable"; "deferred"; "delete"; "desc"; "detach";
   "distinct"; "do"; "drop"; "each"; "else"; "end"; "escape"; "except";
   "exclude"; "exclusive"; "exists"; "explain"; "fail"; "filter"; "first";
   "following"; "for"; "foreign"; "from"; "full"; "generated"; "glob";
   "group"; "groups"; "having"; "if"; "ignore"; "immediate"; "in"; "index";
   "indexed"; "initially"; "inner"; "insert"; "instead"; "intersect"; "into";
   "is"; "isnull"; "join"; "key"; "last"; "left"; "like"; "limit"; "match";
   "materialized"; "natural"; "no"; "not"; "nothing"; "notnull"; "null";
   "nulls"; "of"; "offset"; "on"; "or"; "order"; "others"; "outer"; "over";
   "partition"; "plan"; "pragma"; "preceding"; "primary"; "query"; "raise";
   "range"; "recursive"; "references"; "regexp"; "reindex"; "release";
   "rename"; "replace"; "restrict"; "returning"; "right"; "rollback"; "row";
   "rows"; "savepoint"; "select"; "set"; "table"; "temp"; "temporary";
   "then"; "ties"; "to"; "transaction"; "trigger"; "unbounded"; "union";
   "unique"; "update"; "using"; "vacuum"; "values"; "view"; "virtual";
   "when"; "where"; "window"; "with"; "within"; "without" ].

Definition name_start (a : ascii) : bool :=
  let n := nat_of_ascii a in
  ((65 <=? n) && (n <=? 90)) || ((97 <=? n) && (n <=? 122)) || (n =? 95).

Definition name_part (a : ascii) : bool :=
  let n := nat_of_ascii a in
  name_start a || ((48 <=? n) && (n <=? 57)).

Definition bare_name (s : string) : bool :=
  match s with
  | EmptyString => false
  | String a s' =>
      name_start a && forallb name_part (list_ascii_of_string s')
      && bool_decide (lowercase s ∉ keywords)
  end.

(** [name LIKE 'sqlite_%']: LIKE ignores ASCII case, [_] stands for any one
    character and [%] for any run of characters. *)
Definition like_sqlite_ (name : string) : bool :=
  bool_decide (lowercase (substring 0 6 name) = "sqlite") && (6 <? String.length name).

(** The names in [sqlite_master] that are not LIKE 'sqlite_%'; with
    [ORDER BY name] they come sorted bytewise. *)
Definition user_tables (ordered : bool) (st : Store) : list string :=
  let names := filter (fun n => like_sqlite_ n = false) (map fst (map_to_list (tables st))) in
  if ordered then merge_sort (fun a b => String.compare a b ≠ Gt) names else names.

Definition exec_create_index (i t : string) (cols : list string) (st : Store) : result Store :=
  match indexes st !! i with
  | Some _ => Ok st
  | None =>
      match tables st !! t with
      | None => Raise (OperationalError ("no such table: main." +:+ t))
      | Some tb =>
          match filter (fun c => c ∉ column_names (t_spec tb)) cols with
          | c :: _ => Raise (OperationalError ("no such column: " +:+ c))
          | [] => Ok (mkStore (tables st) (<[i := t]> (indexes st)))
          end
      end
  end.

Definition exec_create_table (t : string) (spec : TableSpec) (st : Store) : Store :=
  match tables st !! t with
  | Some _ => st
  | None => mkStore (<[t := mkTable spec []]> (tables st)) (indexes st)
  end.

(** One statement against the store, under the session's enforcement flag
    [fk]: the store after it and the rows it returns. *)
Definition exec (fk : bool) (now : string) (s : Statement) (st : Store)
    : result (Store * list (list value)) :=
  match s with
  | PRAGMA_foreign_keys _ => Ok (st, [])
  | CREATE_TABLE t spec => Ok (exec_create_table t spec st, [])
  | CREATE_INDEX i t cols =>
      match exec_create_index i t cols st with
      | Ok st' => Ok (st', [])
      | Raise e => Raise e
      end
  | SELECT_user_tables ordered => Ok (st, map (fun n => [Str n]) (user_tables ordered st))
  | DROP_TABLE t => Ok (exec_drop fk t st, [])
  | DELETE_FROM t =>
      match exec_delete fk t st with
      | Ok st' => Ok (st', [])
      | Raise e => Raise e
      end
  | SELECT_column c t =>
      match tables st !! t with
      | None => Raise (OperationalError ("no such table: " +:+ t))
      | Some tb =>
          if bool_decide (c ∈ column_names (t_spec tb))
          then Ok (st, map (fun r => [cell c r]) (t_rows tb))
          else Raise (OperationalError ("no such column: " +:+ c))
      end
  | SELECT_count t =>
      match tables st !! t with
      | None => Raise (OperationalError ("no such table: " +:+ t))
      | Some tb => Ok (st, [[num (Z.of_nat (length (t_rows tb)))]])
      end
  | SELECT_exists t =>
      Ok (st, match tables st !! t with Some _ => [[Str t]] | None => [] end)
  | INSERT t cols r =>
      match exec_insert fk now t cols r st with
      | Ok st' => Ok (st', [])
      | Raise e => Raise e
      end
  end.

(** INSERT and DELETE open a transaction in Python's sqlite3; the other
    statements run in autocommit unless one is already open. *)
Definition is_dml (s : Statement) : bool :=
  match s with
  | INSERT _ _ _ | DELETE_FROM _ => true
  | _ => false
  end.

(** *** The schema of [create_tables] *)

Definition column (n : string) (ty : sqltype) : Column := mkColumn n ty false NoDefault None.
Definition required (n : string) (ty : sqltype) : Column := mkColumn n ty true NoDefault None.
Definition checked (n : string) (ty : sqltype) (c : cond) : Column :=
  mkColumn n ty false NoDefault (Some c).
Definition counter (n : string) : Column :=
  mkColumn n INTEGER true (Default (num 0)) (Some (Geq (Col n) (Lit (num 0)))).
Definition non_negative (n : string) (ty : sqltype) : Column :=
  checked n ty (Geq (Col n) (Lit (num 0))).
Definition within (n : string) (lo hi : Z) : Column :=
  checked n REAL (Between (Col n) (Lit (num lo)) (Lit (num hi))).
Definition stamps : list Column :=
  [ mkColumn "created_at" TIMESTAMP false CURRENT_TIMESTAMP None;
    mkColumn "updated_at" TIMESTAMP false CURRENT_TIMESTAMP None ].

Definition vendor_spec : TableSpec :=
  mkSpec ([ column "vendor_id" TEXT;
            required "supplier_name" TEXT;
            within "defect_rate" 0 1;
            non_negative "lead_time_days" INTEGER;
            within "quality_score" 0 5 ] ++ stamps)
         ["vendor_id"] [] [].

Definition warehouse_spec : TableSpec :=
  mkSpec ([ column "warehouse_id" TEXT; required "location" TEXT ] ++ stamps)
         ["warehouse_id"] [] [].

Definition product_spec : TableSpec :=
  mkSpec ([ column "sku_id" TEXT; required "product_type" TEXT ] ++ stamps)
         ["sku_id"] [] [].

Definition purchase_order_spec : TableSpec :=
  mkSpec ([ column "po_id" TEXT;
            required "sku_id" TEXT;
            required "vendor_id" TEXT;
            required "po_date" DATE;
            mkColumn "po_qty" REAL true NoDefault (Some (Gtr (Col "po_qty") (Lit (num 0))));
            required "promised_delivery_date" DATE;
            non_negative "actual_receipt_qty" REAL;
            checked "inspection_results" TEXT
              (IsIn (Col "inspection_results") ["pass"; "fail"; "pending"]);
            non_negative "manufacturing_costs" REAL ] ++ stamps)
         ["po_id"]
         [ mkFK "sku_id" "product" "sku_id"; mkFK "vendor_id" "vendor" "vendor_id" ]
         [ Geq (Col "promised_delivery_date") (Col "po_date") ].

Definition inventory_spec : TableSpec :=
  mkSpec ([ required "warehouse_id" TEXT;
            required "sku_id" TEXT;
            counter "stock_available";
            counter "on_hand_qty";
            counter "in_transit_qty";
            counter "reorder_point";
            counter "safety_stock" ] ++ stamps)
         ["warehouse_id"; "sku_id"]
         [ mkFK "warehouse_id" "warehouse" "warehouse_id"; mkFK "sku_id" "product" "sku_id" ]
         [].

Definition shipment_spec : TableSpec :=
  mkSpec ([ column "shipment_id" TEXT;
            required "order_id" TEXT;
            within "origin_lat" (-90) 90;
            within "origin_lng" (-180) 180;
            within "destination_lat" (-90) 90;
            within "destination_lng" (-180) 180;
            mkColumn "status" TEXT true NoDefault
              (Some (IsIn (Col "status")
                          ["pending"; "in_transit"; "delivered"; "delayed"; "cancelled"]));
            required "event_timestamp" DATETIME;
            column "estimated_delivery_date" DATE;
            column "actual_delivery_date" DATE;
            mkColumn "delay_hours" REAL false (Default (num 0))
              (Some (Geq (Col "delay_hours") (Lit (num 0))));
            required "shipping_carrier" TEXT;
            non_negative "shipping_time_days" INTEGER;
            non_negative "shipping_cost" REAL ] ++ stamps)
         ["shipment_id"]
         [ mkFK "order_id" "purchase_order" "po_id" ]
         [ Either (IsNull (Col "actual_delivery_date"))
                  (Geq (Col "actual_delivery_date") (Col "event_timestamp")) ].

Definition demand_spec : TableSpec :=
  mkSpec ([ required "date" DATE;
            required "sku_id" TEXT;
            non_negative "price" REAL;
            within "discount_percent" 0 100;
            non_negative "competitor_price" REAL;
            non_negative "web_traffic" INTEGER;
            non_negative "units_sold" INTEGER ] ++ stamps)
         ["date"; "sku_id"]
         [ mkFK "sku_id" "product" "sku_id" ]
         [].

(** The seven tables, in the order the script declares them. *)
Definition schema : list (string * TableSpec) :=
  [ ("vendor", vendor_spec);
    ("warehouse", warehouse_spec);
    ("product", product_spec);
    ("purchase_order", purchase_order_spec);
    ("inventory", inventory_spec);
    ("shipment", shipment_spec);
    ("demand", demand_spec) ].

Definition schema_indexes : list (string * (string * list string)) :=
  [ ("idx_po_sku", ("purchase_order", ["sku_id"]));
    ("idx_po_vendor", ("purchase_order", ["vendor_id"]));
    ("idx_po_dates", ("purchase_order", ["po_date"; "promised_delivery_date"]));
    ("idx_inventory_warehouse", ("inventory", ["warehouse_id"]));
    ("idx_inventory_sku", ("inventory", ["sku_id"]));
    ("idx_shipment_status", ("shipment", ["status"]));
    ("idx_shipment_dates", ("shipment", ["event_timestamp"]));
    ("idx_demand_date", ("demand", ["date"]));
    ("idx_demand_sku", ("demand", ["sku_id"])) ].

(** The script [create_tables] hands to [executescript]. *)
Definition schema_script : list Statement :=
  PRAGMA_foreign_keys true
  :: map (fun '(t, spec) => CREATE_TABLE t spec) schema
  ++ map (fun '(i, (t, cols)) => CREATE_INDEX i t cols) schema_indexes.

(** ** Sessions *)

(** A connection of Python's sqlite3: whether it is still open, its
    [PRAGMA foreign_keys] flag, and, while it has a transaction open, the
    store as the transaction has left it so far. *)
Record Connection := mkConn {
  is_open : bool;
  foreign_keys : bool;
  pending : option Store
}.

Definition in_transaction (c : Connection) : bool :=
  match pending c with Some _ => true | None => false end.

(** What went on in the sessions, oldest first. A statement is journalled
    with the connection it ran on and the enforcement flag it ran under. *)
Inductive Event :=
| Connected (conn : nat)
| Executed (conn : nat) (fk : bool) (s : Statement)
| Committed (conn : nat)
| RolledBack (conn : nat)
| Closed (conn : nat).

(** The lines the program prints. *)
Inductive Msg :=
| NotFound (csv_path table : string)
| Loading (table csv_path : string)
| FoundDuplicates (n : nat) (table : string)
| DuplicateValues (head : list (gmap string value))
| RemovedDuplicates (n : nat) (table : string) (keys : list string)
| RemovedMissingFK (n : nat) (table column : string)
| Loaded (n : nat) (table : string)
| TableVerification
| RowCount (table : string) (count : value)
| DroppingAndRecreating
| UsingExisting
| SetupCompleted
| Error (e : exn).

(** A file read by [pd.read_csv]: no columns at all (not even a header
    line), or a table of records. *)
Inductive csv_file :=
| Blank
| Csv (df : DataFrame).

(** The state a run acts on: the files, the database as committed, every
    connection opened so far (a handle is its position), the [conn]
    attribute of the [SupplyChainDB] object, the console, the journal and
    the store's clock. The program is the only client of the database and
    writes through one connection at a time; locking is not modelled. *)
Record World := mkWorld {
  files : gmap string csv_file;
  disk : Store;
  connections : list Connection;
  self_conn : option nat;
  console : list Msg;
  journal : list Event;
  clock : string
}.

(** Equality is decidable on everything a world is made of, so that closed
    equations between worlds can be settled by evaluation. *)
#[global] Instance exn_eq_dec : EqDecision exn.
Proof. solve_decision. Defined.
#[global] Instance result_eq_dec `{EqDecision A} : EqDecision (result A).
Proof. solve_decision. Defined.
#[global] Instance DataFrame_eq_dec : EqDecision DataFrame.
Proof. solve_decision. Defined.
#[global] Instance scalar_eq_dec : EqDecision scalar.
Proof. solve_decision. Defined.
#[global] Instance cond_eq_dec : EqDecision cond.
Proof. solve_decision. Defined.
#[global] Instance sqltype_eq_dec : EqDecision sqltype.
Proof. solve_decision. Defined.
#[global] Instance default_value_eq_dec : EqDecision default_value.
Proof. solve_decision. Defined.
#[global] Instance Column_eq_dec : EqDecision Column.
Proof. solve_decision. Defined.
#[global] Instance ForeignKey_eq_dec : EqDecision ForeignKey.
Proof. solve_decision. Defined.
#[global] Instance TableSpec_eq_dec : EqDecision TableSpec.
Proof. solve_decision. Defined.
#[global] Instance Table_eq_dec : EqDecision Table.
Proof. solve_decision. Defined.
#[global] Instance Store_eq_dec : EqDecision Store.
Proof. solve_decision. Defined.
#[global] Instance Statement_eq_dec : EqDecision Statement.
Proof. solve_decision. Defined.
#[global] Instance Connection_eq_dec : EqDecision Connection.
Proof. solve_decision. Defined.
#[global] Instance Event_eq_dec : EqDecision Event.
Proof. solve_decision. Defined.
#[global] Instance Msg_eq_dec : EqDecision Msg.
Proof. solve_decision. Defined.
#[global] Instance csv_file_eq_dec : EqDecision csv_file.
Proof. solve_decision. Defined.
#[global] Instance World_eq_dec : EqDecision World.
Proof. solve_decision. Defined.

Definition M (A : Type) : Type := World -> result A * World.

Definition ret {A} (a : A) : M A := fun w => (Ok a, w).

Definition bind {A B} (m : M A) (f : A -> M B) : M B := fun w =>
  match m w with
  | (Ok a, w') => f a w'
  | (Raise e, w') => (Raise e, w')
  end.

Declare Scope M_scope.
Delimit Scope M_scope with M.
Bind Scope M_scope with M.
Notation "x ← y ; z" := (bind y (fun x => z))
  (at level 20, y at level 100, z at level 200, only parsing) : M_scope.
Notation "x ;; z" := (bind x (fun _ => z))
  (at level 100, z at level 200, only parsing, right associativity) : M_scope.
Open Scope M_scope.

Definition raise {A} (e : exn) : M A := fun w => (Raise e, w).

Definition lift {A} (r : result A) : M A := fun w => (r, w).

(** [try: body finally: final] *)
Definition try_finally {A} (body : M A) (final : M unit) : M A := fun w =>
  match body w with
  | (r, w') =>
      match final w' with
      | (Ok _, w'') => (r, w'')
      | (Raise e, w'') => (Raise e, w'')
      end
  end.

(** [try: body except Exception as e: handler(e)] *)
Definition try_except {A} (body : M A) (handler : exn -> M A) : M A := fun w =>
  match body w with
  | (Ok a, w') => (Ok a, w')
  | (Raise e, w') => handler e w'
  end.

Fixpoint for_each {A} (l : list A) (body : A -> M unit) : M unit :=
  match l with
  | [] => ret ()
  | x :: l' => body x;; for_each l' body
  end.

Definition when (b : bool) (m : M unit) : M unit := if b then m else ret ().

Definition say (out : list Msg) (w : World) : World :=
  mkWorld (files w) (disk w) (connections w) (self_conn w)
          (console w ++ out) (journal w) (clock w).

Definition print (m : Msg) : M unit := fun w => (Ok (), say [m] w).

(** The session behind the handle [h] moves on: its connection becomes [c],
    the committed store [d], and the journal grows by [evs]. *)
Definition update (h : nat) (c : Connection) (d : Store) (evs : list Event)
    (w : World) : World :=
  mkWorld (files w) d (<[h := c]> (connections w)) (self_conn w)
          (console w) (journal w ++ evs) (clock w).

(** The connection behind a handle; a closed one cannot be used. *)
Definition connection (h : nat) : M Connection := fun w =>
  match connections w !! h with
  | Some c => if is_open c then (Ok c, w) else (Raise ProgrammingError, w)
  | None => (Raise ProgrammingError, w)
  end.

(** A statement on the connection [c] over the committed store [d]: what it
    returns, the connection and the committed store after it.
    [PRAGMA foreign_keys] sets the flag of the connection and does nothing
    inside a transaction. Any other statement runs against the store as the
    session sees it; INSERT and DELETE first open a transaction, and without
    one the effect is committed at once. A statement that fails leaves the
    store as it was. *)
Definition run (s : Statement) (now : string) (c : Connection) (d : Store)
    : result (list (list value)) * Connection * Store :=
  match s with
  | PRAGMA_foreign_keys on =>
      (Ok [], if in_transaction c then c else mkConn (is_open c) on None, d)
  | _ =>
      let view := default d (pending c) in
      match exec (foreign_keys c) now s view with
      | Ok (st, answer) =>
          if in_transaction c || is_dml s
          then (Ok answer, mkConn (is_open c) (foreign_keys c) (Some st), d)
          else (Ok answer, c, st)
      | Raise e =>
          (Raise e,
           if is_dml s then mkConn (is_open c) (foreign_keys c) (Some view) else c,
           d)
      end
  end.

(** [conn.execute(s)] *)
Definition execute (h : nat) (s : Statement) : M (list (list value)) :=
  c ← connection h;
  fun w =>
    match run s (clock w) c (disk w) with
    | (r, c', d') => (r, update h c' d' [Executed h (foreign_keys c) s] w)
    end.

(** [conn.commit()] *)
Definition commit (h : nat) : M unit :=
  c ← connection h;
  fun w =>
    (Ok (), update h (mkConn (is_open c) (foreign_keys c) None)
              (default (disk w) (pending c)) [Committed h] w).

(** [conn.rollback()] *)
Definition rollback (h : nat) : M unit :=
  c ← connection h;
  fun w =>
    (Ok (), update h (mkConn (is_open c) (foreign_keys c) None)
              (disk w) [RolledBack h] w).

(** [with conn: body]: the context manager of a sqlite3 connection commits
    when the body returns and rolls back when it raises; it does not close
    the connection. *)
Definition with_ {A} (conn : nat) (body : M A) : M A := fun w =>
  match body w with
  | (Ok a, w') => (commit conn;; ret a) w'
  | (Raise e, w') => (rollback conn;; raise e) w'
  end.

(** [pandas.DataFrame.to_sql(table, conn, if_exists='append', index=False)]:
    a missing table is created from the frame; the rows are inserted one by
    one in a transaction of their own, committed when all went in and rolled
    back when one is refused. *)
Definition frame_spec (df : DataFrame) : TableSpec :=
  mkSpec (map (fun c => column c TEXT) (columns df)) [] [] [].

Definition insert_rows (df : DataFrame) (table : string) (conn : nat) : M unit :=
  for_each (rows df) (fun r => execute conn (INSERT table (columns df) r);; ret ()).

Definition to_sql (df : DataFrame) (table : string) (conn : nat) : M unit :=
  found ← execute conn (SELECT_exists table);
  (match found with
   | [] => execute conn (CREATE_TABLE table (frame_spec df));; ret ()
   | _ => ret ()
   end);;
  match rows df with
  | [] => ret ()
  | _ =>
      fun w =>
        match insert_rows df table conn w with
        | (Ok _, w') => commit conn w'
        | (Raise e, w') => (rollback conn;; raise e) w'
        end
  end.

(** ** [SupplyChainDB] *)

(** Maps table names to their primary key columns so duplicates can be
    dropped before insert. *)
Definition PRIMARY_KEYS : gmap string (list string) :=
  list_to_map
    [ ("vendor", ["vendor_id"]);
      ("product", ["sku_id"]);
      ("warehouse", ["warehouse_id"]);
      ("purchase_order", ["po_id"]);
      ("shipment", ["shipment_id"]);
      ("inventory", ["warehouse_id"; "sku_id"]);
      ("demand", ["date"; "sku_id"]) ].

(** [SupplyChainDB(db_path)]: a fresh object holds no connection. *)
Definition init : M unit := fun w =>
  (Ok (), mkWorld (files w) (disk w) (connections w) None
                  (console w) (journal w) (clock w)).

(** [sqlite3.connect(self.db_path)] and [self.conn = ...]: a new connection,
    with enforcement off as SQLite opens it, is kept in the object, whatever
    was there before. *)
Definition open_connection (w : World) : World :=
  mkWorld (files w) (disk w) (connections w ++ [mkConn true false None])
          (Some (length (connections w))) (console w)
          (journal w ++ [Connected (length (connections w))]) (clock w).

(** [connect]: a new connection is opened, foreign keys are switched on, and
    the connection is returned. *)
Definition connect : M nat := fun w =>
  let h := length (connections w) in
  (execute h (PRAGMA_foreign_keys true);; ret h) (open_connection w).

(** [close]: closes the connection in [self.conn], if there is one. What a
    closed connection had not committed is lost. *)
Definition close : M unit := fun w =>
  match self_conn w with
  | None => (Ok (), w)
  | Some h =>
      match connections w !! h with
      | Some c => (Ok (), update h (mkConn false (foreign_keys c) None) (disk w) [Closed h] w)
      | None => (Ok (), w)
      end
  end.

(** [create_tables] *)
Definition create_tables : M unit :=
  conn ← connect;
  with_ conn
    (for_each schema_script (fun s => execute conn s;; ret ())).

(** A reference query of [fk_filters]: [SELECT q_column FROM q_table;]. *)
Record query := mkQuery { q_column : string; q_table : string }.

Definition row0 (r : list value) : value := default NA (head r).

Definition text (v : value) : string :=
  match v with Str s => s | _ => "" end.

Definition any (mask : list bool) : bool := existsb id mask.
Definition mask_sum (mask : list bool) : nat := length (filter (fun b => b = true) mask).

(** [pd.read_csv(csv_path)] *)
Definition read_csv (csv_path : string) : M DataFrame := fun w =>
  match files w !! csv_path with
  | Some (Csv df) => (Ok df, w)
  | Some Blank => (Raise EmptyDataError, w)
  | None => (Raise (OperationalError "No such file or directory"), w)
  end.

(** [csv_path.exists()] *)
Definition exists_ (csv_path : string) : M bool := fun w =>
  (Ok (bool_decide (is_Some (files w !! csv_path))), w).

(** Lines 192-203 of [load_data_from_csv]: duplicates on the primary key are
    reported and dropped, the first occurrence is kept. *)
Definition deduplicate (table_name : string) (df : DataFrame) : M DataFrame :=
  let pk_subset := PRIMARY_KEYS !! table_name in
  duplicates ← lift (duplicated pk_subset df);
  when (any duplicates)
    (print (FoundDuplicates (mask_sum duplicates) table_name);;
     print (DuplicateValues (take 5 (boolean_index duplicates (rows df)))));;
  match pk_subset with
  | Some ((_ :: _) as pk) =>
      let before_drop := length (rows df) in
      df' ← lift (drop_duplicates pk df);
      let dropped := before_drop - length (rows df') in
      when (negb (dropped =? 0)) (print (RemovedDuplicates dropped table_name pk));;
      ret df'
  | _ => ret df
  end.

(** Lines 213-222: a filter on a column the frame lacks is passed over;
    otherwise the reference query is run and the rows whose value it does
    not return are dropped. *)
Fixpoint filter_foreign_keys (conn : nat) (table_name : string)
    (fk_filters : list (string * query)) (df : DataFrame) : M DataFrame :=
  match fk_filters with
  | [] => ret df
  | (column, q) :: rest =>
      if bool_decide (column ∉ columns df) then
        filter_foreign_keys conn table_name rest df
      else
        answer ← execute conn (SELECT_column (q_column q) (q_table q));
        let allowed := map row0 answer in
        let before := length (rows df) in
        let df' := isin_filter column allowed df in
        let dropped := before - length (rows df') in
        when (negb (dropped =? 0)) (print (RemovedMissingFK dropped table_name column));;
        filter_foreign_keys conn table_name rest df'
  end.

(** Lines 211-231: the body of the [with] block of [load_data_from_csv]. *)
Definition replace_rows (conn : nat) (table_name : string)
    (fk_filters : list (string * query)) (df : DataFrame) : M unit :=
  df ← filter_foreign_keys conn table_name fk_filters df;
  execute conn (DELETE_FROM table_name);;
  commit conn;;
  to_sql df table_name conn;;
  print (Loaded (length (rows df)) table_name);;
  commit conn.

(** [verify_tables] *)
Definition verify_tables : M unit :=
  conn ← connect;
  with_ conn
    (names ← execute conn (SELECT_user_tables true);
     print TableVerification;;
     for_each names (fun row =>
       let table_name := text (row0 row) in
       answer ← execute conn (SELECT_count table_name);
       print (RowCount table_name (row0 (default [] (head answer)))))).

(** Lines 265-281 of [main]: the body of the [with] block that drops the
    tables. *)
Definition drop_tables (conn : nat) : M unit :=
  execute conn (PRAGMA_foreign_keys false);;
  names ← execute conn (SELECT_user_tables false);
  let tables := map (fun row => text (row0 row)) names in
  for_each tables (fun table => execute conn (DROP_TABLE table);; ret ());;
  commit conn;;
  execute conn (PRAGMA_foreign_keys true);;
  ret ().

(** Lines 262-284 of [main], the branch taken with [--recreate]: every user
    table is dropped with enforcement off, then the schema is created. *)
Definition recreate : M unit :=
  print DroppingAndRecreating;;
  conn ← connect;
  with_ conn (drop_tables conn);;
  create_tables.

Section Loader.

(** [pd.to_datetime] on a series: the parsed points in time ([None] for a
    missing value), or no result when the series cannot be parsed. pandas'
    parser is not part of the repository; the loader is modelled for any
    parser. *)
Variable to_datetime : list value -> option (list (option datetime)).

(** Lines 205-209: [df[col] = pd.to_datetime(df[col]).dt.date] for each
    date column the frame has. *)
Fixpoint convert_dates (date_columns : list string) (df : DataFrame) : result DataFrame :=
  match date_columns with
  | [] => Ok df
  | col :: rest =>
      if bool_decide (col ∈ columns df) then
        match to_datetime (series col df) with
        | Some parsed => convert_dates rest (assign col (map dt_date_of parsed) df)
        | None => Raise (DateParseError col)
        end
      else convert_dates rest df
  end.

(** [load_data_from_csv]. [date_columns=None] and [fk_filters=None] are the
    empty list and the empty dictionary: the code only tests them for
    truth. *)
Definition load_data_from_csv (table_name csv_path : string)
    (date_columns : list string) (fk_filters : list (string * query)) : M unit :=
  found ← exists_ csv_path;
  if negb found then print (NotFound csv_path table_name)
  else
    print (Loading table_name csv_path);;
    df ← read_csv csv_path;
    df ← deduplicate table_name df;
    df ← lift (convert_dates date_columns df);
    conn ← connect;
    with_ conn (replace_rows conn table_name fk_filters df).

(** [main] *)
Definition main (recreate_tables : bool) : M unit :=
  init;;
  try_finally
    (try_except
       ((if recreate_tables then recreate
         else print UsingExisting;; create_tables);;
        load_data_from_csv "product" "data/derived/products_data.csv" [] [];;
        load_data_from_csv "warehouse" "data/derived/warehouse_data.csv" [] [];;
        load_data_from_csv "vendor" "data/derived/vendor_data.csv" [] [];;
        load_data_from_csv "purchase_order" "data/derived/purchase_order_data.csv"
          ["po_date"; "promised_delivery_date"] [];;
        load_data_from_csv "inventory" "data/derived/inventory_data.csv" [] [];;
        load_data_from_csv "shipment" "data/derived/shipment_data.csv"
          ["event_timestamp"; "estimated_delivery_date"; "actual_delivery_date"]
          [("order_id", mkQuery "po_id" "purchase_order")];;
        load_data_from_csv "demand" "data/derived/demand_data.csv" ["date"] [];;
        verify_tables;;
        print SetupCompleted)
       (fun e => print (Error e)))
    close.

End Loader.

(** ** [prepare_data.py] *)

(** The functions of the script that choose columns, drop duplicates and
    fill in; [prepare_purchase_order_data] merges two frames on a key whose
    types pandas compares column by column, which the values of this model
    do not carry, and is left out, and [main] with it.
    [drop_duplicates()] without a subset compares whole rows: the subset is
    the column index. *)

(** [df[cols]] with a list of labels: the columns asked for, in the order
    asked; a label the frame lacks is a [KeyError]. *)
Definition select (cols : list string) (df : DataFrame) : result DataFrame :=
  match filter (fun c => c ∉ columns df) cols with
  | [] => Ok (mkDF cols (map (fun r => filter (fun kv => kv.1 ∈ cols) r) (rows df)))
  | missing => Raise (KeyError missing)
  end.

(** [df[c] = v] with a scalar: every row gets the value. *)
Definition assign_scalar (c : string) (v : value) (df : DataFrame) : DataFrame :=
  mkDF (if bool_decide (c ∈ columns df) then columns df else columns df ++ [c])
       (map (fun r => <[c := v]> r) (rows df)).

(** [df.dropna(subset=[c])] *)
Definition dropna (c : string) (df : DataFrame) : DataFrame :=
  mkDF (columns df) (filter (fun r => cell c r ≠ NA) (rows df)).

(** [df[c].fillna(v)] *)
Definition fillna (v : value) (s : list value) : list value :=
  map (fun x => match x with NA => v | _ => x end) s.

Definition augmented : string := "data/processed/supply_chain_augmented.csv".

Section Prepare.

(** [DataFrame.to_csv(path, index=False)] writes the file pandas makes of
    the frame; how pandas lays a frame out as text is not part of the
    repository, and the functions are modelled for any layout. The
    directory of the path is taken to be there, as [main] of the script
    makes it before it calls the functions. *)
Variable to_csv : DataFrame -> csv_file.

Definition write (path : string) (df : DataFrame) : M unit := fun w =>
  (Ok (), mkWorld (<[path := to_csv df]> (files w)) (disk w) (connections w)
                  (self_conn w) (console w) (journal w) (clock w)).

(** [prepare_products_data] *)
Definition prepare_products_data : M unit :=
  df ← read_csv augmented;
  selected ← lift (select ["sku_id"; "product_type"] df);
  products ← lift (drop_duplicates (columns selected) selected);
  write "data/derived/products_data.csv" products.

(** [prepare_warehouse_data] *)
Definition prepare_warehouse_data : M unit :=
  df ← read_csv augmented;
  selected ← lift (select ["warehouse_id"; "location"] df);
  warehouses ← lift (drop_duplicates (columns selected) selected);
  write "data/derived/warehouse_data.csv" warehouses.

(** [prepare_vendor_data] *)
Definition prepare_vendor_data : M unit :=
  df ← read_csv augmented;
  selected ← lift (select ["vendor_id"; "supplier_name"; "defect_rate"; "lead_time_days"] df);
  vendors ← lift (drop_duplicates (columns selected) selected);
  let vendors := assign_scalar "quality_score" (dec 9 2) vendors in
  write "data/derived/vendor_data.csv" vendors.

(** [prepare_inventory_data] *)
Definition prepare_inventory_data : M unit :=
  df ← read_csv augmented;
  selected ← lift (select ["warehouse_id"; "sku_id"; "stock_available"; "on_hand_qty";
                           "in_transit_qty"; "reorder_point"; "safety_stock"] df);
  inventory ← lift (drop_duplicates (columns selected) selected);
  write "data/derived/inventory_data.csv" inventory.

(** [prepare_shipment_data] *)
Definition prepare_shipment_data : M unit :=
  df ← read_csv augmented;
  selected ← lift (select ["shipment_id"; "order_id"; "origin_lat"; "origin_lng";
                           "destination_lat"; "destination_lng"; "status"; "event_timestamp";
                           "estimated_delivery_date"; "actual_delivery_date"; "delay_hours";
                           "shipping_carrier"; "shipping_time_days"; "shipping_cost"] df);
  let shipments := dropna "order_id" selected in
  let shipments :=
    if bool_decide ("status" ∈ columns shipments)
    then assign "status" (fillna (Str "pending") (series "status" shipments)) shipments
    else shipments in
  write "data/derived/shipment_data.csv" shipments.

(** [prepare_demand_data] *)
Definition prepare_demand_data : M unit :=
  df ← read_csv augmented;
  selected ← lift (select ["date"; "sku_id"; "price"; "discount_percent"; "competitor_price";
                           "web_traffic"; "units_sold"] df);
  demand ← lift (drop_duplicates (columns selected) selected);
  write "data/derived/demand_data.csv" demand.

End Prepare.

(** ** A parser for the examples *)

(** ISO 8601 as the extracts carry it: [YYYY-MM-DD], or [YYYY-MM-DD HH:MM:SS]
    with a blank or a [T] between date and time. *)
Definition digit (a : ascii) : option nat :=
  let n := nat_of_ascii a in
  if (48 <=? n) && (n <=? 57) then Some (n - 48) else None.

Fixpoint number (acc : nat) (s : string) : option nat :=
  match s with
  | EmptyString => Some acc
  | String a s' =>
      match digit a with
      | Some d => number (10 * acc + d) s'
      | None => None
      end
  end.

Definition field (from len : nat) (s : string) : option nat :=
  number 0 (substring from len s).

Definition leap (y : nat) : bool :=
  ((y mod 4 =? 0) && negb (y mod 100 =? 0)) || (y mod 400 =? 0).

Definition days_in_month (y m : nat) : nat :=
  match m with
  | 2 => if leap y then 29 else 28
  | 4 | 6 | 9 | 11 => 30
  | _ => 31
  end.

Definition iso_date (s : string) : option date :=
  match field 0 4 s, field 5 2 s, field 8 2 s with
  | Some y, Some m, Some d =>
      if bool_decide (substring 4 1 s = "-" ∧ substring 7 1 s = "-"
                      ∧ 1 ≤ y ∧ 1 ≤ m ≤ 12 ∧ 1 ≤ d ≤ days_in_month y m)
      then Some (mkDate y m d) else None
  | _, _, _ => None
  end.

Definition iso_time (s : string) : option time :=
  match field 11 2 s, field 14 2 s, field 17 2 s with
  | Some h, Some m, Some sec =>
      if bool_decide ((substring 10 1 s = " " ∨ substring 10 1 s = "T")
                      ∧ substring 13 1 s = ":" ∧ substring 16 1 s = ":"
                      ∧ h < 24 ∧ m < 60 ∧ sec < 60)
      then Some (mkTime h m sec) else None
  | _, _, _ => None
  end.

Definition iso_datetime (v : value) : option (option datetime) :=
  match v with
  | NA => Some None
  | Date d => Some (Some (mkDatetime d (mkTime 0 0 0)))
  | Str s =>
      match iso_date s with
      | Some d =>
          if String.length s =? 10 then Some (Some (mkDatetime d (mkTime 0 0 0)))
          else if String.length s =? 19 then
            match iso_time s with
            | Some t => Some (Some (mkDatetime d t))
            | None => None
            end
          else None
      | None => None
      end
  | Num _ => None
  end.

Definition iso_to_datetime (s : list value) : option (list (option datetime)) :=
  mapM iso_datetime s.

(** * The vocabulary of the properties *)

(** Every step of a session on the handle [h] takes the world to one of this
    shape: lines printed, the connection and the committed store replaced,
    events journalled. *)
Definition advance (h : nat) (c : Connection) (d : Store) (out : list Msg)
    (evs : list Event) (w : World) : World :=
  say out (update h c d evs w).

(** The specification's words: of the rows sharing a key the first stays, in
    place, and every later one goes. *)
Inductive KeepFirst `{EqDecision K} (key : gmap string value -> K)
    : list (gmap string value) -> list (gmap string value) -> Prop :=
| keep_first_nil : KeepFirst key [] []
| keep_first_cons r rs kept :
    KeepFirst key (filter (fun r' => key r' ≠ key r) rs) kept ->
    KeepFirst key (r :: rs) (r :: kept).

(** The rows [duplicated_from] leaves unmarked, given the keys seen so far. *)
Definition unmarked (subset : list string) (seen : list (list value))
    (l : list (gmap string value)) : list (gmap string value) :=
  boolean_index (map negb (duplicated_from seen (map (key_of subset) l))) l.

(** The frame [deduplicate] hands on, as a function of the frame it gets. *)
Definition deduplicated (table_name : string) (df : DataFrame) : result DataFrame :=
  match PRIMARY_KEYS !! table_name with
  | Some ((_ :: _) as pk) => drop_duplicates pk df
  | _ => Ok df
  end.

(** The values a reference query returns. *)
Definition column_values (q : query) (st : Store) : option (list value) :=
  match tables st !! q_table q with
  | Some tb =>
      if bool_decide (q_column q ∈ column_names (t_spec tb))
      then Some (map (cell (q_column q)) (t_rows tb)) else None
  | None => None
  end.

(** A row passes the filters when, for every filter on a column the frame
    has, the row has a value in that column and the reference query returns
    it. *)
Definition passes (st : Store) (cols : list string) (fks : list (string * query))
    (r : gmap string value) : Prop :=
  Forall (fun cq => cq.1 ∈ cols ->
                    cell cq.1 r ≠ NA ∧ cell cq.1 r ∈ default [] (column_values cq.2 st)) fks.

#[global] Instance passes_dec st cols fks r : Decision (passes st cols fks r).
Proof. unfold passes. apply _. Defined.

(** The number a line reports as removed for a missing foreign key. *)
Definition fk_removed (m : Msg) : nat :=
  match m with RemovedMissingFK n _ _ => n | _ => 0 end.

Definition is_insert (h : nat) (fk : bool) (t : string) (cols : list string) (e : Event) : Prop :=
  ∃ r, e = Executed h fk (INSERT t cols r).

(** An event of a session on [h] that ran under enforcement. *)
Definition enforced (h : nat) (e : Event) : Prop :=
  match e with
  | Executed h' fk _ => h' = h ∧ fk = true
  | Committed h' | RolledBack h' => h' = h
  | _ => False
  end.

Definition inserts_into (h : nat) (t : string) (e : Event) : Prop :=
  ∃ cols r, e = Executed h true (INSERT t cols r).

(** The world [connect] leaves. *)
Definition connected (w : World) : World :=
  advance (length (connections w)) (mkConn true true None) (disk w) []
          [Executed (length (connections w)) false (PRAGMA_foreign_keys true)]
          (open_connection w).

(** A session that [connect] opened and in which every statement ran under
    enforcement. *)
Definition session_enforced (h : nat) (w w' : World) : Prop :=
  ∃ evs, journal w' = journal w ++ Connected h
                        :: Executed h false (PRAGMA_foreign_keys true) :: evs
         ∧ Forall (enforced h) evs.





(** The rows [rs] inserted into [t] one after the other; the first one
    refused stops the run. *)
Fixpoint insert_all (fk : bool) (now t : string) (cols : list string)
    (rs : list (gmap string value)) (st : Store) : result Store :=
  match rs with
  | [] => Ok st
  | r :: rs' =>
      match exec_insert fk now t cols r st with
      | Ok st' => insert_all fk now t cols rs' st'
      | Raise e => Raise e
      end
  end.

(** What the [with] block of a load makes of the committed store, given the
    frame that is left after the filters: the DELETE is committed on its
    own, the rows go in together or not at all. *)
Definition replaced (now t : string) (df : DataFrame) (st : Store) : result unit * Store :=
  match exec_delete true t st with
  | Raise e => (Raise e, st)
  | Ok st1 =>
      match insert_all true now t (columns df) (rows df) st1 with
      | Ok st2 => (Ok (), st2)
      | Raise e => (Raise e, st1)
      end
  end.

(** Between two states of the tables: the same names with the same
    declarations, and of each table's rows some may have gone, none has
    come and none has changed place. *)
Definition shrinks (ts ts' : gmap string Table) : Prop :=
  ∀ t, match ts !! t, ts' !! t with
       | Some tb, Some tb' => t_spec tb' = t_spec tb ∧ t_rows tb' `sublist_of` t_rows tb
       | None, None => True
       | _, _ => False
       end.

(** A row of a child table that references, through [fk], one of the rows
    [gone] from the parent. *)
Definition references (fk : ForeignKey) (gone : list (gmap string value))
    (r : gmap string value) : Prop :=
  cell (fk_column fk) r ≠ NA ∧ cell (fk_column fk) r ∈ map (cell (fk_key fk)) gone.

(** The constraints a table declares, as far as one row goes: NOT NULL,
    CHECK, and a parent row for every foreign key that is not null. *)
Definition meets_constraints (spec : TableSpec) (ts : gmap string Table)
    (r : gmap string value) : Prop :=
  not_null_ok spec r = true ∧ checks_ok spec r = true ∧ foreign_keys_ok spec ts r = true.

(** No two rows carry the same key, a key with a [NULL] in it apart. *)
Definition keys_distinct (pk : list string) (rs : list (gmap string value)) : Prop :=
  ∀ i j r1 r2,
    i < j -> rs !! i = Some r1 -> rs !! j = Some r2 ->
    NA ∉ key_of pk r2 -> key_of pk r1 ≠ key_of pk r2.





(** Those of the seven tables that the store has are declared as the script
    of [create_tables] declares them. *)
Definition declared_as_scripted (st : Store) : Prop :=
  Forall (fun ts => match tables st !! ts.1 with
                    | Some tb => t_spec tb = ts.2
                    | None => True
                    end) schema.

#[global] Instance declared_as_scripted_dec st : Decision (declared_as_scripted st).
Proof.
  unfold declared_as_scripted. apply Forall_dec. intros [t spec]. simpl.
  destruct (tables st !! t); apply _.
Defined.


Section Preparations.

Variable to_csv : DataFrame -> csv_file.

(** The functions that write the distinct rows of a choice of columns, each
    with the columns it asks for and the file it writes. *)
Definition selections : list (M unit * list string * string) :=
  [ (prepare_products_data to_csv, ["sku_id"; "product_type"],
     "data/derived/products_data.csv");
    (prepare_warehouse_data to_csv, ["warehouse_id"; "location"],
     "data/derived/warehouse_data.csv");
    (prepare_inventory_data to_csv,
     ["warehouse_id"; "sku_id"; "stock_available"; "on_hand_qty";
      "in_transit_qty"; "reorder_point"; "safety_stock"],
     "data/derived/inventory_data.csv");
    (prepare_demand_data to_csv,
     ["date"; "sku_id"; "price"; "discount_percent"; "competitor_price";
      "web_traffic"; "units_sold"],
     "data/derived/demand_data.csv") ].

Definition vendor_columns : list string :=
  ["vendor_id"; "supplier_name"; "defect_rate"; "lead_time_days"].

Definition shipment_columns : list string :=
  ["shipment_id"; "order_id"; "origin_lat"; "origin_lng";
   "destination_lat"; "destination_lng"; "status"; "event_timestamp";
   "estimated_delivery_date"; "actual_delivery_date"; "delay_hours";
   "shipping_carrier"; "shipping_time_days"; "shipping_cost"].

(** All six, each with the columns it needs. *)
Definition preparations : list (M unit * list string) :=
  map (fun '(f, cols, _) => (f, cols)) selections
  ++ [ (prepare_vendor_data to_csv, vendor_columns);
       (prepare_shipment_data to_csv, shipment_columns) ].

End Preparations.

(** A row cut down to the columns asked for. *)
Definition project (cols : list string) (r : gmap string value) : gmap string value :=
  filter (fun kv => kv.1 ∈ cols) r.

(** * Extracts and worlds for the examples *)

Definition row_of (l : list (string * value)) : gmap string value := list_to_map l.

Definition warehouses_1 : DataFrame :=
  mkDF ["warehouse_id"; "location"]
       [ row_of [("warehouse_id", Str "W1"); ("location", Str "Berlin")];
         row_of [("warehouse_id", Str "W1"); ("location", Str "Paris")];
         row_of [("warehouse_id", Str "W2"); ("location", Str "Rome")] ].

Definition warehouses_2 : DataFrame :=
  mkDF ["warehouse_id"; "location"]
       [ row_of [("warehouse_id", Str "W3"); ("location", Str "Oslo")] ].

(** A source with its header line and no record. *)
Definition no_warehouses : DataFrame := mkDF ["warehouse_id"; "location"] [].

Definition products : DataFrame :=
  mkDF ["sku_id"; "product_type"]
       [ row_of [("sku_id", Str "S1"); ("product_type", Str "widget")] ].

Definition vendors : DataFrame :=
  mkDF ["vendor_id"; "supplier_name"; "defect_rate"; "lead_time_days"; "quality_score"]
       [ row_of [("vendor_id", Str "V1"); ("supplier_name", Str "Acme");
                 ("defect_rate", dec 1 50); ("lead_time_days", num 5);
                 ("quality_score", dec 9 2)] ].

(** A vendor with a defect rate of 1.5. *)
Definition vendors_out_of_range : DataFrame :=
  mkDF ["vendor_id"; "supplier_name"; "defect_rate"]
       [ row_of [("vendor_id", Str "V2"); ("supplier_name", Str "Bolt");
                 ("defect_rate", dec 3 2)] ].

Definition purchase_orders : DataFrame :=
  mkDF ["po_id"; "sku_id"; "vendor_id"; "po_date"; "po_qty"; "promised_delivery_date"]
       [ row_of [("po_id", Str "P1"); ("sku_id", Str "S1"); ("vendor_id", Str "V1");
                 ("po_date", Str "2024-01-01"); ("po_qty", num 10);
                 ("promised_delivery_date", Str "2024-01-10")] ].

Definition purchase_orders_undated : DataFrame :=
  mkDF ["po_id"; "sku_id"; "vendor_id"; "po_date"; "po_qty"; "promised_delivery_date"]
       [ row_of [("po_id", Str "P2"); ("sku_id", Str "S1"); ("vendor_id", Str "V1");
                 ("po_date", Str "soon"); ("po_qty", num 10);
                 ("promised_delivery_date", Str "2024-01-10")] ].

(** Two shipments: one for the order P1, one for an order P9 nobody placed. *)
Definition shipments : DataFrame :=
  mkDF ["shipment_id"; "order_id"; "status"; "event_timestamp"; "shipping_carrier"]
       [ row_of [("shipment_id", Str "H1"); ("order_id", Str "P1");
                 ("status", Str "delivered");
                 ("event_timestamp", Str "2024-01-05 10:30:00");
                 ("shipping_carrier", Str "DHL")];
         row_of [("shipment_id", Str "H2"); ("order_id", Str "P9");
                 ("status", Str "pending");
                 ("event_timestamp", Str "2024-01-06 08:00:00");
                 ("shipping_carrier", Str "UPS")] ].

(** The example of the specification: records keyed on [id]. *)
Definition keyed_on_id : DataFrame :=
  mkDF ["id"; "v"]
       [ row_of [("id", num 1); ("v", Str "a")];
         row_of [("id", num 1); ("v", Str "b")];
         row_of [("id", num 2); ("v", Str "c")] ].

Definition example_files : gmap string csv_file :=
  list_to_map
    [ ("w1.csv", Csv warehouses_1);
      ("w2.csv", Csv warehouses_2);
      ("w0.csv", Csv no_warehouses);
      ("products.csv", Csv products);
      ("vendors.csv", Csv vendors);
      ("vendors_out_of_range.csv", Csv vendors_out_of_range);
      ("orders.csv", Csv purchase_orders);
      ("orders_undated.csv", Csv purchase_orders_undated);
      ("shipments.csv", Csv shipments);
      ("data/derived/warehouse_data.csv", Csv warehouses_1);
      ("data/derived/vendor_data.csv", Csv vendors_out_of_range) ].

(** A new database file and no connection yet. *)
Definition w_fresh : World :=
  mkWorld example_files (mkStore ∅ ∅) [] None [] [] "2024-06-01 12:00:00".

Abbreviation load_iso := (load_data_from_csv iso_to_datetime).

Definition w_schema : World := (create_tables w_fresh).2.
Definition w_warehouses_1 : World := (load_iso "warehouse" "w1.csv" [] [] w_schema).2.
Definition w_warehouses_2 : World := (load_iso "warehouse" "w2.csv" [] [] w_warehouses_1).2.
Definition w_products : World := (load_iso "product" "products.csv" [] [] w_schema).2.
Definition w_vendors : World := (load_iso "vendor" "vendors.csv" [] [] w_products).2.
Definition w_vendors_failed : World :=
  (load_iso "vendor" "vendors_out_of_range.csv" [] [] w_vendors).2.
Definition w_orders : World :=
  (load_iso "purchase_order" "orders.csv" ["po_date"; "promised_delivery_date"] [] w_vendors).2.
Definition w_session : World := (connect w_orders).2.
Definition w_empty : World :=
  mkWorld ∅ (mkStore ∅ ∅) [] None [] [] "2024-06-01 12:00:00".

Definition shipment_filters : list (string * query) :=
  [("order_id", mkQuery "po_id" "purchase_order")].


(** The product extract loaded once more, with an order in the database. *)
Definition w_products_again : World := (load_iso "product" "products.csv" [] [] w_orders).2.

Definition orders_table : Table :=
  default (mkTable purchase_order_spec []) (tables (disk w_orders) !! "purchase_order").

(** A frame for a table without a declared key, one row twice. *)
Definition regions : DataFrame :=
  mkDF ["region"] [ row_of [("region", Str "North")];
                    row_of [("region", Str "North")];
                    row_of [("region", Str "South")] ].

(** A file without any column, and a warehouse extract without its key. *)
Definition w_unusable : World :=
  mkWorld (list_to_map [ ("blank.csv", Blank);
                         ("unkeyed.csv", Csv (mkDF ["location"]
                                                [row_of [("location", Str "Oslo")]])) ])
          (disk w_schema) [] None [] [] "2024-06-01 12:00:00".


(** A connection with a DELETE it has not committed, held by the object. *)
Definition w_uncommitted : World :=
  (execute 0 (DELETE_FROM "product")
     (mkWorld ∅ (disk w_orders) [mkConn true true None] (Some 0) [] []
              "2024-06-02 09:00:00")).2.

(** A source for the preparation: two lines of one product and vendor, and
    a third line without an order. *)
Definition source_row (order status : value) (traffic : Z) : gmap string value :=
  row_of [ ("sku_id", Str "S1"); ("product_type", Str "widget");
           ("warehouse_id", Str "W1"); ("location", Str "Lyon");
           ("vendor_id", Str "V1"); ("supplier_name", Str "Acme");
           ("defect_rate", dec 1 50); ("lead_time_days", num 5);
           ("shipment_id", Str "H1"); ("order_id", order);
           ("origin_lat", dec 457 10); ("origin_lng", dec 48 10);
           ("destination_lat", dec 599 10); ("destination_lng", dec 107 10);
           ("status", status); ("event_timestamp", Str "2024-01-05 10:30:00");
           ("estimated_delivery_date", Str "2024-01-09");
           ("actual_delivery_date", NA); ("delay_hours", num 0);
           ("shipping_carrier", Str "DHL"); ("shipping_time_days", num 4);
           ("shipping_cost", dec 25 2); ("web_traffic", num traffic) ].

Definition source : DataFrame :=
  mkDF [ "sku_id"; "product_type"; "warehouse_id"; "location"; "vendor_id";
         "supplier_name"; "defect_rate"; "lead_time_days"; "shipment_id"; "order_id";
         "origin_lat"; "origin_lng"; "destination_lat"; "destination_lng"; "status";
         "event_timestamp"; "estimated_delivery_date"; "actual_delivery_date";
         "delay_hours"; "shipping_carrier"; "shipping_time_days"; "shipping_cost";
         "web_traffic" ]
       [ source_row (Str "P1") (Str "delivered") 100;
         source_row (Str "P1") NA 120;
         source_row NA (Str "lost") 90 ].

Definition w_source : World :=
  mkWorld {[ augmented := Csv source ]} (mkStore ∅ ∅) [] None [] [] "2024-06-01 12:00:00".

(** * Properties *)

(** ** Worlds *)

Lemma advance_id h c w :
  connections w !! h = Some c -> advance h c (disk w) [] [] w = w.
Proof.
  intros Hc. destruct w as [f d cs sc co jo cl]. unfold advance, say, update. simpl in *.
  rewrite list_insert_id by done. by rewrite !app_nil_r.
Qed.

Lemma advance_advance h c1 d1 o1 e1 c2 d2 o2 e2 w :
  advance h c2 d2 o2 e2 (advance h c1 d1 o1 e1 w)
  = advance h c2 d2 (o1 ++ o2) (e1 ++ e2) w.
Proof.
  unfold advance, say, update. simpl.
  by rewrite list_insert_insert_eq, !app_assoc.
Qed.

Lemma advance_session h c d out evs w c0 :
  connections w !! h = Some c0 -> connections (advance h c d out evs w) !! h = Some c.
Proof.
  intros Hc. simpl. apply list_lookup_insert_eq. by eapply lookup_lt_Some.
Qed.

Lemma say_advance h c w out :
  connections w !! h = Some c -> say out w = advance h c (disk w) out [] w.
Proof.
  intros Hc. destruct w as [f d cs sc co jo cl]. unfold advance, say, update. simpl in *.
  rewrite list_insert_id by done. by rewrite !app_nil_r.
Qed.

Lemma update_advance h c d evs w : update h c d evs w = advance h c d [] evs w.
Proof. unfold advance, say. simpl. by rewrite app_nil_r. Qed.

(** ** The primitives of a session *)

Lemma bind_ok {A B} (m : M A) (f : A -> M B) w a w' :
  m w = (Ok a, w') -> bind m f w = f a w'.
Proof. unfold bind. by intros ->. Qed.

Lemma bind_raise {A B} (m : M A) (f : A -> M B) w e w' :
  m w = (Raise e, w') -> bind m f w = (Raise e, w').
Proof. unfold bind. by intros ->. Qed.

Lemma bind_void {A B} (m : M A) (k : unit -> M B) w :
  bind (bind m (fun _ => ret ())) k w = bind m (fun _ => k ()) w.
Proof. unfold bind, ret. by destruct (m w) as [[a|e] w']. Qed.

Lemma bind_ext_on {A B} (m : M A) (f g : A -> M B) w :
  (∀ a w', m w = (Ok a, w') -> f a w' = g a w') -> bind m f w = bind m g w.
Proof. unfold bind. destruct (m w) as [[a|e] w']; [|done]. intros H. by apply H. Qed.

Lemma connection_eq h c w :
  connections w !! h = Some c -> is_open c = true -> connection h w = (Ok c, w).
Proof. unfold connection. by intros -> ->. Qed.

Lemma execute_eq h s c w :
  connections w !! h = Some c -> is_open c = true ->
  execute h s w =
    (fst (fst (run s (clock w) c (disk w))),
     advance h (snd (fst (run s (clock w) c (disk w))))
               (snd (run s (clock w) c (disk w)))
               [] [Executed h (foreign_keys c) s] w).
Proof.
  intros Hc Ho. unfold execute. erewrite bind_ok by by apply connection_eq.
  destruct (run _ _ _ _) as [[r c'] d']. simpl. by rewrite update_advance.
Qed.

Lemma commit_eq h c w :
  connections w !! h = Some c -> is_open c = true ->
  commit h w =
    (Ok (), advance h (mkConn true (foreign_keys c) None)
              (default (disk w) (pending c)) [] [Committed h] w).
Proof.
  intros Hc Ho. unfold commit. erewrite bind_ok by by apply connection_eq.
  by rewrite Ho, update_advance.
Qed.

Lemma rollback_eq h c w :
  connections w !! h = Some c -> is_open c = true ->
  rollback h w =
    (Ok (), advance h (mkConn true (foreign_keys c) None) (disk w) [] [RolledBack h] w).
Proof.
  intros Hc Ho. unfold rollback. erewrite bind_ok by by apply connection_eq.
  by rewrite Ho, update_advance.
Qed.

Lemma print_eq h c m w :
  connections w !! h = Some c -> print m w = (Ok (), advance h c (disk w) [m] [] w).
Proof. intros Hc. unfold print. by erewrite say_advance. Qed.

(** [connect] opens the connection number [length (connections w)] and
    hands it out with enforcement on. *)
Lemma connect_eq w :
  connect w =
    (Ok (length (connections w)),
     advance (length (connections w)) (mkConn true true None) (disk w) []
             [Executed (length (connections w)) false (PRAGMA_foreign_keys true)]
             (open_connection w)).
Proof.
  unfold connect.
  assert (Hc : connections (open_connection w) !! length (connections w)
               = Some (mkConn true false None)).
  { simpl. by rewrite list_lookup_middle. }
  unfold bind. by rewrite (execute_eq _ _ _ _ Hc eq_refl).
Qed.

Lemma open_connection_session w :
  connections (open_connection w) !! length (connections w) = Some (mkConn true false None).
Proof. simpl. by rewrite list_lookup_middle. Qed.

(** ** Keep-first deduplication *)

Lemma length_duplicated_from seen ks : length (duplicated_from seen ks) = length ks.
Proof. revert seen. induction ks as [|k ks IH]; intros seen; simpl; [done|]. by rewrite IH. Qed.

Lemma unmarked_cons subset seen r l :
  unmarked subset seen (r :: l) =
    if bool_decide (key_of subset r ∈ seen) then unmarked subset (key_of subset r :: seen) l
    else r :: unmarked subset (key_of subset r :: seen) l.
Proof. unfold unmarked. simpl. by case_bool_decide. Qed.

(** Only the keys that occur in the list matter among those seen. *)
Lemma unmarked_seen subset s s' l :
  (∀ r, r ∈ l -> key_of subset r ∈ s ↔ key_of subset r ∈ s') ->
  unmarked subset s l = unmarked subset s' l.
Proof.
  revert s s'. induction l as [|x l IH]; intros s s' Hs; [done|].
  rewrite !unmarked_cons.
  assert (Hx : key_of subset x ∈ s ↔ key_of subset x ∈ s') by (apply Hs; left).
  assert (Hl : unmarked subset (key_of subset x :: s) l
               = unmarked subset (key_of subset x :: s') l).
  { apply IH. intros r Hr. rewrite !elem_of_cons.
    specialize (Hs r (list_elem_of_further _ _ _ Hr)). tauto. }
  repeat case_bool_decide; try tauto; by rewrite Hl.
Qed.

Lemma unmarked_filter subset s1 s2 l :
  unmarked subset (s1 ++ s2) l
  = unmarked subset s1 (filter (fun r => key_of subset r ∉ s2) l).
Proof.
  revert s1. induction l as [|x l IH]; intros s1; [done|].
  rewrite unmarked_cons, filter_cons.
  change (key_of subset x :: s1 ++ s2)%list with ((key_of subset x :: s1) ++ s2)%list.
  rewrite IH. case_decide as Hx2.
  - rewrite unmarked_cons. destruct (decide (key_of subset x ∈ s1)).
    + by rewrite !bool_decide_eq_true_2 by (rewrite ?elem_of_app; tauto).
    + by rewrite !bool_decide_eq_false_2 by (rewrite ?elem_of_app; tauto).
  - assert (key_of subset x ∈ s2) by (destruct (decide (key_of subset x ∈ s2)); tauto).
    rewrite bool_decide_eq_true_2 by (apply elem_of_app; by right).
    apply unmarked_seen. intros r Hr. apply list_elem_of_filter in Hr as [Hr2 _].
    rewrite elem_of_cons. split; [|tauto]. intros [Heq|]; [|done].
    by rewrite Heq in Hr2.
Qed.

Lemma unmarked_length subset seen l :
  length (unmarked subset seen l)
  + mask_sum (duplicated_from seen (map (key_of subset) l)) = length l.
Proof.
  revert seen. induction l as [|x l IH]; intros seen; [done|].
  rewrite unmarked_cons. simpl. unfold mask_sum in *. rewrite filter_cons.
  specialize (IH (key_of subset x :: seen)).
  case_bool_decide; case_decide; try done; simpl; lia.
Qed.

Lemma unmarked_keep_first subset l :
  KeepFirst (key_of subset) l (unmarked subset [] l).
Proof.
  remember (length l) as n eqn:Hn. revert l Hn.
  induction n as [n IH] using lt_wf_ind. intros [|r rs] Hn.
  - constructor.
  - rewrite unmarked_cons. rewrite bool_decide_eq_false_2 by apply not_elem_of_nil.
    constructor.
    change [key_of subset r] with ([] ++ [key_of subset r])%list.
    rewrite unmarked_filter.
    rewrite (list_filter_iff (fun r' => key_of subset r' ∉ [key_of subset r])
                             (fun r' => key_of subset r' ≠ key_of subset r))
      by (intros x; by rewrite list_elem_of_singleton).
    eapply IH; [|done]. subst n. simpl.
    pose proof (length_filter (fun r' => key_of subset r' ≠ key_of subset r) rs). lia.
Qed.

(** [KeepFirst] determines the rows kept. *)
Lemma KeepFirst_unique `{EqDecision K} (key : gmap string value -> K) l k1 k2 :
  KeepFirst key l k1 -> KeepFirst key l k2 -> k1 = k2.
Proof.
  intros H1. revert k2. induction H1 as [|r rs kept _ IH]; intros k2 H2.
  - by inversion H2.
  - inversion H2; subst. f_equal. by apply IH.
Qed.

Lemma any_mask_sum mask : any mask = negb (mask_sum mask =? 0).
Proof.
  unfold any, mask_sum. induction mask as [|[] mask IH]; simpl; [done|done|].
  rewrite filter_cons. case_decide; [done|]. done.
Qed.

Lemma say_nil w : say [] w = w.
Proof. destruct w. unfold say. simpl. by rewrite app_nil_r. Qed.

Lemma say_say o1 o2 w : say o2 (say o1 w) = say (o1 ++ o2) w.
Proof. unfold say. simpl. by rewrite app_assoc. Qed.

Lemma PRIMARY_KEYS_nonempty t K : PRIMARY_KEYS !! t = Some K -> K ≠ [].
Proof.
  unfold PRIMARY_KEYS. intros H%elem_of_list_to_map_2.
  repeat (apply elem_of_cons in H as [H|H]; [by inversion H|]).
  by apply elem_of_nil in H.
Qed.

Lemma duplicated_all_columns df :
  duplicated None df = Ok (duplicated_from [] (map (key_of (columns df)) (rows df))).
Proof.
  unfold duplicated. simpl.
  replace (filter (fun c => c ∉ columns df) (columns df)) with (@nil string); [done|].
  symmetry. apply elem_of_nil_inv. intros c [Hc ?]%list_elem_of_filter. done.
Qed.

(** What [deduplicate] does on a table with a primary key whose columns the
    frame has. *)
Lemma deduplicate_keyed t K df w :
  PRIMARY_KEYS !! t = Some K -> K ⊆ columns df ->
  let mask := duplicated_from [] (map (key_of K) (rows df)) in
  let kept := unmarked K [] (rows df) in
  let n := length (rows df) - length kept in
  deduplicate t df w =
    (Ok (mkDF (columns df) kept),
     say (if n =? 0 then []
          else [FoundDuplicates n t;
                DuplicateValues (take 5 (boolean_index mask (rows df)));
                RemovedDuplicates n t K]) w).
Proof.
  intros HK Hsub mask kept n.
  pose proof (PRIMARY_KEYS_nonempty _ _ HK) as Hne.
  assert (Hdup : duplicated (Some K) df = Ok mask).
  { unfold duplicated. simpl.
    replace (filter (fun c => c ∉ columns df) K) with (@nil string); [done|].
    symmetry. apply elem_of_nil_inv. intros c [Hc ?]%list_elem_of_filter. apply Hc. auto. }
  assert (Hn : mask_sum mask = n).
  { pose proof (unmarked_length K [] (rows df)). fold mask kept in H. lia. }
  unfold deduplicate. rewrite HK. unfold bind at 1. unfold lift at 1. rewrite Hdup.
  unfold drop_duplicates. rewrite Hdup. simpl rows. fold kept. fold n.
  rewrite any_mask_sum, Hn.
  destruct K as [|c K]; [done|].
  unfold bind, when, lift, print, ret; simpl.
  change (boolean_index (map negb mask) (rows df)) with kept.
  change (length (rows df) - length kept) with n.
  destruct (n =? 0) eqn:E; simpl.
  - by rewrite say_nil.
  - by rewrite !say_say.
Qed.

Lemma deduplicate_spec t df w :
  ∃ out, deduplicate t df w = (deduplicated t df, say out w).
Proof.
  unfold deduplicate, deduplicated.
  destruct (PRIMARY_KEYS !! t) as [[|c K]|] eqn:HK.
  - by apply PRIMARY_KEYS_nonempty in HK.
  - unfold drop_duplicates.
    destruct (duplicated (Some (c :: K)) df) as [mask|e] eqn:Hdup.
    + unfold bind, when, lift, print, ret.
      destruct (any mask);
        destruct (negb (_ =? 0)); rewrite ?say_say; eauto.
      exists []. by rewrite say_nil.
    + unfold bind, lift. exists []. by rewrite say_nil.
  - rewrite duplicated_all_columns. unfold bind, when, lift, print, ret.
    destruct (any _); rewrite ?say_say; eauto. exists []. by rewrite say_nil.
Qed.

Lemma deduplicated_columns t df df' : deduplicated t df = Ok df' -> columns df' = columns df.
Proof.
  unfold deduplicated, drop_duplicates. intros H.
  destruct (PRIMARY_KEYS !! t) as [[|c K]|]; try by inversion H.
  destruct (duplicated _ _); by inversion H.
Qed.

(** ** Assignment to a column *)

Lemma cell_insert c v r : cell c (<[c := v]> r) = v.
Proof. unfold cell. by rewrite lookup_insert_eq. Qed.

Lemma cell_insert_ne c c' v r : c ≠ c' -> cell c' (<[c := v]> r) = cell c' r.
Proof. intros. unfold cell. by rewrite lookup_insert_ne. Qed.

Lemma length_assign c s df : length (rows (assign c s df)) = length (rows df).
Proof. simpl. apply length_imap. Qed.

Lemma columns_assign c s df : c ∈ columns df -> columns (assign c s df) = columns df.
Proof. intros. simpl. by rewrite bool_decide_eq_true_2. Qed.

Lemma assign_lookup c s df i r' :
  rows (assign c s df) !! i = Some r' ->
  ∃ r, rows df !! i = Some r ∧ r' = <[c := default NA (s !! i)]> r.
Proof.
  simpl. rewrite list_lookup_imap. destruct (rows df !! i); simpl; [|done].
  intros [= <-]. eauto.
Qed.

Lemma series_assign_ne c c' s df : c ≠ c' -> series c' (assign c s df) = series c' df.
Proof.
  intros Hne. unfold series. apply list_eq. intros i.
  rewrite !list_lookup_fmap. simpl. rewrite list_lookup_imap.
  destruct (rows df !! i); simpl; [|done]. by rewrite cell_insert_ne.
Qed.

(** ** The store *)

(** A cascade only ever removes rows: a table that is empty stays empty. *)
Lemma cascade_empty fuel parent gone ts t spec :
  ts !! t = Some (mkTable spec []) ->
  cascade fuel parent gone ts !! t = Some (mkTable spec []).
Proof.
  revert parent gone ts. induction fuel as [|fuel IH]; intros parent gone ts Ht; [done|].
  simpl. generalize (child_links parent ts). intros links.
  revert ts Ht. induction links as [|[child fk] links IHl]; intros ts Ht; [done|].
  simpl. apply IHl.
  destruct (ts !! child) as [tb|] eqn:Hchild; [|done].
  destruct (filter _ (t_rows tb)) as [|d dead] eqn:Hdead; [done|].
  apply IH. destruct (decide (child = t)) as [->|Hne].
  - rewrite Ht in Hchild. injection Hchild as <-. simpl in Hdead. by rewrite filter_nil in Hdead.
  - by rewrite lookup_insert_ne.
Qed.

Lemma clear_table_lookup fk t tb ts :
  clear_table fk t tb ts !! t = Some (mkTable (t_spec tb) []).
Proof.
  unfold clear_table. destruct fk.
  - apply cascade_empty. by rewrite lookup_insert_eq.
  - by rewrite lookup_insert_eq.
Qed.

Lemma exec_delete_ok fk t st st' :
  exec_delete fk t st = Ok st' ->
  ∃ tb, tables st !! t = Some tb ∧ tables st' !! t = Some (mkTable (t_spec tb) []).
Proof.
  unfold exec_delete. destruct (tables st !! t) as [tb|]; [|done].
  intros [= <-]. exists tb. split; [done|]. apply clear_table_lookup.
Qed.

Lemma exec_delete_raise fk t st e :
  exec_delete fk t st = Raise e -> tables st !! t = None.
Proof. unfold exec_delete. by destruct (tables st !! t). Qed.

Lemma exec_insert_ok fk now t cols r st st' :
  exec_insert fk now t cols r st = Ok st' ->
  ∃ tb, tables st !! t = Some tb
        ∧ tables st' !! t
          = Some (mkTable (t_spec tb) (t_rows tb ++ [new_row (t_spec tb) now cols r])).
Proof.
  unfold exec_insert. destruct (tables st !! t) as [tb|]; [|done].
  destruct (filter _ cols); [|done].
  repeat (match goal with |- context [if ?b then _ else _] => destruct b end; [done|]).
  intros [= <-]. exists tb. split; [done|]. simpl. by rewrite lookup_insert_eq.
Qed.

Lemma run_select_column a b now c d :
  run (SELECT_column a b) now c d =
    (match column_values (mkQuery a b) (default d (pending c)) with
     | Some vs => Ok (map (fun v => [v]) vs)
     | None =>
         Raise (match tables (default d (pending c)) !! b with
                | Some _ => OperationalError ("no such column: " +:+ a)
                | None => OperationalError ("no such table: " +:+ b)
                end)
     end, c, d).
Proof.
  unfold run, column_values. simpl.
  destruct c as [o f [p|]]; simpl.
  - destruct (tables p !! b) as [tb|]; [|done].
    case_bool_decide; [|done]. simpl. by rewrite map_map.
  - destruct (tables d !! b) as [tb|]; [|done].
    case_bool_decide; [|done]. simpl. by rewrite map_map.
Qed.

(** ** Referential filtering *)

Lemma filter_all {A} (P : A -> Prop) `{∀ x, Decision (P x)} (l : list A) :
  (∀ x, x ∈ l -> P x) -> filter P l = l.
Proof.
  induction l as [|x l IH]; intros HP; [done|].
  rewrite filter_cons, decide_True by (apply HP; left).
  f_equal. apply IH. intros y Hy. apply HP. by right.
Qed.

Lemma filter_foreign_keys_spec h t fks :
  ∀ df w c,
    connections w !! h = Some c -> is_open c = true ->
    ∃ r out evs,
      filter_foreign_keys h t fks df w = (r, advance h c (disk w) out evs w)
      ∧ Forall (fun e => ∃ q, e = Executed h (foreign_keys c)
                                   (SELECT_column (q_column q) (q_table q))) evs
      ∧ Forall (fun m => ∃ n col q, m = RemovedMissingFK (S n) t col
                                    ∧ (col, q) ∈ fks ∧ col ∈ columns df) out
      ∧ (∀ df', r = Ok df' ->
           columns df' = columns df
           ∧ rows df' = filter (passes (default (disk w) (pending c)) (columns df) fks) (rows df)
           ∧ sum_list_with fk_removed out = length (rows df) - length (rows df'))
      ∧ ((∀ col q, (col, q) ∈ fks -> col ∈ columns df ->
            is_Some (column_values q (default (disk w) (pending c)))) ->
         ∃ df', r = Ok df').
Proof.
  induction fks as [|[col q] fks IH]; intros df w c Hc Ho.
  - exists (Ok df), [], []. simpl. unfold ret. rewrite (advance_id _ _ _ Hc).
    split; [done|]. split; [done|]. split; [done|]. split; [|eauto].
    intros df' [= <-]. split; [done|]. split; [|simpl; lia].
    symmetry. apply filter_all. intros. constructor.
  - simpl. case_bool_decide as Hcol.
    + destruct (IH df w c Hc Ho) as (r & out & evs & Heq & Hevs & Hout & Hok & Htot).
      exists r, out, evs. split; [done|]. split; [done|]. split; [|split].
      * eapply Forall_impl; [exact Hout|]. intros m (n & col' & q' & -> & ? & ?).
        exists n, col', q'. split; [done|]. split; [by right|done].
      * intros df' Hr. destruct (Hok df' Hr) as (Hcols & Hrows & Hsum).
        split; [done|]. split; [|done]. rewrite Hrows. apply list_filter_iff.
        intros x. unfold passes. rewrite Forall_cons. simpl. tauto.
      * intros Hans. apply Htot. intros col' q' ? ?. apply (Hans col' q'); [by right|done].
    + assert (Hin : col ∈ columns df) by (destruct (decide (col ∈ columns df)); tauto).
      unfold bind at 1. rewrite (execute_eq _ _ _ _ Hc Ho), run_select_column. simpl.
      destruct q as [qc qt]. simpl.
      destruct (column_values (mkQuery qc qt) _) as [vs|] eqn:Hvs.
      * simpl. rewrite map_map. simpl. rewrite map_id.
        set (df1 := isin_filter col vs df).
        change (filter (fun r0 => cell col r0 ≠ NA ∧ cell col r0 ∈ vs) (rows df))
          with (rows df1).
        set (w1 := advance h c (disk w) [] _ w).
        assert (Hc1 : connections w1 !! h = Some c) by by eapply advance_session.
        assert (Hw2 : ∃ o1, when (negb (length (rows df) - length (rows df1) =? 0))
                              (print (RemovedMissingFK (length (rows df) - length (rows df1))
                                                       t col)) w1
                            = (Ok (), advance h c (disk w1) o1 [] w1)
                            ∧ sum_list_with fk_removed o1
                              = length (rows df) - length (rows df1)
                            ∧ Forall (fun m => ∃ n, m = RemovedMissingFK (S n) t col) o1).
        { destruct (length (rows df) - length (rows df1)) as [|n] eqn:Hn; simpl.
          - exists []. unfold ret. split; [|done]. f_equal. symmetry.
            exact (advance_id _ _ _ Hc1).
          - exists [RemovedMissingFK (S n) t col]. rewrite (print_eq _ _ _ _ Hc1).
            split; [done|]. split; [simpl; lia|]. repeat constructor. by exists n. }
        destruct Hw2 as (o1 & Hw2 & Hsum1 & Ho1).
        unfold bind. rewrite Hw2. subst w1. rewrite advance_advance. simpl.
        set (w2 := advance h c (disk w) _ _ w).
        assert (Hc2 : connections w2 !! h = Some c) by by eapply advance_session.
        destruct (IH df1 w2 c Hc2 Ho) as (r & out & evs & Heq & Hevs & Hout & Hok & Htot).
        rewrite Heq. subst w2. rewrite advance_advance. simpl.
        eexists r, _, _. split; [reflexivity|]. split; [|split; [|split]].
        -- constructor; [by exists (mkQuery qc qt)|done].
        -- apply Forall_app. split.
           ++ eapply Forall_impl; [exact Ho1|]. intros m [n ->].
              exists n, col, (mkQuery qc qt). split; [done|]. split; [by left|done].
           ++ eapply Forall_impl; [exact Hout|]. intros m (n & col' & q' & -> & ? & ?).
              exists n, col', q'. split; [done|]. split; [by right|done].
        -- intros df' Hr. destruct (Hok df' Hr) as (Hcols & Hrows & Hsum).
           split; [done|]. split.
           ++ rewrite Hrows. simpl. rewrite list_filter_filter.
              apply list_filter_iff. intros x. unfold passes. rewrite Forall_cons. simpl.
              rewrite Hvs. simpl. tauto.
           ++ rewrite sum_list_with_app.
              rewrite Hsum, Hsum1.
              assert (length (rows df') ≤ length (rows df1))
                by (rewrite Hrows; apply length_filter).
              assert (length (rows df1) ≤ length (rows df)) by apply length_filter.
              lia.
        -- intros Hans. apply Htot. intros col' q' ? ?. apply (Hans col' q'); [by right|done].
      * simpl. eexists _, [], _. split; [reflexivity|]. split; [|split; [|split]].
        -- constructor; [by exists (mkQuery qc qt)|done].
        -- done.
        -- done.
        -- intros Hans. destruct (Hans col (mkQuery qc qt)) as [vs Hvs']; [by left|done|].
           simpl in Hvs'. by rewrite Hvs in Hvs'.
Qed.

(** ** Inserting the frame *)

Lemma run_insert t cols r now c d :
  run (INSERT t cols r) now c d =
    match exec_insert (foreign_keys c) now t cols r (default d (pending c)) with
    | Ok st => (Ok [], mkConn (is_open c) (foreign_keys c) (Some st), d)
    | Raise e =>
        (Raise e, mkConn (is_open c) (foreign_keys c) (Some (default d (pending c))), d)
    end.
Proof.
  unfold run. simpl. destruct (exec_insert _ _ _ _ _ _); [|done].
  by rewrite orb_true_r.
Qed.

Lemma insert_rows_spec h t cols :
  ∀ rs w c,
    connections w !! h = Some c -> is_open c = true ->
    ∃ r c' evs,
      for_each rs (fun r => execute h (INSERT t cols r);; ret ()) w
      = (r, advance h c' (disk w) [] evs w)
      ∧ is_open c' = true ∧ foreign_keys c' = foreign_keys c
      ∧ Forall (is_insert h (foreign_keys c) t cols) evs
      ∧ (rs ≠ [] -> evs ≠ [])
      ∧ (r = Ok () -> ∀ tb,
           tables (default (disk w) (pending c)) !! t = Some tb ->
           tables (default (disk w) (pending c')) !! t
           = Some (mkTable (t_spec tb)
                     (t_rows tb ++ map (new_row (t_spec tb) (clock w) cols) rs))).
Proof.
  induction rs as [|x rs IH]; intros w c Hc Ho.
  - exists (Ok ()), c, []. simpl. unfold ret. rewrite (advance_id _ _ _ Hc).
    split; [done|]. split; [done|]. split; [done|]. split; [done|]. split; [done|].
    intros _ tb ->. rewrite app_nil_r. by destruct tb.
  - simpl. rewrite bind_void. unfold bind at 1.
    rewrite (execute_eq _ _ _ _ Hc Ho), run_insert.
    destruct (exec_insert _ _ _ _ _ _) as [st|e] eqn:Hins; simpl.
    + set (c1 := mkConn (is_open c) (foreign_keys c) (Some st)).
      set (w1 := advance h c1 (disk w) [] _ w).
      assert (Hc1 : connections w1 !! h = Some c1) by by eapply advance_session.
      destruct (IH w1 c1 Hc1 Ho) as (r & c' & evs & Heq & Ho' & Hfk & Hevs & _ & Hok).
      rewrite Heq. subst w1. rewrite advance_advance. simpl.
      eexists r, c', _. split; [reflexivity|]. split; [done|]. split; [done|].
      split; [|split; [done|]].
      * constructor; [by exists x|done].
      * intros Hr tb Htb. apply exec_insert_ok in Hins as (tb0 & Htb0 & Hst).
        rewrite Htb in Htb0. injection Htb0 as <-.
        pose proof (Hok Hr _ Hst) as Hfin. simpl in Hfin. rewrite Hfin.
        by rewrite <- app_assoc.
    + eexists (Raise e), _, _. split; [reflexivity|]. split; [done|]. split; [done|].
      split; [|split; [done|done]].
      repeat constructor. by exists x.
Qed.

Lemma to_sql_spec h t df w tb :
  connections w !! h = Some (mkConn true true None) ->
  tables (disk w) !! t = Some tb ->
  ∃ r d' evs,
    to_sql df t h w = (r, advance h (mkConn true true None) d' [] evs w)
    ∧ Forall (enforced h) evs
    ∧ (r = Ok () ->
         tables d' !! t
         = Some (mkTable (t_spec tb)
                   (t_rows tb ++ map (new_row (t_spec tb) (clock w) (columns df)) (rows df))))
    ∧ (∀ e, r = Raise e -> d' = disk w ∧ Exists (inserts_into h t) evs)
    ∧ (r = Ok () -> rows df = [] -> ¬ Exists (inserts_into h t) evs).
Proof.
  intros Hc Htb. unfold to_sql. unfold bind at 1.
  rewrite (execute_eq _ _ _ _ Hc eq_refl). unfold run. simpl. rewrite Htb. simpl.
  unfold bind at 1. unfold ret at 1.
  set (w1 := advance h _ (disk w) [] _ w).
  assert (Hc1 : connections w1 !! h = Some (mkConn true true None)) by by eapply advance_session.
  destruct (rows df) as [|x rs] eqn:Hrows.
  - exists (Ok ()), (disk w), [Executed h true (SELECT_exists t)].
    unfold ret. split; [done|]. split; [by repeat constructor|]. split; [|split].
    + intros _. rewrite Htb, app_nil_r. by destruct tb.
    + done.
    + intros _ _ [(? & ? & [=])| H%Exists_nil]%Exists_cons. done.
  - rewrite <- Hrows. unfold insert_rows.
    destruct (insert_rows_spec h t (columns df) (rows df) w1 _ Hc1 eq_refl)
      as (r & c' & evs & Heq & Ho' & Hfk & Hevs & Hne & Hok).
    rewrite Heq. subst w1. rewrite advance_advance. simpl.
    set (w2 := advance h c' (disk w) [] _ w).
    assert (Hc2 : connections w2 !! h = Some c') by by eapply advance_session.
    assert (Henf : Forall (enforced h) evs).
    { eapply Forall_impl; [exact Hevs|]. by intros e [r0 ->]. }
    destruct r as [[]|e].
    + rewrite (commit_eq _ _ _ Hc2 Ho'). subst w2. rewrite advance_advance, Hfk. simpl.
      eexists (Ok ()), _, _. split; [reflexivity|]. split; [|split; [|split]].
      * constructor; [done|]. apply Forall_app. split; [done|]. by repeat constructor.
      * intros _. by apply Hok.
      * done.
      * intros _ Hnil. by rewrite Hnil in Hrows.
    + unfold bind. rewrite (rollback_eq _ _ _ Hc2 Ho'). unfold raise.
      subst w2. rewrite advance_advance, Hfk. simpl.
      eexists (Raise e), _, _. split; [reflexivity|]. split; [|split; [|split]].
      * constructor; [done|]. apply Forall_app. split; [done|]. by repeat constructor.
      * done.
      * intros e' _. split; [done|]. apply Exists_cons_tl, Exists_app. left.
        destruct evs as [|ev evs]; [exfalso; apply Hne; [by rewrite Hrows|done]|].
        apply Exists_cons_hd. apply Forall_cons in Hevs as [[r0 ->] _].
        by exists (columns df), r0.
      * done.
Qed.

(** ** Replacing the rows of a table *)

Lemma run_delete t now c d :
  run (DELETE_FROM t) now c d =
    match exec_delete (foreign_keys c) t (default d (pending c)) with
    | Ok st => (Ok [], mkConn (is_open c) (foreign_keys c) (Some st), d)
    | Raise e =>
        (Raise e, mkConn (is_open c) (foreign_keys c) (Some (default d (pending c))), d)
    end.
Proof.
  unfold run. simpl. destruct (exec_delete _ _ _); [|done].
  by rewrite orb_true_r.
Qed.

Lemma selects_not_inserts h fk t evs :
  Forall (fun e => ∃ q, e = Executed h fk (SELECT_column (q_column q) (q_table q))) evs ->
  ¬ Exists (inserts_into h t) evs.
Proof.
  intros Hsel Hex. apply Exists_exists in Hex as (e & He & cols & r & ->).
  rewrite Forall_forall in Hsel. by destruct (Hsel _ He) as [q [=]].
Qed.

Lemma selects_enforced h evs :
  Forall (fun e => ∃ q, e = Executed h true (SELECT_column (q_column q) (q_table q))) evs ->
  Forall (enforced h) evs.
Proof. intros H. eapply Forall_impl; [exact H|]. intros e [q ->]. by split. Qed.

(** Discharges the side conditions of the lemmas on the primitives. *)
Ltac session Hc :=
  first [exact Hc | reflexivity | eapply advance_session; session Hc].

(** The [with] block of [load_data_from_csv] on a connection as [connect]
    hands it out: what it returns, the committed store and the journal. *)
Lemma replace_rows_spec h t fks df w :
  connections w !! h = Some (mkConn true true None) ->
  ∃ r d' out evs,
    with_ h (replace_rows h t fks df) w = (r, advance h (mkConn true true None) d' out evs w)
    ∧ Forall (enforced h) evs
    ∧ (r = Ok () ->
         ∃ df2 tb,
           columns df2 = columns df
           ∧ rows df2 = filter (passes (disk w) (columns df) fks) (rows df)
           ∧ tables (disk w) !! t = Some tb
           ∧ tables d' !! t
             = Some (mkTable (t_spec tb)
                       (map (new_row (t_spec tb) (clock w) (columns df)) (rows df2))))
    ∧ (∀ e, r = Raise e -> Exists (inserts_into h t) evs ->
         ∃ tb pre post,
           tables (disk w) !! t = Some tb
           ∧ tables d' !! t = Some (mkTable (t_spec tb) [])
           ∧ evs = (pre ++ Executed h true (DELETE_FROM t) :: Committed h :: post)%list)
    ∧ (∀ e, r = Raise e -> ¬ Exists (inserts_into h t) evs -> d' = disk w).
Proof.
  intros Hc. unfold with_, replace_rows.
  destruct (filter_foreign_keys_spec h t fks df w _ Hc eq_refl)
    as (r1 & out1 & evs1 & Heq1 & Hevs1 & _ & Hok1 & _).
  simpl in Hevs1, Hok1.
  pose proof (selects_not_inserts _ _ t _ Hevs1) as Hnoins1.
  pose proof (selects_enforced _ _ Hevs1) as Henf1.
  destruct r1 as [df2|e].
  2:{ rewrite (bind_raise _ _ _ _ _ Heq1). unfold bind.
      erewrite rollback_eq by (session Hc). unfold raise.
      rewrite advance_advance. simpl.
      eexists (Raise e), _, _, _. split; [reflexivity|]. split; [|split; [done|split]].
      - apply Forall_app. split; [done|]. by repeat constructor.
      - intros e' _ [H|H]%Exists_app; [done|].
        by apply Exists_cons in H as [(? & ? & [=])|?%Exists_nil].
      - done. }
  destruct (Hok1 df2 eq_refl) as (Hcols2 & Hrows2 & _).
  rewrite (bind_ok _ _ _ _ _ Heq1). unfold bind at 1.
  erewrite execute_eq by (session Hc). rewrite run_delete. simpl.
  destruct (exec_delete true t (disk w)) as [st1|e] eqn:Hdel; simpl.
  2:{ unfold bind. erewrite rollback_eq by (session Hc). unfold raise.
      rewrite !advance_advance. simpl.
      eexists (Raise e), _, _, _. split; [reflexivity|]. split; [|split; [done|split]].
      - rewrite !Forall_app. repeat split; try done; by repeat constructor.
      - intros e' _ [H|H]%Exists_app; [done|].
        apply Exists_cons in H as [(? & ? & [=])|H].
        by apply Exists_cons in H as [(? & ? & [=])|?%Exists_nil].
      - done. }
  apply exec_delete_ok in Hdel as (tb & Htb & Hst1).
  unfold bind at 1. erewrite commit_eq by (session Hc). simpl.
  rewrite !advance_advance. simpl. unfold bind at 1.
  match goal with |- context [to_sql df2 t h ?w3] =>
    destruct (to_sql_spec h t df2 w3 (mkTable (t_spec tb) []))
      as (r3 & d3 & evs3 & Heq3 & Henf3 & Hok3 & Hraise3 & _);
      [session Hc|exact Hst1|]
  end.
  rewrite Heq3. rewrite advance_advance. simpl.
  destruct r3 as [[]|e].
  - unfold bind at 1. erewrite print_eq by (session Hc). simpl.
    rewrite advance_advance. simpl.
    erewrite commit_eq by (session Hc). simpl.
    rewrite advance_advance. simpl.
    unfold bind. erewrite commit_eq by (session Hc). simpl. unfold ret.
    rewrite advance_advance. simpl.
    eexists (Ok ()), _, _, _. split; [reflexivity|]. split; [|split; [|done]].
    + rewrite !Forall_app. repeat split; try done; by repeat constructor.
    + intros _. exists df2, tb. rewrite Hcols2 in Hok3. auto.
  - unfold bind. erewrite rollback_eq by (session Hc). simpl. unfold raise.
    rewrite advance_advance. simpl.
    destruct (Hraise3 e eq_refl) as [-> Hex]. simpl.
    eexists (Raise e), _, _, _. split; [reflexivity|]. split; [|split; [done|split]].
    + rewrite !Forall_app. repeat split; try done; by repeat constructor.
    + intros e' _ _. exists tb, evs1, (evs3 ++ [RolledBack h])%list.
      split; [done|]. split; [done|]. by rewrite <- !app_assoc.
    + intros e' _ Hno. exfalso. apply Hno. rewrite !Exists_app. auto.
Qed.

(** ** A load, case by case *)

Lemma connected_session w :
  connections (connected w) !! length (connections w) = Some (mkConn true true None).
Proof. eapply advance_session, open_connection_session. Qed.

Lemma connections_advance_connected h d out evs w :
  h = length (connections w) ->
  connections (advance h (mkConn true true None) d out evs (connected w))
  = connections w ++ [mkConn true true None].
Proof.
  intros ->. simpl. rewrite list_insert_insert_eq.
  replace (length (connections w)) with (length (connections w) + 0) at 1 by lia.
  by rewrite insert_app_r.
Qed.

Lemma journal_advance_connected h c d out evs w :
  journal (advance h c d out evs (connected w))
  = journal w ++ Connected (length (connections w))
      :: Executed (length (connections w)) false (PRAGMA_foreign_keys true) :: evs.
Proof. simpl. by rewrite <- !app_assoc. Qed.

Section Properties.

Variable to_datetime : list value -> option (list (option datetime)).

Abbreviation load := (load_data_from_csv to_datetime).
Abbreviation converted := (convert_dates to_datetime).

(** A load either stops before it has touched the database, or opens a
    connection and runs the [with] block on it. *)
Lemma load_cases t p dc fks w :
  let h := length (connections w) in
  ∃ r w',
    load t p dc fks w = (r, w')
    ∧ ((∃ out, w' = say out w
               ∧ (r = Ok () -> files w !! p = None ∧ out = [NotFound p t])
               ∧ (files w !! p = None -> r = Ok ())
               ∧ (∀ df df1 df2, files w !! p = Some (Csv df) ->
                    deduplicated t df = Ok df1 -> converted dc df1 = Ok df2 -> False))
       ∨ (∃ df df1 df2 out1 d' out evs,
            files w !! p = Some (Csv df)
            ∧ deduplicate t df (say [Loading t p] w)
              = (Ok df1, say ([Loading t p] ++ out1) w)
            ∧ deduplicated t df = Ok df1
            ∧ converted dc df1 = Ok df2
            ∧ with_ h (replace_rows h t fks df2) (connected (say ([Loading t p] ++ out1) w))
              = (r, w')
            ∧ w' = advance h (mkConn true true None) d' out evs
                     (connected (say ([Loading t p] ++ out1) w)))).
Proof.
  intros h. unfold load_data_from_csv, exists_. unfold bind at 1.
  destruct (files w !! p) as [[|df]|] eqn:Hfile.
  - rewrite bool_decide_eq_true_2 by eauto. simpl.
    unfold bind, print, read_csv. simpl. rewrite Hfile.
    eexists _, _. split; [reflexivity|]. left. exists [Loading t p].
    split; [done|]. split; [done|]. split; done.
  - rewrite bool_decide_eq_true_2 by eauto. simpl.
    unfold bind at 1. unfold print at 1. unfold bind at 1. unfold read_csv at 1.
    simpl. rewrite Hfile. unfold bind at 1.
    destruct (deduplicate_spec t df (say [Loading t p] w)) as [out1 Hded].
    rewrite Hded, say_say.
    destruct (deduplicated t df) as [df1|e] eqn:Hdf1.
    2:{ eexists _, _. split; [reflexivity|]. left. eexists. split; [done|].
        split; [done|]. split; [done|]. intros ? ? ? [= <-]. by rewrite Hdf1. }
    unfold bind at 1. unfold lift at 1.
    destruct (convert_dates to_datetime dc df1) as [df2|e] eqn:Hdf2.
    2:{ eexists _, _. split; [reflexivity|]. left. eexists. split; [done|].
        split; [done|]. split; [done|]. intros ? ? ? [= <-]. rewrite Hdf1.
        intros [= <-]. by rewrite Hdf2. }
    unfold bind at 1. rewrite connect_eq. fold (connected (say ([Loading t p] ++ out1) w)).
    simpl length.
    destruct (replace_rows_spec h t fks df2 (connected (say ([Loading t p] ++ out1) w)))
      as (r & d' & out & evs & Heq & _);
      [exact (connected_session (say ([Loading t p] ++ out1) w))|].
    fold h. rewrite Heq. eexists _, _. split; [reflexivity|]. right.
    exists df, df1, df2, out1, d', out, evs. rewrite say_say in Hded. done.
  - rewrite bool_decide_eq_false_2 by (by intros [? ?]). simpl.
    eexists _, _. split; [reflexivity|]. left. exists [NotFound p t].
    split; [done|]. split; [done|]. split; done.
Qed.

Lemma converted_columns dc : ∀ df df', converted dc df = Ok df' -> columns df' = columns df.
Proof.
  induction dc as [|c dc IH]; intros df df' H; simpl in H.
  - by injection H as <-.
  - case_bool_decide as Hc; [|by apply IH].
    destruct (to_datetime _); [|done].
    apply IH in H. by rewrite H, columns_assign.
Qed.

(** What a load that reaches the [with] block leaves behind. *)
Lemma load_outcome t p dc fks w r w' df df1 df2 :
  files w !! p = Some (Csv df) ->
  deduplicated t df = Ok df1 ->
  converted dc df1 = Ok df2 ->
  load t p dc fks w = (r, w') ->
  let h := length (connections w) in
  ∃ evs,
    journal w' = journal w ++ Connected h
                   :: Executed h false (PRAGMA_foreign_keys true) :: evs
    ∧ connections w' = connections w ++ [mkConn true true None]
    ∧ Forall (enforced h) evs
    ∧ (r = Ok () ->
         ∃ tb, tables (disk w) !! t = Some tb
               ∧ tables (disk w') !! t
                 = Some (mkTable (t_spec tb)
                           (map (new_row (t_spec tb) (clock w) (columns df))
                                (filter (passes (disk w) (columns df) fks) (rows df2)))))
    ∧ (∀ e, r = Raise e -> Exists (inserts_into h t) evs ->
         ∃ tb pre post,
           tables (disk w) !! t = Some tb
           ∧ tables (disk w') !! t = Some (mkTable (t_spec tb) [])
           ∧ evs = pre ++ Executed h true (DELETE_FROM t) :: Committed h :: post)
    ∧ (∀ e, r = Raise e -> ¬ Exists (inserts_into h t) evs -> disk w' = disk w).
Proof.
  intros Hfile Hdf1 Hdf2 Hload h.
  destruct (load_cases t p dc fks w) as (r0 & w0 & Hload0 & Hcases).
  rewrite Hload in Hload0. injection Hload0 as <- <-.
  destruct Hcases as [(out & _ & _ & _ & Hno)|Hrun]; [by destruct (Hno _ _ _ Hfile Hdf1 Hdf2)|].
  destruct Hrun as (df' & df1' & df2' & out1 & d' & out & evs & Hfile' & _ & Hdf1' & Hdf2'
                    & Hwith & _).
  rewrite Hfile in Hfile'. injection Hfile' as <-.
  rewrite Hdf1 in Hdf1'. injection Hdf1' as <-.
  rewrite Hdf2 in Hdf2'. injection Hdf2' as <-.
  pose proof (deduplicated_columns _ _ _ Hdf1) as Hc1.
  pose proof (converted_columns _ _ _ Hdf2) as Hc2. rewrite Hc1 in Hc2.
  set (W := say ([Loading t p] ++ out1) w) in *.
  destruct (replace_rows_spec h t fks df2 (connected W) (connected_session W))
    as (r' & d2 & out2 & evs2 & Heq & Henf & Hok & Hins & Hnoins).
  fold h in Hwith. rewrite Hwith in Heq. injection Heq as -> ->.
  exists evs2. rewrite journal_advance_connected.
  rewrite (connections_advance_connected h d2 out2 evs2 W eq_refl).
  split; [done|]. split; [done|]. split; [done|]. split; [|split].
  - intros Hr. destruct (Hok Hr) as (df3 & tb & Hcols & Hrows & Htb & Ht).
    simpl in Htb, Ht, Hrows |- *.
    exists tb. split; [done|]. rewrite Ht, Hrows, Hc2. done.
  - intros e Hr Hex. destruct (Hins e Hr Hex) as (tb & pre & post & Htb & Ht & Hevs).
    simpl in Htb, Ht |- *. by exists tb, pre, post.
  - intros e Hr Hex. simpl. apply (Hnoins e Hr Hex).
Qed.


(** C2: when a load into a table of bare name has issued an INSERT (so its
    DELETE had run and been committed) and raises, the error goes to the
    caller and the table is left empty: no rollback brings back what it
    held, and if it held rows it no longer holds its state of before the
    call. *)
Theorem failed_insert_leaves_table_empty t p dc fks w w' e evs :
  bare_name t = true ->
  load t p dc fks w = (Raise e, w') ->
  journal w' = journal w ++ evs ->
  Exists (inserts_into (length (connections w)) t) evs ->
  ∃ tb pre post,
    tables (disk w) !! t = Some tb
    ∧ rows_of t (disk w') = Some []
    ∧ (t_rows tb ≠ [] -> rows_of t (disk w') ≠ rows_of t (disk w))
    ∧ evs = pre ++ Executed (length (connections w)) true (DELETE_FROM t)
              :: Committed (length (connections w)) :: post
    ∧ Forall (fun c => pending c = None) (drop (length (connections w)) (connections w')).
Proof.
  intros _ Hload Hj Hex.
  destruct (load_cases t p dc fks w) as (r0 & w0 & Hload0 & Hcases).
  rewrite Hload in Hload0. injection Hload0 as <- <-.
  destruct Hcases as [(out & -> & _)|Hrun].
  { simpl in Hj. rewrite <- (app_nil_r (journal w)) in Hj at 1.
    apply app_inv_head in Hj as <-. by apply Exists_nil in Hex. }
  destruct Hrun as (df & df1 & df2 & _ & _ & _ & _ & Hfile & _ & Hdf1 & Hdf2 & _).
  destruct (load_outcome _ _ _ _ _ _ _ _ _ _ Hfile Hdf1 Hdf2 Hload)
    as (evs' & Hj' & Hconn & _ & _ & Hins & _).
  rewrite Hj' in Hj. apply app_inv_head in Hj as <-.
  apply Exists_cons in Hex as [(? & ? & [=])|Hex].
  apply Exists_cons in Hex as [(? & ? & [=])|Hex].
  destruct (Hins e eq_refl Hex) as (tb & pre & post & Htb & Ht & Hevs).
  exists tb, (Connected (length (connections w))
              :: Executed (length (connections w)) false (PRAGMA_foreign_keys true) :: pre), post.
  split; [done|]. unfold rows_of. rewrite Ht, Htb. simpl.
  split; [done|]. split; [|split].
  - intros Hne [= Heq]. by apply Hne.
  - by rewrite Hevs.
  - rewrite Hconn, drop_app_length. by repeat constructor.
Qed.


(** ** Columns the frame lacks *)

Lemma converted_present dc :
  ∀ df, converted dc df = converted (filter (fun c => c ∈ columns df) dc) df.
Proof.
  induction dc as [|c dc IH]; intros df; [done|].
  rewrite filter_cons. simpl. case_bool_decide as Hc.
  - rewrite decide_True by done. simpl. rewrite bool_decide_eq_true_2 by done.
    destruct (to_datetime _) as [parsed|]; [|done].
    rewrite IH, columns_assign by done. done.
  - rewrite decide_False by done. apply IH.
Qed.

Lemma filter_foreign_keys_present h t fks :
  ∀ df w,
    filter_foreign_keys h t fks df w
    = filter_foreign_keys h t (filter (fun cq => cq.1 ∈ columns df) fks) df w.
Proof.
  induction fks as [|[c q] fks IH]; intros df w; [done|].
  rewrite filter_cons. simpl. case_bool_decide as Hc.
  - rewrite decide_False by done. apply IH.
  - assert (c ∈ columns df) by (destruct (decide (c ∈ columns df)); tauto).
    rewrite decide_True by done. simpl. rewrite bool_decide_eq_false_2 by tauto.
    unfold bind. destruct (execute _ _ _) as [[answer|e] w1]; [|done].
    destruct (when _ _ _) as [[[]|e] w2]; [|done].
    apply (IH (isin_filter c (map row0 answer) df)).
Qed.

Lemma load_unfold t p dc fks w df :
  files w !! p = Some (Csv df) ->
  load t p dc fks w =
    (df1 ← deduplicate t df;
     df2 ← lift (converted dc df1);
     conn ← connect;
     with_ conn (replace_rows conn t fks df2)) (say [Loading t p] w).
Proof.
  intros Hfile. unfold load_data_from_csv, exists_. unfold bind at 1.
  rewrite Hfile, bool_decide_eq_true_2 by eauto. simpl.
  unfold bind at 1. unfold print at 1. unfold bind at 1. unfold read_csv at 1.
  simpl. by rewrite Hfile.
Qed.

(** C9: a date column or a foreign-key filter on a column the incoming
    records lack is passed over in silence. The load is, in what it
    returns, prints, journals and stores, the load without those entries:
    no conversion, no reference query, no filtering, no error and no
    warning for them. *)
Theorem absent_columns_are_skipped t p dc fks w df :
  files w !! p = Some (Csv df) ->
  load_data_from_csv to_datetime t p dc fks w
  = load_data_from_csv to_datetime t p
      (filter (fun c => c ∈ columns df) dc)
      (filter (fun cq => cq.1 ∈ columns df) fks) w.
Proof.
  intros Hfile. rewrite !(load_unfold _ _ _ _ _ _ Hfile).
  apply bind_ext_on. intros df1 w1 Hded.
  destruct (deduplicate_spec t df (say [Loading t p] w)) as [out Hded'].
  rewrite Hded in Hded'. injection Hded' as Hdf1 _. symmetry in Hdf1.
  pose proof (deduplicated_columns _ _ _ Hdf1) as Hc1.
  rewrite (converted_present dc df1), Hc1.
  apply bind_ext_on. intros df2 w2 [= Hdf2 _].
  pose proof (converted_columns _ _ _ Hdf2) as Hc2. rewrite Hc1 in Hc2.
  apply bind_ext_on. intros h w3 _.
  unfold with_, replace_rows.
  assert (Hb : ∀ k : DataFrame -> M unit,
            bind (filter_foreign_keys h t fks df2) k w3
            = bind (filter_foreign_keys h t (filter (fun cq => cq.1 ∈ columns df) fks) df2)
                   k w3).
  { intros k. unfold bind. by rewrite (filter_foreign_keys_present h t fks df2), Hc2. }
  by rewrite Hb.
Qed.

(** ** Date columns *)

Lemma converted_app dc1 dc2 :
  ∀ df, converted (dc1 ++ dc2) df =
        match converted dc1 df with
        | Ok df1 => converted dc2 df1
        | Raise e => Raise e
        end.
Proof.
  induction dc1 as [|c dc1 IH]; intros df; [done|].
  simpl. case_bool_decide; [|apply IH]. destruct (to_datetime _); [apply IH|done].
Qed.

(** Converting other columns leaves the cells of a column as they are. *)
Lemma converted_other col dc :
  ∀ df df' i r',
    col ∉ dc -> converted dc df = Ok df' -> rows df' !! i = Some r' ->
    ∃ r, rows df !! i = Some r ∧ cell col r' = cell col r.
Proof.
  induction dc as [|c dc IH]; intros df df' i r' Hnot H Hi; simpl in H.
  - injection H as <-. eauto.
  - apply not_elem_of_cons in Hnot as [Hne Hnot].
    case_bool_decide; [|by eapply IH].
    destruct (to_datetime _); [|done].
    destruct (IH _ _ _ _ Hnot H Hi) as (r1 & Hr1 & Hcell).
    apply assign_lookup in Hr1 as (r & Hr & ->).
    exists r. split; [done|]. rewrite Hcell. by apply cell_insert_ne.
Qed.

Lemma converted_series_other col dc :
  ∀ df df', col ∉ dc -> converted dc df = Ok df' -> series col df' = series col df.
Proof.
  induction dc as [|c dc IH]; intros df df' Hnot H; simpl in H.
  - by injection H as <-.
  - apply not_elem_of_cons in Hnot as [Hne Hnot].
    case_bool_decide; [|by eapply IH].
    destruct (to_datetime _); [|done].
    rewrite (IH _ _ Hnot H). by apply series_assign_ne.
Qed.

Lemma converted_dates col dc :
  ∀ df df',
    converted dc df = Ok df' -> col ∈ dc -> col ∈ columns df ->
    ∃ s parsed,
      to_datetime s = Some parsed
      ∧ (∀ i r', rows df' !! i = Some r' ->
           cell col r' = default NA (dt_date_of <$> parsed !! i))
      ∧ (NoDup dc -> s = series col df).
Proof.
  induction dc as [|c dc IH]; intros df df' H Hin Hcol; [by apply elem_of_nil in Hin|].
  simpl in H. destruct (decide (col ∈ dc)) as [Hrest|Hrest].
  - case_bool_decide as Hc.
    + destruct (to_datetime (series c df)) as [parsed0|] eqn:Hp; [|done].
      destruct (IH _ _ H Hrest) as (s & parsed & Hs & Hcells & Hnd).
      { by rewrite columns_assign. }
      exists s, parsed. split; [done|]. split; [done|].
      intros [Hnc Hnd']%NoDup_cons. rewrite (Hnd Hnd').
      apply series_assign_ne. by intros ->.
    + destruct (IH _ _ H Hrest Hcol) as (s & parsed & Hs & Hcells & Hnd).
      exists s, parsed. split; [done|]. split; [done|].
      intros [_ Hnd']%NoDup_cons. by apply Hnd.
  - apply elem_of_cons in Hin as [->|]; [|done].
    rewrite bool_decide_eq_true_2 in H by done.
    destruct (to_datetime (series c df)) as [parsed|] eqn:Hp; [|done].
    exists (series c df), parsed. split; [done|]. split; [|done].
    intros i r' Hi.
    destruct (converted_other c dc _ _ _ _ Hrest H Hi) as (r1 & Hr1 & ->).
    apply assign_lookup in Hr1 as (r & Hr & ->).
    by rewrite cell_insert, list_lookup_fmap.
Qed.

(** C8: a date column the incoming records have holds, after conversion,
    the date of what the parser made of it, the time of day dropped (a
    missing value stays missing), and this is the frame that goes on to be
    inserted; and when the parser cannot make a date of a value of such a
    column, the load raises the parse error, before anything is deleted or
    inserted. *)
Theorem date_columns_are_normalized :
  (∀ dc df df' col,
     converted dc df = Ok df' -> col ∈ dc -> col ∈ columns df ->
     ∃ s parsed,
       to_datetime s = Some parsed
       ∧ (NoDup dc -> s = series col df)
       ∧ ∀ i r', rows df' !! i = Some r' ->
           cell col r' = default NA (dt_date_of <$> parsed !! i)
           ∧ (cell col r' = NA ∨ ∃ d, cell col r' = Date d))
  ∧ (∀ t p dc1 col dc2 fks w df df1 df2,
       files w !! p = Some (Csv df) ->
       deduplicated t df = Ok df1 ->
       converted dc1 df1 = Ok df2 ->
       col ∈ columns df ->
       to_datetime (series col df2) = None ->
       ∃ out,
         load t p (dc1 ++ col :: dc2) fks w = (Raise (DateParseError col), say out w)
         ∧ disk (say out w) = disk w
         ∧ connections (say out w) = connections w
         ∧ journal (say out w) = journal w).
Proof.
  split.
  - intros dc df df' col H Hin Hcol.
    destruct (converted_dates col dc df df' H Hin Hcol) as (s & parsed & Hs & Hcells & Hnd).
    exists s, parsed. split; [done|]. split; [done|].
    intros i r' Hi. rewrite (Hcells i r' Hi). split; [done|].
    destruct (parsed !! i) as [[dt|]|]; simpl; eauto.
  - intros t p dc1 col dc2 fks w df df1 df2 Hfile Hdf1 Hdf2 Hcol Hparse.
    destruct (deduplicate_spec t df (say [Loading t p] w)) as [out Hded].
    exists ([Loading t p] ++ out). split; [|done].
    rewrite (load_unfold _ _ _ _ _ _ Hfile).
    rewrite (bind_ok _ _ _ _ _ (eq_trans Hded (f_equal (fun r => (r, _)) Hdf1))).
    unfold bind, lift. rewrite converted_app, Hdf2. simpl.
    rewrite bool_decide_eq_true_2, Hparse, say_say; [done|].
    by rewrite (converted_columns _ _ _ Hdf2), (deduplicated_columns _ _ _ Hdf1).
Qed.

End Properties.

(** ** Deduplication and referential filtering *)

(** C3: on a table whose primary key is the column set [K] (of one or of
    several columns), of the incoming rows that agree on [K] the first in
    input order is kept and every later one is dropped, before anything is
    inserted; the count printed with the warning and with the removal is the
    number of rows dropped (nothing is printed when there is none). *)
Theorem duplicates_keep_first t K df w :
  PRIMARY_KEYS !! t = Some K ->
  K ⊆ columns df ->
  ∃ kept hd,
    deduplicate t df w =
      (Ok (mkDF (columns df) kept),
       say (if length (rows df) - length kept =? 0 then []
            else [FoundDuplicates (length (rows df) - length kept) t;
                  DuplicateValues hd;
                  RemovedDuplicates (length (rows df) - length kept) t K]) w)
    ∧ KeepFirst (key_of K) (rows df) kept
    ∧ deduplicated t df = Ok (mkDF (columns df) kept).
Proof.
  intros HK Hsub. eexists _, _. split; [by apply deduplicate_keyed|].
  split; [apply unmarked_keep_first|].
  destruct (deduplicate_spec t df w) as [out Hout].
  rewrite (deduplicate_keyed _ _ _ _ HK Hsub) in Hout. by injection Hout as <- _.
Qed.

(** C4: in a session, the foreign-key filters whose column the incoming
    records have keep exactly the rows whose value in the column is among
    the values the reference query returns at that moment, in their order,
    and drop the others, a row with no value in the column included; the
    entry at the head of the list runs its query,
    filters, prints the number of rows it removed when there are any, and
    hands on to the rest; the numbers printed add up to the number of rows
    removed; nothing is raised and the store is not touched. *)
Theorem orphans_are_filtered h t fks df w c :
  connections w !! h = Some c ->
  is_open c = true ->
  (∀ col q, (col, q) ∈ fks -> col ∈ columns df ->
     is_Some (column_values q (default (disk w) (pending c)))) ->
  let view := default (disk w) (pending c) in
  ∃ out evs,
    let kept := filter (passes view (columns df) fks) (rows df) in
    filter_foreign_keys h t fks df w
    = (Ok (mkDF (columns df) kept), advance h c (disk w) out evs w)
    ∧ (∀ r, r ∈ kept ↔
            r ∈ rows df
            ∧ ∀ col q, (col, q) ∈ fks -> col ∈ columns df ->
                ∃ vs, column_values q view = Some vs
                      ∧ cell col r ≠ NA ∧ cell col r ∈ vs)
    ∧ Forall (fun m => ∃ n col q, m = RemovedMissingFK (S n) t col
                                  ∧ (col, q) ∈ fks ∧ col ∈ columns df) out
    ∧ sum_list_with fk_removed out = length (rows df) - length kept
    ∧ (∀ col q rest vs,
         fks = (col, q) :: rest -> col ∈ columns df -> column_values q view = Some vs ->
         let kept1 := filter (fun r => cell col r ≠ NA ∧ cell col r ∈ vs) (rows df) in
         let n := length (rows df) - length kept1 in
         filter_foreign_keys h t fks df w
         = filter_foreign_keys h t rest (mkDF (columns df) kept1)
             (advance h c (disk w)
                (if n =? 0 then [] else [RemovedMissingFK n t col])
                [Executed h (foreign_keys c) (SELECT_column (q_column q) (q_table q))] w)).
Proof.
  intros Hc Ho Hans view.
  destruct (filter_foreign_keys_spec h t fks df w c Hc Ho)
    as (r & out & evs & Heq & _ & Hout & Hok & Htot).
  destruct (Htot Hans) as [df' ->].
  destruct (Hok df' eq_refl) as (Hcols & Hrows & Hsum).
  exists out, evs. simpl. fold view in Hrows.
  split; [|split; [|split; [done|split]]].
  - rewrite Heq. do 2 f_equal. destruct df' as [cs rs]. simpl in *. by subst.
  - intros r. rewrite list_elem_of_filter. unfold passes. rewrite Forall_forall.
    split.
    + intros [Hp Hr]. split; [done|].
      intros col q Hin Hcol. destruct (Hans col q Hin Hcol) as [vs Hvs].
      exists vs. split; [done|]. specialize (Hp (col, q) Hin Hcol). simpl in Hp.
      fold view in Hvs. by rewrite Hvs in Hp.
    + intros [Hr Hp]. split; [|done].
      intros [col q] Hin Hcol. destruct (Hp col q Hin Hcol) as (vs & Hvs & Hcell).
      simpl. by rewrite Hvs.
  - by rewrite <- Hrows.
  - intros col q rest vs -> Hcol Hvs. simpl.
    rewrite bool_decide_eq_false_2 by tauto.
    unfold bind at 1. rewrite (execute_eq _ _ _ _ Hc Ho), run_select_column.
    destruct q as [qc qt]. simpl in *. fold view. rewrite Hvs. simpl.
    rewrite map_map. simpl. rewrite map_id.
    unfold bind, when, isin_filter.
    destruct (length (rows df) - length (filter _ (rows df)) =? 0) eqn:En; simpl.
    + unfold ret. done.
    + unfold print. erewrite say_advance by (session Hc).
      by rewrite advance_advance.
Qed.

(** ** Enforcement of foreign keys *)

Lemma execute_enforced h s w c :
  connections w !! h = Some c -> is_open c = true -> foreign_keys c = true ->
  s ≠ PRAGMA_foreign_keys false ->
  ∃ r c' d',
    execute h s w = (r, advance h c' d' [] [Executed h true s] w)
    ∧ is_open c' = true ∧ foreign_keys c' = true.
Proof.
  intros Hc Ho Hfk Hs. rewrite (execute_eq _ _ _ _ Hc Ho), Hfk.
  eexists _, _, _. split; [reflexivity|].
  unfold run. destruct s as [[]| | | | | | | | |];
    try done; simpl;
    try (destruct (in_transaction c); done);
    repeat match goal with
           | |- context [match ?x with _ => _ end] => destruct x; simpl
           end; done.
Qed.

Lemma statements_enforced h ss :
  Forall (fun s => s ≠ PRAGMA_foreign_keys false) ss ->
  ∀ w c,
    connections w !! h = Some c -> is_open c = true -> foreign_keys c = true ->
    ∃ r c' d' evs,
      for_each ss (fun s => execute h s;; ret ()) w = (r, advance h c' d' [] evs w)
      ∧ is_open c' = true ∧ foreign_keys c' = true ∧ Forall (enforced h) evs.
Proof.
  induction 1 as [|s ss Hs _ IH]; intros w c Hc Ho Hfk.
  - exists (Ok ()), c, (disk w), []. simpl. unfold ret. by rewrite (advance_id _ _ _ Hc).
  - simpl. rewrite bind_void. unfold bind at 1.
    destruct (execute_enforced h s w c Hc Ho Hfk Hs) as (r & c1 & d1 & Heq & Ho1 & Hfk1).
    rewrite Heq. destruct r as [answer|e].
    + edestruct (IH (advance h c1 d1 [] [Executed h true s] w) c1)
        as (r & c' & d' & evs & Heq' & Ho' & Hfk' & Hevs); [session Hc|done|done|].
      rewrite Heq', advance_advance. eexists r, c', d', _. split; [reflexivity|].
      split; [done|]. split; [done|]. by constructor.
    + eexists (Raise e), c1, d1, _. split; [reflexivity|].
      split; [done|]. split; [done|]. by repeat constructor.
Qed.

(** Leaving a [with] block commits or rolls back on the same connection. *)
Lemma with_enforced {A} h (body : M A) w c0 r c d out evs :
  connections w !! h = Some c0 ->
  body w = (r, advance h c d out evs w) ->
  is_open c = true -> Forall (enforced h) evs ->
  ∃ d' evs',
    with_ h body w = (r, advance h (mkConn true (foreign_keys c) None) d' out evs' w)
    ∧ Forall (enforced h) evs'.
Proof.
  intros Hc Hbody Ho Hevs. unfold with_. rewrite Hbody. destruct r as [a|e]; unfold bind.
  - erewrite commit_eq by (session Hc || exact Ho). unfold ret.
    rewrite advance_advance, app_nil_r. eexists _, _. split; [reflexivity|].
    apply Forall_app. split; [done|]. by repeat constructor.
  - erewrite rollback_eq by (session Hc || exact Ho). unfold raise.
    rewrite advance_advance, app_nil_r. eexists _, _. split; [reflexivity|].
    apply Forall_app. split; [done|]. by repeat constructor.
Qed.

Lemma schema_script_enforced :
  Forall (fun s => s ≠ PRAGMA_foreign_keys false) schema_script.
Proof. unfold schema_script. simpl. repeat constructor; discriminate. Qed.

Lemma create_tables_enforced w :
  ∃ r w', create_tables w = (r, w') ∧ session_enforced (length (connections w)) w w'.
Proof.
  unfold create_tables. unfold bind at 1. rewrite connect_eq. fold (connected w).
  pose proof (connected_session w) as Hc.
  destruct (statements_enforced (length (connections w)) schema_script
              schema_script_enforced (connected w) _ Hc eq_refl eq_refl)
    as (r & c & d & evs & Heq & Ho & Hfk & Hevs).
  destruct (with_enforced _ _ _ _ _ _ _ _ _ Hc Heq Ho Hevs) as (d' & evs' & Hw & Hevs').
  rewrite Hw. eexists _, _. split; [reflexivity|].
  exists evs'. by rewrite journal_advance_connected.
Qed.

Lemma verify_tables_enforced w :
  ∃ r w', verify_tables w = (r, w') ∧ session_enforced (length (connections w)) w w'.
Proof.
  unfold verify_tables. unfold bind at 1. rewrite connect_eq. fold (connected w).
  set (h := length (connections w)).
  pose proof (connected_session w) as Hc. fold h in Hc.
  assert (Hloop : ∀ names w1 c,
    connections w1 !! h = Some c -> is_open c = true -> foreign_keys c = true ->
    ∃ r c' d' out evs,
      for_each names (fun row =>
        answer ← execute h (SELECT_count (text (row0 row)));
        print (RowCount (text (row0 row)) (row0 (default [] (head answer))))) w1
      = (r, advance h c' d' out evs w1)
      ∧ is_open c' = true ∧ foreign_keys c' = true ∧ Forall (enforced h) evs).
  { induction names as [|row names IH]; intros w1 c Hc1 Ho Hfk.
    - exists (Ok ()), c, (disk w1), [], []. simpl. unfold ret.
      by rewrite (advance_id _ _ _ Hc1).
    - simpl. unfold bind at 1. unfold bind at 1.
      destruct (execute_enforced h (SELECT_count (text (row0 row))) w1 c Hc1 Ho Hfk)
        as (r & c1 & d1 & Heq & Ho1 & Hfk1); [done|].
      rewrite Heq. destruct r as [answer|e].
      + erewrite print_eq by (session Hc1). rewrite advance_advance. simpl.
        edestruct (IH (advance h c1 d1 [RowCount (text (row0 row))
                                          (row0 (default [] (head answer)))]
                         [Executed h true (SELECT_count (text (row0 row)))] w1) c1)
          as (r & c' & d' & out & evs & Heq' & Ho' & Hfk' & Hevs); [session Hc1|done|done|].
        rewrite Heq', advance_advance. eexists r, c', d', _, _.
        split; [reflexivity|]. split; [done|]. split; [done|]. by constructor.
      + eexists (Raise e), c1, d1, [], _. split; [reflexivity|].
        split; [done|]. split; [done|]. by repeat constructor. }
  assert (Hbody : ∃ r c d out evs,
    (names ← execute h (SELECT_user_tables true);
     print TableVerification;;
     for_each names (fun row =>
       answer ← execute h (SELECT_count (text (row0 row)));
       print (RowCount (text (row0 row)) (row0 (default [] (head answer)))))) (connected w)
    = (r, advance h c d out evs (connected w))
    ∧ is_open c = true ∧ Forall (enforced h) evs).
  { unfold bind at 1.
    destruct (execute_enforced h (SELECT_user_tables true) (connected w) _ Hc eq_refl eq_refl)
      as (r & c1 & d1 & Heq & Ho1 & Hfk1); [done|].
    rewrite Heq. destruct r as [names|e].
    - unfold bind at 1. erewrite print_eq by (session Hc). rewrite advance_advance. simpl.
      edestruct (Hloop names (advance h c1 d1 [TableVerification]
                                [Executed h true (SELECT_user_tables true)] (connected w)) c1)
        as (r & c' & d' & out & evs & Heq' & Ho' & Hfk' & Hevs); [session Hc|done|done|].
      rewrite Heq', advance_advance. eexists r, c', d', _, _.
      split; [reflexivity|]. split; [done|]. by constructor.
    - eexists (Raise e), c1, d1, [], _. split; [reflexivity|].
      split; [done|]. by repeat constructor. }
  destruct Hbody as (r & c & d & out & evs & Heq & Ho & Hevs).
  destruct (with_enforced _ _ _ _ _ _ _ _ _ Hc Heq Ho Hevs) as (d' & evs' & Hw & Hevs').
  rewrite Hw. eexists _, _. split; [reflexivity|].
  exists evs'. by rewrite journal_advance_connected.
Qed.

Section Enforcement.

Variable to_datetime : list value -> option (list (option datetime)).

(** C10: the connection [connect] hands out has foreign-key enforcement
    on; and in schema creation, in every table load and in verification,
    which all take their session from [connect], every statement after
    the PRAGMA that [connect] itself issues runs under enforcement, the
    DELETE and each INSERT of a load among them. (A load whose source is
    missing or unusable opens no session at all.) *)
Theorem foreign_keys_are_enforced w :
  let h := length (connections w) in
  (∃ w1, connect w = (Ok h, w1)
         ∧ connections w1 !! h = Some (mkConn true true None))
  ∧ (∃ r w', create_tables w = (r, w') ∧ session_enforced h w w')
  ∧ (∀ t p dc fks,
       ∃ r w', load_data_from_csv to_datetime t p dc fks w = (r, w')
               ∧ (journal w' = journal w ∨ session_enforced h w w'))
  ∧ (∃ r w', verify_tables w = (r, w') ∧ session_enforced h w w').
Proof.
  intros h. split; [|split; [|split]].
  - eexists. split; [apply connect_eq|]. apply connected_session.
  - apply create_tables_enforced.
  - intros t p dc fks.
    destruct (load_cases to_datetime t p dc fks w) as (r & w' & Hload & Hcases).
    exists r, w'. split; [done|].
    destruct Hcases as [(out & -> & _)|Hrun]; [by left|right].
    destruct Hrun as (df & df1 & df2 & out1 & d' & out & evs & _ & _ & _ & _ & Hwith & _).
    set (W := say ([Loading t p] ++ out1) w) in *.
    destruct (replace_rows_spec (length (connections w)) t fks df2 (connected W)
                (connected_session W))
      as (r' & d2 & out2 & evs2 & Heq & Henf & _).
    rewrite Hwith in Heq. injection Heq as -> ->.
    exists evs2. by rewrite journal_advance_connected.
  - apply verify_tables_enforced.
Qed.

End Enforcement.

(** ** Dropping and creating the schema *)



Lemma elem_of_user_tables t st :
  t ∈ user_tables false st ↔ like_sqlite_ t = false ∧ is_Some (tables st !! t).
Proof.
  unfold user_tables. rewrite list_elem_of_filter, list_elem_of_fmap.
  split.
  - intros [Hl ([t' tb] & -> & Hin%elem_of_map_to_list)]. simpl in *. eauto.
  - intros [Hl [tb Htb]]. split; [done|]. exists (t, tb). split; [done|].
    by apply elem_of_map_to_list.
Qed.



















(** ** The store under a load *)

Lemma shrinks_refl ts : shrinks ts ts.
Proof. intros t. by destruct (ts !! t). Qed.

Lemma shrinks_trans ts1 ts2 ts3 : shrinks ts1 ts2 -> shrinks ts2 ts3 -> shrinks ts1 ts3.
Proof.
  intros H12 H23 t. specialize (H12 t). specialize (H23 t).
  destruct (ts1 !! t) as [a|], (ts2 !! t) as [b|], (ts3 !! t) as [c|]; try done.
  destruct H12 as [E1 S1], H23 as [E2 S2]. split; [congruence|]. by etrans.
Qed.

Lemma shrinks_insert ts t tb rs :
  ts !! t = Some tb -> rs `sublist_of` t_rows tb ->
  shrinks ts (<[t := mkTable (t_spec tb) rs]> ts).
Proof.
  intros Ht Hrs t'. destruct (decide (t' = t)) as [->|Hne].
  - by rewrite Ht, lookup_insert_eq.
  - rewrite lookup_insert_ne by done. by destruct (ts !! t').
Qed.

Lemma cascade_shrinks fuel : ∀ parent gone ts, shrinks ts (cascade fuel parent gone ts).
Proof.
  induction fuel as [|fuel IH]; intros parent gone ts; [apply shrinks_refl|].
  simpl. generalize (child_links parent ts). intros links. revert ts.
  induction links as [|[child fk] links IHl]; intros ts; [apply shrinks_refl|].
  simpl. eapply shrinks_trans; [|apply IHl].
  destruct (ts !! child) as [tb|] eqn:Hchild; [|apply shrinks_refl].
  destruct (filter _ (t_rows tb)) as [|d dead]; [apply shrinks_refl|].
  eapply shrinks_trans; [|apply IH].
  apply shrinks_insert; [done|]. apply sublist_filter.
Qed.

Lemma shrinks_rows ts ts' t tb' r :
  shrinks ts ts' -> ts' !! t = Some tb' -> r ∈ t_rows tb' ->
  ∃ tb, ts !! t = Some tb ∧ t_spec tb' = t_spec tb ∧ r ∈ t_rows tb.
Proof.
  intros H Ht Hr. specialize (H t). rewrite Ht in H.
  destruct (ts !! t) as [tb|]; [|done]. destruct H as [Hs Hsub].
  exists tb. split; [done|]. split; [done|]. by eapply elem_of_sublist.
Qed.

Lemma elem_of_child_links parent ts child fk :
  (child, fk) ∈ child_links parent ts
  ↔ ∃ tb, ts !! child = Some tb ∧ fk ∈ t_foreign_keys (t_spec tb) ∧ fk_table fk = parent.
Proof.
  unfold child_links. rewrite list_elem_of_In, in_flat_map. split.
  - intros ([name tb] & Hin & Hfk). apply list_elem_of_In, elem_of_map_to_list in Hin.
    apply list_elem_of_In, list_elem_of_fmap in Hfk as (fk' & [= -> ->] & Hfk).
    apply list_elem_of_filter in Hfk as [? ?]. by exists tb.
  - intros (tb & Hchild & Hfk & Hp). exists (child, tb). split.
    + by apply list_elem_of_In, elem_of_map_to_list.
    + apply list_elem_of_In, list_elem_of_fmap. exists fk. split; [done|].
      by apply list_elem_of_filter.
Qed.

(** One round of a cascade reaches every table that declares a foreign key
    to the parent: none of its rows references a row that has gone. *)
Lemma cascade_reaches fuel parent gone ts child fk tb' r :
  (child, fk) ∈ child_links parent ts ->
  cascade (S fuel) parent gone ts !! child = Some tb' ->
  r ∈ t_rows tb' -> ¬ references fk gone r.
Proof.
  simpl. generalize (child_links parent ts). intros links. revert ts.
  induction links as [|[c0 fk0] links IHl]; intros ts Hin Hlook Hr; [by apply elem_of_nil in Hin|].
  simpl in Hlook.
  match type of Hlook with context [foldl ?f _ links] => set (step := f) in * end.
  assert (Htail : ∀ l ts0, shrinks ts0 (foldl step ts0 l)).
  { clear. induction l as [|[c fk] l IH]; intros ts0; [apply shrinks_refl|].
    simpl. eapply shrinks_trans; [|apply IH]. unfold step.
    destruct (ts0 !! c) as [tb|] eqn:Hc; [|apply shrinks_refl].
    destruct (filter _ (t_rows tb)) as [|d dead]; [apply shrinks_refl|].
    eapply shrinks_trans; [|apply cascade_shrinks].
    apply shrinks_insert; [done|]. apply sublist_filter. }
  apply elem_of_cons in Hin as [[= <- <-]|Hin]; [|by eapply IHl].
  destruct (shrinks_rows _ _ _ _ _ (Htail links _) Hlook Hr) as (tb1 & Htb1 & _ & Hr1).
  clear Hlook IHl. unfold step in Htb1.
  destruct (ts !! child) as [tb|] eqn:Hchild; [|by rewrite Hchild in Htb1].
  destruct (filter _ (t_rows tb)) as [|d dead] eqn:Hdead.
  - rewrite Hchild in Htb1. injection Htb1 as <-. intros Href.
    assert (r ∈ filter (fun r => cell (fk_column fk) r ≠ NA
                                 ∧ cell (fk_column fk) r ∈ map (cell (fk_key fk)) gone)
                       (t_rows tb)) by by apply list_elem_of_filter.
    rewrite Hdead in H. by apply elem_of_nil in H.
  - destruct (shrinks_rows _ _ _ _ _ (cascade_shrinks fuel _ _ _) Htb1 Hr1)
      as (tb2 & Htb2 & _ & Hr2).
    rewrite lookup_insert_eq in Htb2. injection Htb2 as <-. simpl in Hr2.
    by apply list_elem_of_filter in Hr2 as [? ?].
Qed.

Lemma clear_table_shrinks fk t tb ts :
  ts !! t = Some tb -> shrinks ts (clear_table fk t tb ts).
Proof.
  intros Ht. unfold clear_table.
  assert (H0 : shrinks ts (<[t := mkTable (t_spec tb) []]> ts)).
  { apply shrinks_insert; [done|]. apply sublist_nil_l. }
  destruct fk; [|done]. eapply shrinks_trans; [exact H0|apply cascade_shrinks].
Qed.

Lemma exec_delete_store fk t st st' :
  exec_delete fk t st = Ok st' ->
  ∃ tb, tables st !! t = Some tb
        ∧ st' = mkStore (clear_table fk t tb (tables st)) (indexes st).
Proof.
  unfold exec_delete. destruct (tables st !! t) as [tb|]; [|done].
  intros [= <-]. by exists tb.
Qed.

Lemma exec_insert_store fk now t cols r st st' :
  exec_insert fk now t cols r st = Ok st' ->
  ∃ tb, tables st !! t = Some tb
        ∧ st' = mkStore (<[t := mkTable (t_spec tb)
                                  (t_rows tb ++ [new_row (t_spec tb) now cols r])]> (tables st))
                        (indexes st)
        ∧ not_null_ok (t_spec tb) (new_row (t_spec tb) now cols r) = true
        ∧ checks_ok (t_spec tb) (new_row (t_spec tb) now cols r) = true
        ∧ primary_key_ok (t_spec tb) (t_rows tb) (new_row (t_spec tb) now cols r) = true
        ∧ (fk = true ->
           foreign_keys_ok (t_spec tb) (tables st') (new_row (t_spec tb) now cols r) = true).
Proof.
  unfold exec_insert. destruct (tables st !! t) as [tb|]; [|done].
  destruct (filter _ cols); [|done].
  destruct (not_null_ok _ _) eqn:H1; [|done]. simpl.
  destruct (checks_ok _ _) eqn:H2; [|done]. simpl.
  destruct (primary_key_ok _ _ _) eqn:H3; [|done]. simpl.
  destruct fk; simpl.
  - destruct (foreign_keys_ok _ _ _) eqn:H4; [|done]. simpl.
    intros [= <-]. exists tb. done.
  - intros [= <-]. exists tb. done.
Qed.

Lemma insert_rows_store h t cols :
  ∀ rs w c,
    connections w !! h = Some c -> is_open c = true ->
    ∃ c' evs,
      is_open c' = true ∧ foreign_keys c' = foreign_keys c
      ∧ for_each rs (fun r => execute h (INSERT t cols r);; ret ()) w
        = (match insert_all (foreign_keys c) (clock w) t cols rs
                   (default (disk w) (pending c)) with
           | Ok _ => Ok ()
           | Raise e => Raise e
           end, advance h c' (disk w) [] evs w)
      ∧ ∀ st, insert_all (foreign_keys c) (clock w) t cols rs (default (disk w) (pending c))
              = Ok st -> default (disk w) (pending c') = st.
Proof.
  induction rs as [|x rs IH]; intros w c Hc Ho.
  - exists c, []. simpl. unfold ret. rewrite (advance_id _ _ _ Hc).
    split; [done|]. split; [done|]. split; [done|]. by intros st [= <-].
  - simpl. rewrite bind_void. unfold bind at 1.
    rewrite (execute_eq _ _ _ _ Hc Ho), run_insert.
    destruct (exec_insert _ _ _ _ _ _) as [st|e] eqn:Hins; simpl.
    + set (c1 := mkConn (is_open c) (foreign_keys c) (Some st)).
      set (w1 := advance h c1 (disk w) [] _ w).
      assert (Hc1 : connections w1 !! h = Some c1) by by eapply advance_session.
      destruct (IH w1 c1 Hc1 Ho) as (c' & evs & Ho' & Hfk & Heq & Hst).
      simpl in Heq, Hst. rewrite Heq. subst w1. rewrite advance_advance.
      exists c'. eexists. split; [done|]. split; [done|]. split; [reflexivity|done].
    + eexists _, _. split; [|split; [|split; [reflexivity|done]]]; done.
Qed.

Lemma to_sql_store h t df w tb :
  connections w !! h = Some (mkConn true true None) ->
  tables (disk w) !! t = Some tb ->
  ∃ evs,
    to_sql df t h w
    = match insert_all true (clock w) t (columns df) (rows df) (disk w) with
      | Ok st => (Ok (), advance h (mkConn true true None) st [] evs w)
      | Raise e => (Raise e, advance h (mkConn true true None) (disk w) [] evs w)
      end.
Proof.
  intros Hc Htb. unfold to_sql. unfold bind at 1.
  rewrite (execute_eq _ _ _ _ Hc eq_refl). unfold run. simpl. rewrite Htb. simpl.
  unfold bind at 1. unfold ret at 1.
  set (w1 := advance h _ (disk w) [] _ w).
  assert (Hc1 : connections w1 !! h = Some (mkConn true true None)) by by eapply advance_session.
  destruct (rows df) as [|x rs] eqn:Hrows.
  - simpl. unfold ret. by eexists.
  - rewrite <- Hrows. unfold insert_rows.
    destruct (insert_rows_store h t (columns df) (rows df) w1 _ Hc1 eq_refl)
      as (c' & evs & Ho' & Hfk & Heq & Hst).
    simpl in Heq, Hfk, Hst. rewrite Heq.
    destruct (insert_all true (clock w) t (columns df) (rows df) (disk w)) as [st|e].
    + specialize (Hst st eq_refl). subst w1. rewrite advance_advance. simpl.
      set (w2 := advance h c' (disk w) [] _ w).
      assert (Hc2 : connections w2 !! h = Some c') by by eapply advance_session.
      rewrite (commit_eq _ _ _ Hc2 Ho'). subst w2. rewrite advance_advance, Hfk. simpl.
      rewrite Hst. by eexists.
    + subst w1. rewrite advance_advance. simpl.
      set (w2 := advance h c' (disk w) [] _ w).
      assert (Hc2 : connections w2 !! h = Some c') by by eapply advance_session.
      unfold bind. rewrite (rollback_eq _ _ _ Hc2 Ho'). unfold raise.
      subst w2. rewrite advance_advance, Hfk. simpl. by eexists.
Qed.

(** The [with] block of a load, as to what it returns and what it leaves
    committed: a reference query that fails stops it before anything is
    deleted; otherwise it is [replaced] on the rows that pass the filters. *)
Lemma replace_rows_store h t fks df w :
  connections w !! h = Some (mkConn true true None) ->
  ∃ r d' out evs,
    with_ h (replace_rows h t fks df) w = (r, advance h (mkConn true true None) d' out evs w)
    ∧ ((∃ e, r = Raise e ∧ d' = disk w
             ∧ ∃ col q, (col, q) ∈ fks ∧ col ∈ columns df ∧ column_values q (disk w) = None)
       ∨ (r, d') = replaced (clock w) t
                     (mkDF (columns df) (filter (passes (disk w) (columns df) fks) (rows df)))
                     (disk w)).
Proof.
  intros Hc. unfold with_, replace_rows.
  destruct (filter_foreign_keys_spec h t fks df w _ Hc eq_refl)
    as (r1 & out1 & evs1 & Heq1 & _ & _ & Hok1 & Htot1).
  simpl in Hok1, Htot1.
  destruct r1 as [df2|e].
  2:{ rewrite (bind_raise _ _ _ _ _ Heq1). unfold bind.
      erewrite rollback_eq by (session Hc). unfold raise.
      rewrite advance_advance. simpl.
      eexists (Raise e), _, _, _. split; [reflexivity|]. left. exists e.
      split; [done|]. split; [done|].
      destruct (decide (Exists (fun cq => cq.1 ∈ columns df ∧ column_values cq.2 (disk w) = None)
                               fks)) as [Hex|Hno].
      - apply Exists_exists in Hex as ([col q] & Hin & Hcol & Hq). by exists col, q.
      - destruct Htot1 as [df' [=]]. intros col q Hin Hcol.
        destruct (column_values q (disk w)) eqn:Hq; [done|].
        destruct Hno. apply Exists_exists. by exists (col, q). }
  destruct (Hok1 df2 eq_refl) as (Hcols2 & Hrows2 & _).
  assert (Hdf2 : df2 = mkDF (columns df) (filter (passes (disk w) (columns df) fks) (rows df))).
  { destruct df2. simpl in *. by subst. }
  rewrite <- Hdf2.
  rewrite (bind_ok _ _ _ _ _ Heq1). unfold bind at 1.
  erewrite execute_eq by (session Hc). rewrite run_delete. simpl.
  unfold replaced.
  destruct (exec_delete true t (disk w)) as [st1|e] eqn:Hdel; simpl.
  2:{ unfold bind. erewrite rollback_eq by (session Hc). unfold raise.
      rewrite !advance_advance. simpl.
      eexists (Raise e), _, _, _. split; [reflexivity|]. by right. }
  apply exec_delete_ok in Hdel as (tb & Htb & Hst1).
  unfold bind at 1. erewrite commit_eq by (session Hc). simpl.
  rewrite !advance_advance. simpl. unfold bind at 1.
  match goal with |- context [to_sql df2 t h ?w3] =>
    destruct (to_sql_store h t df2 w3 (mkTable (t_spec tb) [])) as (evs3 & Heq3);
      [session Hc|exact Hst1|]
  end.
  rewrite Heq3. simpl.
  destruct (insert_all true (clock w) t (columns df2) (rows df2) st1) as [st2|e].
  - rewrite advance_advance. simpl.
    unfold bind at 1. erewrite print_eq by (session Hc). simpl.
    rewrite advance_advance. simpl.
    erewrite commit_eq by (session Hc). simpl.
    rewrite advance_advance. simpl.
    unfold bind. erewrite commit_eq by (session Hc). simpl. unfold ret.
    rewrite advance_advance. simpl.
    eexists (Ok ()), _, _, _. split; [reflexivity|]. by right.
  - rewrite advance_advance. simpl.
    unfold bind. erewrite rollback_eq by (session Hc). simpl. unfold raise.
    rewrite advance_advance. simpl.
    eexists (Raise e), _, _, _. split; [reflexivity|]. by right.
Qed.

Section LoadStore.

Variable to_datetime : list value -> option (list (option datetime)).

(** What a load returns and what it leaves committed. *)
Lemma load_store t p dc fks w r w' :
  load_data_from_csv to_datetime t p dc fks w = (r, w') ->
  (disk w' = disk w ∧ (r = Ok () -> files w !! p = None))
  ∨ ∃ df df1 df2,
      files w !! p = Some (Csv df)
      ∧ deduplicated t df = Ok df1
      ∧ convert_dates to_datetime dc df1 = Ok df2
      ∧ (r, disk w')
        = replaced (clock w) t
            (mkDF (columns df) (filter (passes (disk w) (columns df) fks) (rows df2)))
            (disk w).
Proof.
  intros Hload.
  destruct (load_cases to_datetime t p dc fks w) as (r0 & w0 & Hload0 & Hcases).
  rewrite Hload in Hload0. injection Hload0 as <- <-.
  destruct Hcases as [(out & -> & Hok & _)|Hrun].
  { left. split; [done|]. intros Hr. by apply Hok. }
  destruct Hrun as (df & df1 & df2 & out1 & d' & out & evs & Hfile & _ & Hdf1 & Hdf2
                    & Hwith & _).
  pose proof (deduplicated_columns _ _ _ Hdf1) as Hc1.
  pose proof (converted_columns _ _ _ _ Hdf2) as Hc2. rewrite Hc1 in Hc2.
  set (W := say ([Loading t p] ++ out1) w) in *.
  destruct (replace_rows_store (length (connections w)) t fks df2 (connected W)
              (connected_session W))
    as (r' & d2 & out2 & evs2 & Heq & Hcase).
  rewrite Hwith in Heq. injection Heq as -> ->.
  destruct Hcase as [(e & -> & -> & _)|Hrep].
  - left. split; [done|]. done.
  - right. exists df, df1, df2. rewrite Hc2 in Hrep. done.
Qed.

End LoadStore.

Lemma foreign_keys_ok_mono spec ts ts' r :
  (∀ t tb, ts !! t = Some tb -> ∃ tb', ts' !! t = Some tb' ∧ t_rows tb ⊆ t_rows tb') ->
  foreign_keys_ok spec ts r = true -> foreign_keys_ok spec ts' r = true.
Proof.
  intros Hgrow. unfold foreign_keys_ok. rewrite !forallb_forall.
  intros H fk Hfk. specialize (H fk Hfk).
  apply orb_true_iff in H as [H|H]; [by rewrite H|].
  apply orb_true_iff. right.
  destruct (ts !! fk_table fk) as [parent|] eqn:Hp; [|done].
  destruct (Hgrow _ _ Hp) as (parent' & -> & Hsub).
  apply bool_decide_eq_true_1 in H. apply bool_decide_eq_true_2.
  apply list_elem_of_fmap in H as (x & Hx & Hin). apply list_elem_of_fmap.
  exists x. split; [done|]. by apply Hsub.
Qed.

Lemma keys_distinct_snoc pk rs r :
  pk ≠ [] -> keys_distinct pk rs ->
  bool_decide (pk = [] ∨ NA ∈ key_of pk r ∨ key_of pk r ∉ map (key_of pk) rs) = true ->
  keys_distinct pk (rs ++ [r]).
Proof.
  intros Hpk Hrs Hok%bool_decide_eq_true_1 i j r1 r2 Hij H1 H2 Hna.
  destruct (decide (j < length rs)) as [Hj|Hj].
  - rewrite lookup_app_l in H1 by lia. rewrite lookup_app_l in H2 by lia.
    exact (Hrs i j r1 r2 Hij H1 H2 Hna).
  - assert (j = length rs) as ->.
    { apply lookup_lt_Some in H2. rewrite length_app in H2. simpl in H2. lia. }
    rewrite list_lookup_middle in H2 by done. injection H2 as <-.
    rewrite lookup_app_l in H1 by lia.
    destruct Hok as [?|[?|Hnew]]; [done|done|].
    intros Heq. apply Hnew. rewrite <- Heq. apply list_elem_of_fmap.
    exists r1. split; [done|]. by eapply list_elem_of_lookup_2.
Qed.

(** The rows that went in, one by one: the table holds them after the rows
    it had, every other table is as it was, and each of them met the
    constraints of the table when it went in. *)
Lemma insert_all_store now t cols :
  ∀ rs st st' tb,
    tables st !! t = Some tb ->
    insert_all true now t cols rs st = Ok st' ->
    let news := map (new_row (t_spec tb) now cols) rs in
    indexes st' = indexes st
    ∧ tables st' = <[t := mkTable (t_spec tb) (t_rows tb ++ news)]> (tables st)
    ∧ Forall (meets_constraints (t_spec tb) (tables st')) news
    ∧ (t_primary_key (t_spec tb) ≠ [] ->
       keys_distinct (t_primary_key (t_spec tb)) (t_rows tb) ->
       keys_distinct (t_primary_key (t_spec tb)) (t_rows tb ++ news)).
Proof.
  induction rs as [|x rs IH]; intros st st' tb Htb Hins; simpl in *.
  - injection Hins as <-. split; [done|]. split; [|split; [done|]].
    + rewrite app_nil_r. destruct tb. simpl. by rewrite insert_id.
    + by rewrite app_nil_r.
  - destruct (exec_insert true now t cols x st) as [st1|e] eqn:H1; [|done].
    apply exec_insert_store in H1 as (tb0 & Htb0 & -> & Hnn & Hck & Hpk & Hfk).
    rewrite Htb in Htb0. injection Htb0 as <-. specialize (Hfk eq_refl). simpl in Hfk.
    edestruct (IH _ st' _ (lookup_insert_eq _ _ _) Hins) as (Hidx & Hts & Hall & Hkeys).
    simpl in Hidx, Hts, Hall, Hkeys.
    rewrite insert_insert_eq, <- app_assoc in Hts. simpl in Hts.
    split; [done|]. split; [done|]. split.
    + constructor; [|done]. split; [done|]. split; [done|].
      eapply foreign_keys_ok_mono; [|exact Hfk]. rewrite Hts.
      intros t' tb' Ht'. destruct (decide (t' = t)) as [->|Hne].
      * rewrite lookup_insert_eq in Ht'. injection Ht' as <-.
        rewrite lookup_insert_eq. eexists. split; [done|]. simpl.
        intros y Hy. rewrite elem_of_app in Hy. rewrite elem_of_app.
        destruct Hy as [?|Hy]; [by left|]. right.
        apply list_elem_of_singleton in Hy as ->. by left.
      * rewrite lookup_insert_ne in Ht' by done. rewrite lookup_insert_ne by done. eauto.
    + intros Hne Hold. rewrite <- app_assoc in Hkeys. apply Hkeys; [done|].
      apply keys_distinct_snoc; done.
Qed.

Lemma keys_distinct_nil pk : keys_distinct pk [].
Proof. by intros i j r1 r2 _ H. Qed.

Section Loads.

Variable to_datetime : list value -> option (list (option datetime)).


(** X2: whatever its outcome, a load creates, drops or redeclares no table and
    no index, and in every table but its own rows can only go (a cascading
    delete takes them), not come nor change. *)
Theorem load_changes_rows_only t p dc fks w r w' :
  bare_name t = true ->
  load_data_from_csv to_datetime t p dc fks w = (r, w') ->
  indexes (disk w') = indexes (disk w)
  ∧ match tables (disk w) !! t, tables (disk w') !! t with
    | Some tb, Some tb' => t_spec tb' = t_spec tb
    | None, None => True
    | _, _ => False
    end
  ∧ shrinks (delete t (tables (disk w))) (delete t (tables (disk w'))).
Proof.
  intros _ Hload.
  assert (Hsame : disk w' = disk w ->
            indexes (disk w') = indexes (disk w)
            ∧ match tables (disk w) !! t, tables (disk w') !! t with
              | Some tb, Some tb' => t_spec tb' = t_spec tb
              | None, None => True
              | _, _ => False
              end
            ∧ shrinks (delete t (tables (disk w))) (delete t (tables (disk w')))).
  { intros ->. split; [done|]. split; [by destruct (tables (disk w) !! t)|].
    apply shrinks_refl. }
  destruct (load_store to_datetime _ _ _ _ _ _ _ Hload)
    as [[Hd _]|(df & df1 & df2 & _ & _ & _ & Hrep)]; [by apply Hsame|].
  unfold replaced in Hrep.
  destruct (exec_delete true t (disk w)) as [st1|e] eqn:Hdel.
  2:{ injection Hrep as _ Hd. by apply Hsame. }
  apply exec_delete_store in Hdel as (tb & Htb & Hst1).
  assert (Hidx : indexes st1 = indexes (disk w)) by by rewrite Hst1.
  assert (Hcl : tables st1 !! t = Some (mkTable (t_spec tb) [])).
  { rewrite Hst1. apply clear_table_lookup. }
  assert (Hsh : shrinks (delete t (tables (disk w))) (delete t (tables st1))).
  { rewrite Hst1. intros t'. destruct (decide (t' = t)) as [->|Hne].
    - by rewrite !lookup_delete_eq.
    - rewrite !lookup_delete_ne by done. by apply clear_table_shrinks. }
  clear Hst1. rewrite Htb.
  destruct (insert_all _ _ _ _ _ _) as [st2|e] eqn:Hins.
  - injection Hrep as _ ->.
    destruct (insert_all_store _ _ _ _ _ _ _ Hcl Hins) as (Hidx2 & Hts & _).
    split; [congruence|]. split.
    + by rewrite Hts, lookup_insert_eq.
    + by rewrite Hts, delete_insert_eq.
  - injection Hrep as _ ->. split; [done|]. split; [|done]. by rewrite Hcl.
Qed.

(** X3: a load that goes through deletes in cascade: of a table that declares
    a foreign key to the loaded one, no row is left that referenced a row the
    loaded table held before, whether or not the new rows carry the same keys. *)
Theorem load_cascades_to_children t p dc fks w w' df child tbc fk :
  bare_name t = true ->
  files w !! p = Some (Csv df) ->
  load_data_from_csv to_datetime t p dc fks w = (Ok (), w') ->
  child ≠ t ->
  tables (disk w) !! child = Some tbc ->
  fk ∈ t_foreign_keys (t_spec tbc) ->
  fk_table fk = t ->
  ∃ tb tbc',
    tables (disk w) !! t = Some tb
    ∧ tables (disk w') !! child = Some tbc'
    ∧ t_spec tbc' = t_spec tbc
    ∧ t_rows tbc' `sublist_of` t_rows tbc
    ∧ Forall (fun r => ¬ references fk (t_rows tb) r) (t_rows tbc').
Proof.
  intros _ Hfile Hload Hne Hchild Hfk Hparent.
  destruct (load_store to_datetime _ _ _ _ _ _ _ Hload)
    as [[_ Hskip]|(df0 & df1 & df2 & _ & _ & _ & Hrep)].
  { rewrite Hskip in Hfile; done. }
  unfold replaced in Hrep.
  destruct (exec_delete true t (disk w)) as [st1|e] eqn:Hdel; [|done].
  apply exec_delete_store in Hdel as (tb & Htb & ->).
  pose proof (clear_table_lookup true t tb (tables (disk w))) as Hcl.
  destruct (insert_all _ _ _ _ _ _) as [st2|e] eqn:Hins; [|done].
  injection Hrep as ->.
  destruct (insert_all_store _ _ _ _ (mkStore _ _) _ _ Hcl Hins) as (_ & Hts & _). simpl in Hts.
  pose proof (clear_table_shrinks true t tb _ Htb child) as Hsh.
  rewrite Hchild in Hsh.
  destruct (clear_table true t tb (tables (disk w)) !! child) as [tbc'|] eqn:Hc'; [|done].
  destruct Hsh as [Hspec Hsub].
  exists tb, tbc'. split; [done|]. split.
  { by rewrite Hts, lookup_insert_ne. }
  split; [done|]. split; [done|].
  apply Forall_forall. intros r Hr.
  unfold clear_table in Hc'.
  eapply cascade_reaches; [|exact Hc'|exact Hr].
  apply elem_of_child_links. exists tbc. split; [|done].
  by rewrite lookup_insert_ne.
Qed.

(** X4: the rows a load has put into its table meet what the table declares:
    NOT NULL, CHECK, a parent for every foreign key, and a primary key no
    other row of the table carries. *)
Theorem loaded_rows_meet_constraints t p dc fks w w' df :
  bare_name t = true ->
  files w !! p = Some (Csv df) ->
  load_data_from_csv to_datetime t p dc fks w = (Ok (), w') ->
  ∃ tb,
    tables (disk w') !! t = Some tb
    ∧ Forall (meets_constraints (t_spec tb) (tables (disk w'))) (t_rows tb)
    ∧ (t_primary_key (t_spec tb) ≠ [] ->
       keys_distinct (t_primary_key (t_spec tb)) (t_rows tb)).
Proof.
  intros _ Hfile Hload.
  destruct (load_store to_datetime _ _ _ _ _ _ _ Hload)
    as [[_ Hskip]|(df0 & df1 & df2 & _ & _ & _ & Hrep)].
  { rewrite Hskip in Hfile; done. }
  unfold replaced in Hrep.
  destruct (exec_delete true t (disk w)) as [st1|e] eqn:Hdel; [|done].
  apply exec_delete_store in Hdel as (tb & Htb & ->).
  pose proof (clear_table_lookup true t tb (tables (disk w))) as Hcl.
  destruct (insert_all _ _ _ _ _ _) as [st2|e] eqn:Hins; [|done].
  injection Hrep as ->.
  destruct (insert_all_store _ _ _ _ (mkStore _ _) _ _ Hcl Hins) as (_ & Hts & Hall & Hkeys).
  simpl in Hts, Hall, Hkeys.
  eexists. split; [by rewrite Hts, lookup_insert_eq|]. simpl. split; [done|].
  intros Hpk. apply Hkeys; [done|]. apply keys_distinct_nil.
Qed.

(** X5: a load that raises leaves the committed store as it was, or as the
    DELETE left it, with its table empty: never with some of the incoming rows
    in. *)
Theorem failed_load_inserts_nothing t p dc fks w e w' :
  bare_name t = true ->
  load_data_from_csv to_datetime t p dc fks w = (Raise e, w') ->
  disk w' = disk w
  ∨ (exec_delete true t (disk w) = Ok (disk w') ∧ rows_of t (disk w') = Some []).
Proof.
  intros _ Hload.
  destruct (load_store to_datetime _ _ _ _ _ _ _ Hload)
    as [[-> _]|(df0 & df1 & df2 & _ & _ & _ & Hrep)]; [by left|].
  unfold replaced in Hrep.
  destruct (exec_delete true t (disk w)) as [st1|e1] eqn:Hdel.
  2:{ injection Hrep as _ ->. by left. }
  destruct (insert_all _ _ _ _ _ _) as [st2|e2] eqn:Hins; [done|].
  injection Hrep as _ ->. right. split; [done|].
  apply exec_delete_ok in Hdel as (tb & _ & Ht). unfold rows_of. by rewrite Ht.
Qed.

End Loads.

(** ** Duplicates and sources that cannot be read *)

Lemma KeepFirst_subset `{EqDecision K} (key : gmap string value -> K) l k :
  KeepFirst key l k -> k ⊆ l.
Proof.
  induction 1 as [|r rs kept _ IH]; [done|].
  intros x [->|Hx]%elem_of_cons; [by left|]. right.
  apply IH in Hx. by apply list_elem_of_filter in Hx as [_ ?].
Qed.

Lemma KeepFirst_fixed `{EqDecision K} (key : gmap string value -> K) l k :
  KeepFirst key l k -> KeepFirst key k k.
Proof.
  induction 1 as [|r rs kept Hk IH]; constructor.
  rewrite filter_all; [done|].
  intros x Hx. apply (KeepFirst_subset _ _ _ Hk) in Hx.
  by apply list_elem_of_filter in Hx as [? _].
Qed.

(** X6: a table that [PRIMARY_KEYS] does not list has its duplicates counted
    on whole rows and reported, and keeps them: the frame goes on as it came. *)
Theorem undeclared_key_keeps_duplicates t df w :
  PRIMARY_KEYS !! t = None ->
  ∃ kept hd,
    KeepFirst (key_of (columns df)) (rows df) kept
    ∧ deduplicate t df w
      = (Ok df,
         say (if length (rows df) - length kept =? 0 then []
              else [FoundDuplicates (length (rows df) - length kept) t;
                    DuplicateValues hd]) w)
    ∧ deduplicated t df = Ok df.
Proof.
  intros HK. exists (unmarked (columns df) [] (rows df)). eexists.
  split; [apply unmarked_keep_first|]. split; [|unfold deduplicated; by rewrite HK].
  unfold deduplicate. rewrite HK, duplicated_all_columns.
  unfold bind at 1. unfold lift at 1.
  pose proof (unmarked_length (columns df) [] (rows df)) as Hlen.
  set (mask := duplicated_from [] (map (key_of (columns df)) (rows df))) in *.
  replace (length (rows df) - length (unmarked (columns df) [] (rows df)))
    with (mask_sum mask) by lia.
  rewrite any_mask_sum.
  destruct (mask_sum mask =? 0) eqn:E; simpl; unfold bind, print, ret; simpl.
  - by rewrite say_nil.
  - by rewrite say_say.
Qed.

(** X7: a frame that has been through the deduplication goes through it again
    as it is, and without a warning. *)
Theorem deduplicate_twice t K df df1 w :
  PRIMARY_KEYS !! t = Some K ->
  deduplicated t df = Ok df1 ->
  deduplicate t df1 w = (Ok df1, w).
Proof.
  intros HK Hdf1.
  pose proof (PRIMARY_KEYS_nonempty _ _ HK) as Hne.
  assert (Hsub : K ⊆ columns df ∧ df1 = mkDF (columns df) (unmarked K [] (rows df))).
  { unfold deduplicated in Hdf1. rewrite HK in Hdf1. destruct K as [|c K]; [done|].
    unfold drop_duplicates, duplicated in Hdf1. simpl in Hdf1.
    destruct (filter (fun c0 => c0 ∉ columns df) (c :: K)) as [|m ms] eqn:Hf; [|done].
    injection Hdf1 as <-. split; [|done].
    intros x Hx. destruct (decide (x ∈ columns df)) as [|Hn]; [done|].
    assert (x ∈ filter (fun c0 => c0 ∉ columns df) (c :: K)) by by apply list_elem_of_filter.
    rewrite Hf in H. by apply elem_of_nil in H. }
  destruct Hsub as [Hsub ->].
  pose proof (deduplicate_keyed t K (mkDF (columns df) (unmarked K [] (rows df))) w HK Hsub)
    as Hded.
  cbv zeta in Hded. cbn [rows columns] in Hded. rewrite Hded.
  assert (Hfix : unmarked K [] (unmarked K [] (rows df)) = unmarked K [] (rows df)).
  { eapply KeepFirst_unique; [apply unmarked_keep_first|].
    eapply KeepFirst_fixed, unmarked_keep_first. }
  rewrite Hfix, Nat.sub_diag. simpl. by rewrite say_nil.
Qed.

Section UnusableSources.

Variable to_datetime : list value -> option (list (option datetime)).

(** X8: a source without any column, or one that lacks a column of the primary
    key, stops the load with an error right after the line that announces it:
    no connection is opened, no statement is run, nothing is deleted. *)
Theorem unusable_source_is_fatal t p dc fks w :
  (files w !! p = Some Blank
   ∨ ∃ df K, files w !! p = Some (Csv df) ∧ PRIMARY_KEYS !! t = Some K ∧ ¬ K ⊆ columns df) ->
  ∃ e,
    load_data_from_csv to_datetime t p dc fks w = (Raise e, say [Loading t p] w)
    ∧ (files w !! p = Some Blank -> e = EmptyDataError)
    ∧ (∀ df K, files w !! p = Some (Csv df) -> PRIMARY_KEYS !! t = Some K ->
         ∃ missing, e = KeyError missing ∧ missing ≠ []
                    ∧ ∀ c, c ∈ missing ↔ c ∈ K ∧ c ∉ columns df).
Proof.
  intros [Hfile|(df & K & Hfile & HK & Hsub)];
    unfold load_data_from_csv, exists_; unfold bind at 1;
    rewrite Hfile, bool_decide_eq_true_2 by eauto; simpl;
    unfold bind at 1; unfold print at 1; unfold bind at 1; unfold read_csv at 1;
    simpl; rewrite Hfile.
  - eexists. split; [reflexivity|]. split; [done|]. by intros df K [=].
  - destruct (filter (fun c => c ∉ columns df) K) as [|m ms] eqn:Hf.
    { destruct Hsub. intros x Hx. destruct (decide (x ∈ columns df)) as [|Hn]; [done|].
      assert (x ∈ filter (fun c0 => c0 ∉ columns df) K) by by apply list_elem_of_filter.
      rewrite Hf in H. by apply elem_of_nil in H. }
    exists (KeyError (m :: ms)). split; [|split; [done|]].
    + unfold bind at 1. unfold deduplicate. rewrite HK.
      unfold bind at 1. unfold lift at 1. unfold duplicated.
      change (default (columns df) (Some K)) with K. by rewrite Hf.
    + intros df' K' [= <-] HK'. rewrite HK in HK'. injection HK' as <-.
      exists (m :: ms). split; [done|]. split; [done|].
      intros c. rewrite <- Hf, list_elem_of_filter. tauto.
Qed.

End UnusableSources.

(** ** Schema creation on a database that has tables *)












(** ** The verification report *)

Lemma compare_total : Total (fun a b : string => String.compare a b ≠ Gt).
Proof.
  intros a b. destruct (String.compare a b) eqn:E; [by left|by left|].
  right. rewrite String.compare_antisym, E. done.
Qed.

Lemma elem_of_user_tables_ordered t st :
  t ∈ user_tables true st ↔ like_sqlite_ t = false ∧ is_Some (tables st !! t).
Proof.
  rewrite <- elem_of_user_tables. unfold user_tables.
  by rewrite merge_sort_Permutation.
Qed.

Lemma counts_spec h names :
  ∀ w,
    connections w !! h = Some (mkConn true true None) ->
    (∀ t, t ∈ names -> is_Some (tables (disk w) !! t)) ->
    for_each (map (fun n => [Str n]) names) (fun row =>
      answer ← execute h (SELECT_count (text (row0 row)));
      print (RowCount (text (row0 row)) (row0 (default [] (head answer))))) w
    = (Ok (), advance h (mkConn true true None) (disk w)
                (map (fun t => RowCount t
                        (num (Z.of_nat (length (default [] (rows_of t (disk w))))))) names)
                (map (fun t => Executed h true (SELECT_count t)) names) w).
Proof.
  induction names as [|n names IH]; intros w Hc Hin; simpl.
  - unfold ret. by rewrite (advance_id _ _ _ Hc).
  - unfold bind at 1. unfold bind at 1.
    rewrite (execute_eq _ _ _ _ Hc eq_refl). unfold run. simpl.
    destruct (Hin n) as [tb Htb]; [by left|]. rewrite Htb. simpl.
    erewrite say_advance by (session Hc). rewrite advance_advance. simpl.
    erewrite IH; [|session Hc|].
    + rewrite advance_advance. simpl. unfold rows_of. rewrite Htb. done.
    + intros t Ht. simpl. apply Hin. by right.
Qed.

Lemma verify_tables_run w :
  ∃ w',
    verify_tables w = (Ok (), w')
    ∧ console w'
      = console w
        ++ TableVerification
           :: map (fun t => RowCount t
                     (num (Z.of_nat (length (default [] (rows_of t (disk w)))))))
                  (user_tables true (disk w))
    ∧ disk w' = disk w ∧ files w' = files w.
Proof.
  unfold verify_tables. unfold bind at 1. rewrite connect_eq. fold (connected w).
  set (h := length (connections w)).
  pose proof (connected_session w) as Hc. fold h in Hc.
  unfold with_. unfold bind at 1.
  erewrite execute_eq by (session Hc). unfold run at 1 2 3. simpl.
  unfold bind at 1. erewrite print_eq by (session Hc). rewrite advance_advance. simpl.
  erewrite counts_spec; [|session Hc|].
  2:{ intros t Ht. simpl. by apply elem_of_user_tables_ordered in Ht as [_ ?]. }
  rewrite advance_advance. simpl.
  unfold bind. erewrite commit_eq by (session Hc). unfold ret. simpl.
  eexists. split; [reflexivity|]. simpl.
  split; [by rewrite !app_nil_r|]. done.
Qed.

(** X10: [verify_tables] prints its heading and then, for each user table in
    the order of the names, the number of rows the table holds; it changes
    nothing in the database. Stated for tables whose names can stand bare in
    the SELECT COUNT. *)
Theorem verify_tables_reports w :
  Forall (fun t => bare_name t = true) (user_tables true (disk w)) ->
  ∃ w',
    verify_tables w = (Ok (), w')
    ∧ console w'
      = console w
        ++ TableVerification
           :: map (fun t => RowCount t
                     (num (Z.of_nat (length (default [] (rows_of t (disk w)))))))
                  (user_tables true (disk w))
    ∧ disk w' = disk w
    ∧ Sorted (fun a b => String.compare a b ≠ Gt) (user_tables true (disk w))
    ∧ ∀ t, t ∈ user_tables true (disk w)
           ↔ like_sqlite_ t = false ∧ is_Some (tables (disk w) !! t).
Proof.
  intros _. destruct (verify_tables_run w) as (w' & Heq & Hco & Hd & _).
  exists w'. split; [done|]. split; [done|]. split; [done|].
  split; [|intros t; apply elem_of_user_tables_ordered].
  unfold user_tables. apply Sorted_merge_sort. apply compare_total.
Qed.

(** ** Sessions and the connections of a run *)














Section Run.

Variable to_datetime : list value -> option (list (option datetime)).












End Run.

(** ** Closing, and a run without extracts *)



Section IdleRun.

Variable to_datetime : list value -> option (list (option datetime)).



End IdleRun.

(** ** What deduplication leaves *)

Lemma KeepFirst_keys `{EqDecision K} (key : gmap string value -> K) l k :
  KeepFirst key l k ->
  NoDup (map key k) ∧ (∀ r, r ∈ l -> key r ∈ map key k) ∧ k `sublist_of` l.
Proof.
  induction 1 as [|r rs kept Hk (Hnd & Hcov & Hsub)].
  - split; [constructor|]. split; [|done]. by intros r Hr%elem_of_nil.
  - split; [|split].
    + simpl. constructor; [|done]. intros Hin%list_elem_of_fmap.
      destruct Hin as (x & Hx & Hin). apply (KeepFirst_subset _ _ _ Hk) in Hin.
      apply list_elem_of_filter in Hin as [Hne _]. by apply Hne.
    + intros x [->|Hx]%elem_of_cons; simpl; [by left|].
      destruct (decide (key x = key r)) as [->|Hne]; [by left|]. right.
      apply Hcov. by apply list_elem_of_filter.
    + constructor. etrans; [exact Hsub|]. apply sublist_filter.
Qed.

(** X15: after the deduplication of a load no two rows carry the same primary
    key, every key of the source is still there, and the rows that are left
    are rows of the source in their order. *)
Theorem deduplicated_keys_are_unique t K df df1 :
  PRIMARY_KEYS !! t = Some K ->
  deduplicated t df = Ok df1 ->
  NoDup (map (key_of K) (rows df1))
  ∧ (∀ r, r ∈ rows df -> key_of K r ∈ map (key_of K) (rows df1))
  ∧ rows df1 `sublist_of` rows df
  ∧ columns df1 = columns df.
Proof.
  intros HK Hdf1. pose proof (PRIMARY_KEYS_nonempty _ _ HK) as Hne.
  unfold deduplicated in Hdf1. rewrite HK in Hdf1. destruct K as [|c K]; [done|].
  unfold drop_duplicates in Hdf1.
  destruct (duplicated (Some (c :: K)) df) as [mask|e] eqn:Hdup; [|done].
  injection Hdf1 as <-. simpl.
  unfold duplicated in Hdup. simpl in Hdup.
  destruct (filter _ (c :: K)); [|done]. injection Hdup as <-.
  fold (unmarked (c :: K) [] (rows df)).
  destruct (KeepFirst_keys _ _ _ (unmarked_keep_first (c :: K) (rows df))) as (? & ? & ?).
  done.
Qed.

(** ** [prepare_data.py] *)

Lemma select_ok cols df :
  cols ⊆ columns df -> select cols df = Ok (mkDF cols (map (project cols) (rows df))).
Proof.
  intros Hsub. unfold select.
  replace (filter (fun c => c ∉ columns df) cols) with (@nil string); [done|].
  symmetry. apply elem_of_nil_inv. intros c [Hc ?]%list_elem_of_filter. apply Hc. auto.
Qed.

Lemma select_raise cols df :
  ¬ cols ⊆ columns df ->
  ∃ missing, select cols df = Raise (KeyError missing)
             ∧ ∀ c, c ∈ missing ↔ c ∈ cols ∧ c ∉ columns df.
Proof.
  intros Hsub. unfold select.
  destruct (filter (fun c => c ∉ columns df) cols) as [|m ms] eqn:Hf.
  - destruct Hsub. intros x Hx. destruct (decide (x ∈ columns df)) as [|Hn]; [done|].
    assert (x ∈ filter (fun c0 => c0 ∉ columns df) cols) by by apply list_elem_of_filter.
    rewrite Hf in H. by apply elem_of_nil in H.
  - exists (m :: ms). split; [done|]. intros c. rewrite <- Hf, list_elem_of_filter. tauto.
Qed.

Lemma cell_project cols c r : c ∈ cols -> cell c (project cols r) = cell c r.
Proof.
  intros Hc. unfold cell, project. destruct (r !! c) as [v|] eqn:Hr.
  - by erewrite map_lookup_filter_Some_2.
  - by rewrite map_lookup_filter_None_2 by auto.
Qed.

Lemma key_of_project cols r : key_of cols (project cols r) = key_of cols r.
Proof.
  unfold key_of. apply map_ext_in. intros c Hc%list_elem_of_In. by apply cell_project.
Qed.

(** [df[cols].drop_duplicates()] *)
Lemma distinct_selection cols df :
  cols ⊆ columns df ->
  ∃ kept,
    (selected ← lift (select cols df); lift (drop_duplicates (columns selected) selected))
    = lift (Ok (mkDF cols kept))
    ∧ KeepFirst (key_of cols) (map (project cols) (rows df)) kept.
Proof.
  intros Hsub. exists (unmarked cols [] (map (project cols) (rows df))).
  split; [|apply unmarked_keep_first].
  unfold bind, lift. rewrite (select_ok _ _ Hsub). simpl.
  unfold drop_duplicates, duplicated. simpl.
  replace (filter (fun c => c ∉ cols) cols) with (@nil string); [done|].
  symmetry. apply elem_of_nil_inv. by intros c [Hc ?]%list_elem_of_filter.
Qed.

Section Prepared.

Variable to_csv : DataFrame -> csv_file.

Lemma selection_run cols path w df :
  files w !! augmented = Some (Csv df) ->
  cols ⊆ columns df ->
  (df ← read_csv augmented;
   selected ← lift (select cols df);
   distinct ← lift (drop_duplicates (columns selected) selected);
   write to_csv path distinct) w
  = write to_csv path (mkDF cols (unmarked cols [] (map (project cols) (rows df)))) w.
Proof.
  intros Hfile Hsub. unfold bind at 1. unfold read_csv at 1. rewrite Hfile.
  unfold bind, lift. rewrite (select_ok _ _ Hsub). simpl.
  unfold drop_duplicates, duplicated. simpl.
  replace (filter (fun c => c ∉ cols) cols) with (@nil string); [done|].
  symmetry. apply elem_of_nil_inv. by intros c [Hc ?]%list_elem_of_filter.
Qed.

(** X16: the functions that prepare the product, warehouse, inventory and
    demand extracts write, of the rows of the source cut down to their
    columns, the first of each kind: no two written rows agree on every
    column, and every row of the source agrees with a written one. *)
Theorem selections_write_distinct_rows f cols path w df :
  (f, cols, path) ∈ selections to_csv ->
  files w !! augmented = Some (Csv df) ->
  cols ⊆ columns df ->
  ∃ kept,
    f w = write to_csv path (mkDF cols kept) w
    ∧ KeepFirst (key_of cols) (map (project cols) (rows df)) kept
    ∧ NoDup (map (key_of cols) kept)
    ∧ ∀ r, r ∈ rows df -> key_of cols r ∈ map (key_of cols) kept.
Proof.
  intros Hin Hfile Hsub.
  exists (unmarked cols [] (map (project cols) (rows df))).
  pose proof (unmarked_keep_first cols (map (project cols) (rows df))) as Hk.
  destruct (KeepFirst_keys _ _ _ Hk) as (Hnd & Hcov & _).
  split; [|split; [done|split; [done|]]].
  - unfold selections in Hin.
    repeat (apply elem_of_cons in Hin as [[= -> -> ->]|Hin];
            [by apply selection_run|]).
    by apply elem_of_nil in Hin.
  - intros r Hr. rewrite <- key_of_project. apply Hcov.
    apply list_elem_of_fmap. by exists r.
Qed.

(** X17: the vendor extract is made the same way and then given the column
    [quality_score], 4.5 in every row. *)
Theorem vendors_get_the_default_score w df :
  files w !! augmented = Some (Csv df) ->
  vendor_columns ⊆ columns df ->
  ∃ kept,
    prepare_vendor_data to_csv w
    = write to_csv "data/derived/vendor_data.csv"
        (mkDF (vendor_columns ++ ["quality_score"])
              (map (fun r => <["quality_score" := dec 9 2]> r) kept)) w
    ∧ KeepFirst (key_of vendor_columns) (map (project vendor_columns) (rows df)) kept
    ∧ Forall (fun r => cell "quality_score" r = dec 9 2)
             (map (fun r => <["quality_score" := dec 9 2]> r) kept).
Proof.
  intros Hfile Hsub.
  exists (unmarked vendor_columns [] (map (project vendor_columns) (rows df))).
  split; [|split; [apply unmarked_keep_first|]].
  - unfold prepare_vendor_data. unfold bind at 1. unfold read_csv at 1. rewrite Hfile.
    unfold bind, lift. fold vendor_columns. rewrite (select_ok _ _ Hsub). simpl.
    unfold drop_duplicates, duplicated. simpl. done.
  - apply Forall_forall. intros r (r0 & -> & _)%list_elem_of_fmap. apply cell_insert.
Qed.

(** X18: the shipment extract keeps the source's rows with an order, in their
    order and without removing duplicates, and puts 'pending' where the status
    is missing: no written row lacks its order or its status, and every other
    cell is the source's. *)
Theorem shipments_have_order_and_status w df :
  files w !! augmented = Some (Csv df) ->
  shipment_columns ⊆ columns df ->
  ∃ written,
    prepare_shipment_data to_csv w
    = write to_csv "data/derived/shipment_data.csv" (mkDF shipment_columns written) w
    ∧ length written = length (filter (fun r => cell "order_id" r ≠ NA) (rows df))
    ∧ Forall2 (fun r r' =>
                 cell "status" r' = match cell "status" r with
                                    | NA => Str "pending"
                                    | v => v
                                    end
                 ∧ ∀ c, c ∈ shipment_columns -> c ≠ "status" -> cell c r' = cell c r)
              (filter (fun r => cell "order_id" r ≠ NA) (rows df)) written
    ∧ Forall (fun r' => cell "order_id" r' ≠ NA ∧ cell "status" r' ≠ NA) written.
Proof.
  intros Hfile Hsub.
  assert (Hst : "status" ∈ shipment_columns) by (unfold shipment_columns; by repeat constructor).
  assert (Hor : "order_id" ∈ shipment_columns) by (unfold shipment_columns; by repeat constructor).
  unfold prepare_shipment_data. unfold bind at 1. unfold read_csv at 1. rewrite Hfile.
  unfold bind, lift. fold shipment_columns. rewrite (select_ok _ _ Hsub).
  cbn [columns dropna]. rewrite bool_decide_eq_true_2 by done.
  unfold assign. cbn [columns rows]. rewrite bool_decide_eq_true_2 by done.
  eexists. split; [reflexivity|].
  unfold series, fillna. cbn [rows].
  set (l := filter (fun r => cell "order_id" r ≠ NA) (rows df)).
  assert (Hsel : filter (fun r => cell "order_id" r ≠ NA)
                        (map (project shipment_columns) (rows df))
                 = map (project shipment_columns) l).
  { unfold l. generalize (rows df). intros l0. induction l0 as [|r l0 IH]; [done|].
    simpl. rewrite !filter_cons.
    rewrite (cell_project shipment_columns "order_id" r) by done.
    case_decide; simpl; by rewrite IH. }
  unfold dropna. cbn [rows]. rewrite Hsel.
  assert (Hl : ∀ r, r ∈ l -> cell "order_id" r ≠ NA).
  { intros r Hr. by apply list_elem_of_filter in Hr as [? _]. }
  clearbody l. clear Hsel.
  assert (Hrow : ∀ i r, l !! i = Some r ->
    imap (fun i r => <["status" := default NA
            (map (fun x => match x with NA => Str "pending" | _ => x end)
                 (map (cell "status") (map (project shipment_columns) l)) !! i)]> r)
         (map (project shipment_columns) l) !! i
    = Some (<["status" := match cell "status" r with
                          | NA => Str "pending"
                          | v => v
                          end]> (project shipment_columns r))).
  { intros i r Hi. rewrite list_lookup_imap, !list_lookup_fmap, Hi. simpl.
    rewrite cell_project by done.
    by destruct (cell "status" r). }
  split; [by rewrite length_imap, length_map|].
  split.
  - apply Forall2_same_length_lookup. split; [by rewrite length_imap, length_map|].
    intros i r r' Hi Hi'. rewrite (Hrow _ _ Hi) in Hi'. injection Hi' as <-.
    split; [apply cell_insert|].
    intros c Hc Hne. rewrite cell_insert_ne by done. by apply cell_project.
  - apply Forall_lookup. intros i r' Hi'.
    destruct (l !! i) as [r|] eqn:Hi.
    2:{ apply lookup_lt_Some in Hi'. rewrite length_imap, length_map in Hi'.
        apply lookup_ge_None in Hi. lia. }
    rewrite (Hrow _ _ Hi) in Hi'. injection Hi' as <-. split.
    + rewrite cell_insert_ne by done.
      rewrite cell_project by done.
      apply Hl. by eapply list_elem_of_lookup_2.
    + rewrite cell_insert. by destruct (cell "status" r).
Qed.

Lemma selection_fails (k : DataFrame -> M unit) cols w :
  (∀ df, files w !! augmented = Some (Csv df) -> ¬ cols ⊆ columns df) ->
  ∃ e,
    (df ← read_csv augmented; selected ← lift (select cols df); k selected) w = (Raise e, w)
    ∧ ∀ df, files w !! augmented = Some (Csv df) ->
        ∃ missing, e = KeyError missing ∧ ∀ c, c ∈ missing ↔ c ∈ cols ∧ c ∉ columns df.
Proof.
  intros Hno. unfold bind at 1. unfold read_csv at 1.
  destruct (files w !! augmented) as [[|df]|] eqn:Hfile.
  - eexists. split; [reflexivity|]. by intros df [=].
  - destruct (select_raise cols df (Hno df eq_refl)) as (missing & Hsel & Hmiss).
    unfold bind, lift. rewrite Hsel. eexists. split; [reflexivity|].
    intros df' [= <-]. by exists missing.
  - eexists. split; [reflexivity|]. by intros df [=].
Qed.

(** X19: a source that is not there, has no column, or lacks a column the
    function asks for stops each of the six functions with an error before it
    has written anything; for a missing column the error is a KeyError that
    names what is missing. *)
Theorem preparation_fails_without_writing f cols w :
  (f, cols) ∈ preparations to_csv ->
  (∀ df, files w !! augmented = Some (Csv df) -> ¬ cols ⊆ columns df) ->
  ∃ e,
    f w = (Raise e, w)
    ∧ ∀ df, files w !! augmented = Some (Csv df) ->
        ∃ missing, e = KeyError missing ∧ ∀ c, c ∈ missing ↔ c ∈ cols ∧ c ∉ columns df.
Proof.
  intros Hin Hno. unfold preparations, selections in Hin. simpl in Hin.
  repeat (apply elem_of_cons in Hin as [[= -> ->]|Hin];
          [by apply (selection_fails _ _ w Hno)|]).
  by apply elem_of_nil in Hin.
Qed.

End Prepared.

(** * Worked examples *)

(** ** The properties at work *)

(** Settles a closed equation, inequation or decidable proposition by
    evaluation. *)
Ltac evaluate :=
  match goal with
  | |- ?a = ?b => apply (bool_decide_eq_true_1 (a = b)); vm_compute; reflexivity
  | |- ?a ≠ ?b => apply (bool_decide_eq_false_1 (a = b)); vm_compute; reflexivity
  | |- ?P => apply (bool_decide_unpack P); vm_compute; exact I
  end.


(** Replace, not merge: after [warehouses_1] and then [warehouses_2] the
    table holds the one row of [warehouses_2]. *)
Example replace_not_merge :
  (load_iso "warehouse" "w2.csv" [] [] w_warehouses_1).1 = Ok ()
  ∧ rows_of "warehouse" (disk w_warehouses_2)
    = Some [ row_of [("warehouse_id", Str "W3"); ("location", Str "Oslo");
                     ("created_at", Str "2024-06-01 12:00:00");
                     ("updated_at", Str "2024-06-01 12:00:00")] ].
Proof. split; evaluate. Qed.

Lemma failed_insert_leaves_table_empty_witness :
  bare_name "vendor" = true
  ∧ load_iso "vendor" "vendors_out_of_range.csv" [] [] w_vendors
  = (Raise (IntegrityError "CHECK constraint failed"), w_vendors_failed)
  ∧ journal w_vendors_failed
    = journal w_vendors ++ drop (length (journal w_vendors)) (journal w_vendors_failed)
  ∧ Exists (inserts_into (length (connections w_vendors)) "vendor")
           (drop (length (journal w_vendors)) (journal w_vendors_failed))
  ∧ rows_of "vendor" (disk w_vendors_failed) = Some []
  ∧ rows_of "vendor" (disk w_vendors_failed) ≠ rows_of "vendor" (disk w_vendors).
Proof.
  assert (H0 : bare_name "vendor" = true) by evaluate.
  assert (H1 : load_iso "vendor" "vendors_out_of_range.csv" [] [] w_vendors
               = (Raise (IntegrityError "CHECK constraint failed"), w_vendors_failed))
    by evaluate.
  assert (H2 : journal w_vendors_failed
               = journal w_vendors
                 ++ drop (length (journal w_vendors)) (journal w_vendors_failed))
    by evaluate.
  assert (H3 : Exists (inserts_into (length (connections w_vendors)) "vendor")
                 (drop (length (journal w_vendors)) (journal w_vendors_failed))).
  { apply Exists_exists.
    exists (Executed (length (connections w_vendors)) true
              (INSERT "vendor" (columns vendors_out_of_range)
                 (row_of [("vendor_id", Str "V2"); ("supplier_name", Str "Bolt");
                          ("defect_rate", dec 3 2)]))).
    split; [evaluate|]. eexists _, _. reflexivity. }
  split; [exact H0|]. split; [exact H1|]. split; [exact H2|]. split; [exact H3|].
  destruct (failed_insert_leaves_table_empty iso_to_datetime _ _ _ _ _ _ _ _ H0 H1 H2 H3)
    as (tb & pre & post & Htb & Hempty & Hgone & _).
  split; [exact Hempty|]. apply Hgone.
  assert (Hrows : t_rows <$> tables (disk w_vendors) !! "vendor" ≠ Some []) by evaluate.
  intros Hnil. apply Hrows. rewrite Htb. simpl. by rewrite Hnil.
Defined.



Lemma duplicates_keep_first_witness :
  PRIMARY_KEYS !! "warehouse" = Some ["warehouse_id"]
  ∧ ["warehouse_id"] ⊆ columns warehouses_1
  ∧ ∃ kept, KeepFirst (key_of ["warehouse_id"]) (rows warehouses_1) kept
            ∧ deduplicated "warehouse" warehouses_1 = Ok (mkDF (columns warehouses_1) kept).
Proof.
  assert (H1 : PRIMARY_KEYS !! "warehouse" = Some ["warehouse_id"]) by evaluate.
  assert (H2 : ["warehouse_id"] ⊆ columns warehouses_1) by evaluate.
  split; [exact H1|]. split; [exact H2|].
  destruct (duplicates_keep_first "warehouse" _ warehouses_1 w_schema H1 H2)
    as (kept & hd & _ & Hkeep & Hded).
  exists kept. split; [exact Hkeep|exact Hded].
Defined.

(** The example of the specification: of the records keyed on [id], the
    first with [id = 1] and the one with [id = 2] stay, and one duplicate is
    counted. *)
Example dedup_keyed_on_id :
  drop_duplicates ["id"] keyed_on_id
  = Ok (mkDF ["id"; "v"] [ row_of [("id", num 1); ("v", Str "a")];
                           row_of [("id", num 2); ("v", Str "c")] ])
  ∧ duplicated (Some ["id"]) keyed_on_id = Ok [false; true; false]
  ∧ mask_sum [false; true; false] = 1.
Proof. repeat (split; [evaluate|]). evaluate. Qed.

(** The same on a load: the console and the table. *)
Example dedup_on_load :
  console w_warehouses_1
  = console w_schema
    ++ [Loading "warehouse" "w1.csv"; FoundDuplicates 1 "warehouse";
        DuplicateValues [row_of [("warehouse_id", Str "W1"); ("location", Str "Paris")]];
        RemovedDuplicates 1 "warehouse" ["warehouse_id"];
        Loaded 2 "warehouse"]
  ∧ rows_of "warehouse" (disk w_warehouses_1)
    = Some [ row_of [("warehouse_id", Str "W1"); ("location", Str "Berlin");
                     ("created_at", Str "2024-06-01 12:00:00");
                     ("updated_at", Str "2024-06-01 12:00:00")];
             row_of [("warehouse_id", Str "W2"); ("location", Str "Rome");
                     ("created_at", Str "2024-06-01 12:00:00");
                     ("updated_at", Str "2024-06-01 12:00:00")] ].
Proof. split; evaluate. Qed.

Lemma orphans_are_filtered_witness :
  connections w_session !! 4 = Some (mkConn true true None)
  ∧ is_open (mkConn true true None) = true
  ∧ (∀ col q, (col, q) ∈ shipment_filters -> col ∈ columns shipments ->
       is_Some (column_values q (default (disk w_session) (pending (mkConn true true None)))))
  ∧ ∃ out evs,
      Forall (fun m => ∃ n col q, m = RemovedMissingFK (S n) "shipment" col
                                  ∧ (col, q) ∈ shipment_filters ∧ col ∈ columns shipments) out
      ∧ (filter_foreign_keys 4 "shipment" shipment_filters shipments w_session).2
        = advance 4 (mkConn true true None) (disk w_session) out evs w_session.
Proof.
  assert (H1 : connections w_session !! 4 = Some (mkConn true true None)) by evaluate.
  assert (H2 : ∀ col q, (col, q) ∈ shipment_filters -> col ∈ columns shipments ->
                 is_Some (column_values q
                            (default (disk w_session) (pending (mkConn true true None))))).
  { intros col q Hin _. apply list_elem_of_singleton in Hin. injection Hin as -> ->.
    assert (H : column_values (mkQuery "po_id" "purchase_order")
                  (default (disk w_session) (pending (mkConn true true None)))
                = Some [Str "P1"]) by evaluate.
    rewrite H. by eexists. }
  split; [exact H1|]. split; [reflexivity|]. split; [exact H2|].
  destruct (orphans_are_filtered 4 "shipment" shipment_filters shipments w_session
              (mkConn true true None) H1 eq_refl H2)
    as (out & evs & Heq & _ & Hout & _).
  exists out, evs. split; [exact Hout|]. by rewrite Heq.
Defined.

(** Orphan filtering: of the two shipments the one for the order nobody
    placed is dropped, one survives, and the count printed is 1; the time of
    day of the event is gone from what is stored. *)
Example orphan_filtering :
  (load_iso "shipment" "shipments.csv"
     ["event_timestamp"; "estimated_delivery_date"; "actual_delivery_date"]
     shipment_filters w_orders).1 = Ok ()
  ∧ console (load_iso "shipment" "shipments.csv"
               ["event_timestamp"; "estimated_delivery_date"; "actual_delivery_date"]
               shipment_filters w_orders).2
    = console w_orders
      ++ [Loading "shipment" "shipments.csv";
          RemovedMissingFK 1 "shipment" "order_id"; Loaded 1 "shipment"]
  ∧ (map (cell "shipment_id")
       <$> rows_of "shipment"
             (disk (load_iso "shipment" "shipments.csv"
                      ["event_timestamp"; "estimated_delivery_date"; "actual_delivery_date"]
                      shipment_filters w_orders).2)) = Some [Str "H1"]
  ∧ (map (cell "event_timestamp")
       <$> rows_of "shipment"
             (disk (load_iso "shipment" "shipments.csv"
                      ["event_timestamp"; "estimated_delivery_date"; "actual_delivery_date"]
                      shipment_filters w_orders).2)) = Some [Str "2024-01-05"].
Proof. repeat (split; [evaluate|]). evaluate. Qed.

Lemma date_columns_are_normalized_witness :
  (convert_dates iso_to_datetime ["event_timestamp"] shipments
   = Ok (assign "event_timestamp"
           [Date (mkDate 2024 1 5); Date (mkDate 2024 1 6)] shipments)
   ∧ "event_timestamp" ∈ ["event_timestamp"]
   ∧ "event_timestamp" ∈ columns shipments
   ∧ ∃ s parsed,
       iso_to_datetime s = Some parsed
       ∧ (NoDup ["event_timestamp"] -> s = series "event_timestamp" shipments)
       ∧ ∀ i r', rows (assign "event_timestamp"
                         [Date (mkDate 2024 1 5); Date (mkDate 2024 1 6)] shipments) !! i
                 = Some r' ->
           cell "event_timestamp" r' = default NA (dt_date_of <$> parsed !! i)
           ∧ (cell "event_timestamp" r' = NA ∨ ∃ d, cell "event_timestamp" r' = Date d))
  ∧ (files w_orders !! "orders_undated.csv" = Some (Csv purchase_orders_undated)
     ∧ deduplicated "purchase_order" purchase_orders_undated = Ok purchase_orders_undated
     ∧ convert_dates iso_to_datetime [] purchase_orders_undated = Ok purchase_orders_undated
     ∧ "po_date" ∈ columns purchase_orders_undated
     ∧ iso_to_datetime (series "po_date" purchase_orders_undated) = None
     ∧ ∃ out,
         load_iso "purchase_order" "orders_undated.csv"
           ([] ++ "po_date" :: ["promised_delivery_date"]) [] w_orders
         = (Raise (DateParseError "po_date"), say out w_orders)
         ∧ disk (say out w_orders) = disk w_orders
         ∧ connections (say out w_orders) = connections w_orders
         ∧ journal (say out w_orders) = journal w_orders).
Proof.
  destruct (date_columns_are_normalized iso_to_datetime) as [Hdates Hfails].
  split.
  - assert (H1 : convert_dates iso_to_datetime ["event_timestamp"] shipments
                 = Ok (assign "event_timestamp"
                         [Date (mkDate 2024 1 5); Date (mkDate 2024 1 6)] shipments))
      by evaluate.
    assert (H2 : "event_timestamp" ∈ ["event_timestamp"]) by evaluate.
    assert (H3 : "event_timestamp" ∈ columns shipments) by evaluate.
    split; [exact H1|]. split; [exact H2|]. split; [exact H3|].
    exact (Hdates _ _ _ _ H1 H2 H3).
  - assert (H1 : files w_orders !! "orders_undated.csv" = Some (Csv purchase_orders_undated))
      by evaluate.
    assert (H2 : deduplicated "purchase_order" purchase_orders_undated
                 = Ok purchase_orders_undated) by evaluate.
    assert (H3 : convert_dates iso_to_datetime [] purchase_orders_undated
                 = Ok purchase_orders_undated) by reflexivity.
    assert (H4 : "po_date" ∈ columns purchase_orders_undated) by evaluate.
    assert (H5 : iso_to_datetime (series "po_date" purchase_orders_undated) = None)
      by evaluate.
    split; [exact H1|]. split; [exact H2|]. split; [exact H3|].
    split; [exact H4|]. split; [exact H5|].
    exact (Hfails "purchase_order" "orders_undated.csv" [] "po_date"
             ["promised_delivery_date"] [] w_orders _ _ _ H1 H2 H3 H4 H5).
Defined.

(** A value that is no date stops the load before the table is touched. *)
Example unparsable_date :
  (load_iso "purchase_order" "orders_undated.csv"
     ["po_date"; "promised_delivery_date"] [] w_orders).1
  = Raise (DateParseError "po_date")
  ∧ disk (load_iso "purchase_order" "orders_undated.csv"
            ["po_date"; "promised_delivery_date"] [] w_orders).2
    = disk w_orders.
Proof. split; evaluate. Qed.

Lemma absent_columns_are_skipped_witness :
  files w_schema !! "w1.csv" = Some (Csv warehouses_1)
  ∧ load_iso "warehouse" "w1.csv" ["opened_on"] [("region_id", mkQuery "id" "region")] w_schema
    = load_iso "warehouse" "w1.csv"
        (filter (fun c => c ∈ columns warehouses_1) ["opened_on"])
        (filter (fun cq => cq.1 ∈ columns warehouses_1)
                [("region_id", mkQuery "id" "region")]) w_schema.
Proof.
  assert (H : files w_schema !! "w1.csv" = Some (Csv warehouses_1)) by evaluate.
  split; [exact H|].
  exact (absent_columns_are_skipped iso_to_datetime "warehouse" "w1.csv" ["opened_on"]
           [("region_id", mkQuery "id" "region")] w_schema warehouses_1 H).
Defined.

(** A filter on a column the extract lacks filters nothing: the load is the
    load without it, and both rows go in. *)
Example absent_filter_filters_nothing :
  load_iso "warehouse" "w1.csv" ["opened_on"] [("region_id", mkQuery "id" "region")] w_schema
  = load_iso "warehouse" "w1.csv" [] [] w_schema.
Proof. evaluate. Qed.


(** C6 fails on the code: every call of [connect] opens a connection of its
    own and overwrites [self.conn]; the [with] blocks commit or roll back and
    close nothing; [close] in the [finally] clause of [main] closes the one
    connection [self.conn] holds at that moment. Both on a run that completes
    and on one in which a load raises, the connections opened earlier in the
    run are still open when [main] returns. *)
Theorem main_leaves_connections_open :
  ((main iso_to_datetime false w_empty).1 = Ok ()
   ∧ last (console (main iso_to_datetime false w_empty).2) = Some SetupCompleted
   ∧ connections (main iso_to_datetime false w_empty).2
     = [mkConn true true None; mkConn false true None])
  ∧ ((main iso_to_datetime false w_fresh).1 = Ok ()
     ∧ last (console (main iso_to_datetime false w_fresh).2)
       = Some (Error (IntegrityError "CHECK constraint failed"))
     ∧ connections (main iso_to_datetime false w_fresh).2
       = [mkConn true true None; mkConn true true None; mkConn false true None]).
Proof. split; (split; [evaluate|split; evaluate]). Qed.

(** ** The further properties at work *)


Lemma load_changes_rows_only_witness :
  bare_name "product" = true
  ∧ load_iso "product" "products.csv" [] [] w_orders = (Ok (), w_products_again)
  ∧ indexes (disk w_products_again) = indexes (disk w_orders)
  ∧ shrinks (delete "product" (tables (disk w_orders)))
            (delete "product" (tables (disk w_products_again))).
Proof.
  assert (H0 : bare_name "product" = true) by evaluate.
  assert (H1 : load_iso "product" "products.csv" [] [] w_orders = (Ok (), w_products_again))
    by evaluate.
  split; [exact H0|]. split; [exact H1|].
  destruct (load_changes_rows_only iso_to_datetime _ _ _ _ _ _ _ H0 H1) as (Hi & _ & Hs).
  split; [exact Hi|exact Hs].
Defined.

Lemma load_cascades_to_children_witness :
  bare_name "product" = true
  ∧ files w_orders !! "products.csv" = Some (Csv products)
  ∧ load_iso "product" "products.csv" [] [] w_orders = (Ok (), w_products_again)
  ∧ "purchase_order" ≠ "product"
  ∧ tables (disk w_orders) !! "purchase_order" = Some orders_table
  ∧ mkFK "sku_id" "product" "sku_id" ∈ t_foreign_keys (t_spec orders_table)
  ∧ ∃ tb tbc',
      tables (disk w_orders) !! "product" = Some tb
      ∧ tables (disk w_products_again) !! "purchase_order" = Some tbc'
      ∧ Forall (fun r => ¬ references (mkFK "sku_id" "product" "sku_id") (t_rows tb) r)
               (t_rows tbc').
Proof.
  assert (H0 : bare_name "product" = true) by evaluate.
  assert (H1 : files w_orders !! "products.csv" = Some (Csv products)) by evaluate.
  assert (H2 : load_iso "product" "products.csv" [] [] w_orders = (Ok (), w_products_again))
    by evaluate.
  assert (H3 : "purchase_order" ≠ "product") by evaluate.
  assert (H4 : tables (disk w_orders) !! "purchase_order" = Some orders_table) by evaluate.
  assert (H5 : mkFK "sku_id" "product" "sku_id" ∈ t_foreign_keys (t_spec orders_table))
    by evaluate.
  split; [exact H0|].
  split; [exact H1|]. split; [exact H2|]. split; [exact H3|]. split; [exact H4|].
  split; [exact H5|].
  destruct (load_cascades_to_children iso_to_datetime _ _ _ _ _ _ _ _ _ _ H0 H1 H2 H3 H4 H5
              eq_refl) as (tb & tbc' & Htb & Htbc & _ & _ & Hall).
  exists tb, tbc'. split; [exact Htb|]. split; [exact Htbc|exact Hall].
Defined.

(** The order that was placed for the product is gone once the product
    extract, the same as before, has been loaded again. *)
Example reloading_a_parent_empties_its_children :
  length <$> rows_of "purchase_order" (disk w_orders) = Some 1
  ∧ rows_of "purchase_order" (disk w_products_again) = Some []
  ∧ rows_of "product" (disk w_products_again) = rows_of "product" (disk w_orders).
Proof. split; [evaluate|split; evaluate]. Qed.

Lemma loaded_rows_meet_constraints_witness :
  bare_name "warehouse" = true
  ∧ files w_schema !! "w1.csv" = Some (Csv warehouses_1)
  ∧ load_iso "warehouse" "w1.csv" [] [] w_schema = (Ok (), w_warehouses_1)
  ∧ ∃ tb, tables (disk w_warehouses_1) !! "warehouse" = Some tb
          ∧ Forall (meets_constraints (t_spec tb) (tables (disk w_warehouses_1))) (t_rows tb).
Proof.
  assert (H0 : bare_name "warehouse" = true) by evaluate.
  assert (H1 : files w_schema !! "w1.csv" = Some (Csv warehouses_1)) by evaluate.
  assert (H2 : load_iso "warehouse" "w1.csv" [] [] w_schema = (Ok (), w_warehouses_1))
    by evaluate.
  split; [exact H0|]. split; [exact H1|]. split; [exact H2|].
  destruct (loaded_rows_meet_constraints iso_to_datetime _ _ _ _ _ _ _ H0 H1 H2)
    as (tb & Htb & Hall & _).
  exists tb. split; [exact Htb|exact Hall].
Defined.

Lemma failed_load_inserts_nothing_witness :
  bare_name "vendor" = true
  ∧ load_iso "vendor" "vendors_out_of_range.csv" [] [] w_vendors
  = (Raise (IntegrityError "CHECK constraint failed"), w_vendors_failed)
  ∧ (disk w_vendors_failed = disk w_vendors
     ∨ exec_delete true "vendor" (disk w_vendors) = Ok (disk w_vendors_failed)
       ∧ rows_of "vendor" (disk w_vendors_failed) = Some []).
Proof.
  assert (H1 : load_iso "vendor" "vendors_out_of_range.csv" [] [] w_vendors
               = (Raise (IntegrityError "CHECK constraint failed"), w_vendors_failed))
    by evaluate.
  assert (H0 : bare_name "vendor" = true) by evaluate.
  split; [exact H0|]. split; [exact H1|].
  exact (failed_load_inserts_nothing iso_to_datetime _ _ _ _ _ _ _ H0 H1).
Defined.

Lemma unusable_source_is_fatal_witness :
  files w_unusable !! "blank.csv" = Some Blank
  ∧ load_iso "warehouse" "blank.csv" [] [] w_unusable
    = (Raise EmptyDataError, say [Loading "warehouse" "blank.csv"] w_unusable).
Proof.
  assert (H1 : files w_unusable !! "blank.csv" = Some Blank) by evaluate.
  split; [exact H1|].
  destruct (unusable_source_is_fatal iso_to_datetime "warehouse" "blank.csv" [] [] w_unusable
              (or_introl H1)) as (e & Heq & He & _).
  rewrite Heq. by rewrite (He H1).
Defined.

(** The warehouse extract without its key column. *)
Example missing_key_column :
  load_iso "warehouse" "unkeyed.csv" [] [] w_unusable
  = (Raise (KeyError ["warehouse_id"]), say [Loading "warehouse" "unkeyed.csv"] w_unusable).
Proof. evaluate. Qed.

Lemma undeclared_key_keeps_duplicates_witness :
  PRIMARY_KEYS !! "region" = None
  ∧ ∃ hd, deduplicate "region" regions w_empty
          = (Ok regions, say [FoundDuplicates 1 "region"; DuplicateValues hd] w_empty).
Proof.
  assert (H1 : PRIMARY_KEYS !! "region" = None) by evaluate.
  split; [exact H1|].
  destruct (undeclared_key_keeps_duplicates "region" regions w_empty H1)
    as (kept & hd & Hk & Heq & _).
  exists hd. rewrite Heq. do 2 f_equal.
  assert (Hkept : kept = unmarked ["region"] [] (rows regions)).
  { eapply KeepFirst_unique; [exact Hk|apply unmarked_keep_first]. }
  rewrite Hkept. reflexivity.
Defined.

Lemma deduplicate_twice_witness :
  PRIMARY_KEYS !! "warehouse" = Some ["warehouse_id"]
  ∧ deduplicated "warehouse" warehouses_1
    = Ok (mkDF (columns warehouses_1) (unmarked ["warehouse_id"] [] (rows warehouses_1)))
  ∧ deduplicate "warehouse"
      (mkDF (columns warehouses_1) (unmarked ["warehouse_id"] [] (rows warehouses_1))) w_empty
    = (Ok (mkDF (columns warehouses_1) (unmarked ["warehouse_id"] [] (rows warehouses_1))),
       w_empty).
Proof.
  assert (H1 : PRIMARY_KEYS !! "warehouse" = Some ["warehouse_id"]) by evaluate.
  assert (H2 : deduplicated "warehouse" warehouses_1
               = Ok (mkDF (columns warehouses_1)
                          (unmarked ["warehouse_id"] [] (rows warehouses_1)))) by evaluate.
  split; [exact H1|]. split; [exact H2|].
  exact (deduplicate_twice _ _ _ _ w_empty H1 H2).
Defined.

Lemma deduplicated_keys_are_unique_witness :
  PRIMARY_KEYS !! "warehouse" = Some ["warehouse_id"]
  ∧ deduplicated "warehouse" warehouses_1
    = Ok (mkDF (columns warehouses_1) (unmarked ["warehouse_id"] [] (rows warehouses_1)))
  ∧ NoDup (map (key_of ["warehouse_id"]) (unmarked ["warehouse_id"] [] (rows warehouses_1))).
Proof.
  assert (H1 : PRIMARY_KEYS !! "warehouse" = Some ["warehouse_id"]) by evaluate.
  assert (H2 : deduplicated "warehouse" warehouses_1
               = Ok (mkDF (columns warehouses_1)
                          (unmarked ["warehouse_id"] [] (rows warehouses_1)))) by evaluate.
  split; [exact H1|]. split; [exact H2|].
  exact (proj1 (deduplicated_keys_are_unique _ _ _ _ H1 H2)).
Defined.


Lemma verify_tables_reports_witness :
  Forall (fun t => bare_name t = true) (user_tables true (disk w_orders))
  ∧ ∃ w', verify_tables w_orders = (Ok (), w')
          ∧ console w'
            = console w_orders
              ++ TableVerification
                 :: map (fun t => RowCount t
                           (num (Z.of_nat (length (default [] (rows_of t (disk w_orders)))))))
                        (user_tables true (disk w_orders)).
Proof.
  assert (H1 : Forall (fun t => bare_name t = true) (user_tables true (disk w_orders)))
    by evaluate.
  split; [exact H1|].
  destruct (verify_tables_reports w_orders H1) as (w' & Heq & Hco & _).
  exists w'. split; [exact Heq|exact Hco].
Defined.

(** The report on the database with one product, one vendor and one order. *)
Example verification_report :
  map (fun t => RowCount t (num (Z.of_nat (length (default [] (rows_of t (disk w_orders)))))))
      (user_tables true (disk w_orders))
  = [ RowCount "demand" (num 0); RowCount "inventory" (num 0);
      RowCount "product" (num 1); RowCount "purchase_order" (num 1);
      RowCount "shipment" (num 0); RowCount "vendor" (num 1);
      RowCount "warehouse" (num 0) ].
Proof. evaluate. Qed.



(** Closing a connection that has deleted the products and not committed:
    the products are still there. *)
Example close_drops_what_is_pending :
  self_conn w_uncommitted = Some 0
  ∧ (pending <$> connections w_uncommitted !! 0) ≠ Some None
  ∧ rows_of "product" (disk (close w_uncommitted).2) = rows_of "product" (disk w_orders)
  ∧ (execute 0 (SELECT_count "product") (close w_uncommitted).2).1 = Raise ProgrammingError.
Proof. split; [evaluate|split; [evaluate|split; evaluate]]. Qed.

Lemma selections_write_distinct_rows_witness :
  (prepare_products_data Csv, ["sku_id"; "product_type"], "data/derived/products_data.csv")
    ∈ selections Csv
  ∧ files w_source !! augmented = Some (Csv source)
  ∧ ["sku_id"; "product_type"] ⊆ columns source
  ∧ ∃ kept,
      prepare_products_data Csv w_source
      = write Csv "data/derived/products_data.csv" (mkDF ["sku_id"; "product_type"] kept)
          w_source
      ∧ NoDup (map (key_of ["sku_id"; "product_type"]) kept).
Proof.
  assert (H1 : (prepare_products_data Csv, ["sku_id"; "product_type"],
                "data/derived/products_data.csv") ∈ selections Csv) by left.
  assert (H2 : files w_source !! augmented = Some (Csv source)) by evaluate.
  assert (H3 : ["sku_id"; "product_type"] ⊆ columns source) by evaluate.
  split; [exact H1|]. split; [exact H2|]. split; [exact H3|].
  destruct (selections_write_distinct_rows Csv _ _ _ _ _ H1 H2 H3) as (kept & Heq & _ & Hnd & _).
  exists kept. split; [exact Heq|exact Hnd].
Defined.

(** Three lines of the source make one product. *)
Example one_product_prepared :
  files (prepare_products_data Csv w_source).2 !! "data/derived/products_data.csv"
  = Some (Csv (mkDF ["sku_id"; "product_type"]
                    [row_of [("sku_id", Str "S1"); ("product_type", Str "widget")]])).
Proof. evaluate. Qed.

Lemma vendors_get_the_default_score_witness :
  files w_source !! augmented = Some (Csv source)
  ∧ vendor_columns ⊆ columns source
  ∧ ∃ kept,
      prepare_vendor_data Csv w_source
      = write Csv "data/derived/vendor_data.csv"
          (mkDF (vendor_columns ++ ["quality_score"])
                (map (fun r => <["quality_score" := dec 9 2]> r) kept)) w_source.
Proof.
  assert (H1 : files w_source !! augmented = Some (Csv source)) by evaluate.
  assert (H2 : vendor_columns ⊆ columns source) by evaluate.
  split; [exact H1|]. split; [exact H2|].
  destruct (vendors_get_the_default_score Csv _ _ H1 H2) as (kept & Heq & _).
  exists kept. exact Heq.
Defined.

Lemma shipments_have_order_and_status_witness :
  files w_source !! augmented = Some (Csv source)
  ∧ shipment_columns ⊆ columns source
  ∧ ∃ written,
      prepare_shipment_data Csv w_source
      = write Csv "data/derived/shipment_data.csv" (mkDF shipment_columns written) w_source
      ∧ length written = 2
      ∧ Forall (fun r' => cell "order_id" r' ≠ NA ∧ cell "status" r' ≠ NA) written.
Proof.
  assert (H1 : files w_source !! augmented = Some (Csv source)) by evaluate.
  assert (H2 : shipment_columns ⊆ columns source) by evaluate.
  assert (H3 : length (filter (fun r => cell "order_id" r ≠ NA) (rows source)) = 2)
    by evaluate.
  split; [exact H1|]. split; [exact H2|].
  destruct (shipments_have_order_and_status Csv _ _ H1 H2) as (written & Heq & Hlen & _ & Hall).
  exists written. split; [exact Heq|]. split; [by rewrite Hlen|exact Hall].
Defined.

(** The two shipments written: the one without a status is pending. *)
Example shipment_statuses :
  match files (prepare_shipment_data Csv w_source).2 !! "data/derived/shipment_data.csv" with
  | Some (Csv df) => series "status" df
  | _ => []
  end = [Str "delivered"; Str "pending"].
Proof. evaluate. Qed.

Lemma preparation_fails_without_writing_witness :
  (prepare_demand_data Csv,
   ["date"; "sku_id"; "price"; "discount_percent"; "competitor_price";
    "web_traffic"; "units_sold"]) ∈ preparations Csv
  ∧ files w_source !! augmented = Some (Csv source)
  ∧ ¬ ["date"; "sku_id"; "price"; "discount_percent"; "competitor_price";
       "web_traffic"; "units_sold"] ⊆ columns source
  ∧ ∃ missing, prepare_demand_data Csv w_source = (Raise (KeyError missing), w_source)
               ∧ "date" ∈ missing.
Proof.
  assert (H1 : (prepare_demand_data Csv,
                ["date"; "sku_id"; "price"; "discount_percent"; "competitor_price";
                 "web_traffic"; "units_sold"]) ∈ preparations Csv)
    by (do 3 right; left).
  assert (H2 : files w_source !! augmented = Some (Csv source)) by evaluate.
  assert (H3 : ¬ ["date"; "sku_id"; "price"; "discount_percent"; "competitor_price";
                  "web_traffic"; "units_sold"] ⊆ columns source) by evaluate.
  split; [exact H1|]. split; [exact H2|]. split; [exact H3|].
  destruct (preparation_fails_without_writing Csv _ _ w_source H1) as (e & Heq & He).
  { intros df Hdf. rewrite H2 in Hdf. by injection Hdf as <-. }
  destruct (He _ H2) as (missing & -> & Hm).
  exists missing. split; [exact Heq|]. apply Hm. split; [by left|evaluate].
Defined.
